(** * go-tpm2: the marshalling engine and the response-code decoder

    A shallow embedding of the two core files of the package: the
    reflection-driven codec (marshalValue / unmarshalValue and the
    entry points MarshalToBytes / UnmarshalFromBytes) and
    DecodeResponseCode.

    Conventions of the embedding

    - Fixed-width integers are [Z]; every truncating conversion of the
      source ([uint16(n)], [uint32(n)]) is written out as a [mod].
    - Bytes are [Byte.byte]; big-endian encodings are built from
      coqutil's little-endian lists.
    - [reflect.Type] is the inductive [type]; a [reflect.Value] is the
      record [Value]: a static type, the data it refers to and the
      addressability flag.  Values form a tree: two pointers never
      share a pointee.  Method sets (the CustomMarshaller and Union
      implementations of the program's types) and the conversion rules
      of reflect are the record [Runtime], a parameter of the engine.
    - Go's [error] is the inductive [error]; [fmt.Errorf] keeps its
      format string and arguments unrendered.
    - [io.Writer] is a type class; the readers reachable from
      UnmarshalFromBytes ([bytes.Reader] and [io.LimitReader] views of
      it) are the list of bytes that can still be read through them.
    - unmarshalValue mutates its destination in place; here it returns
      the data the destination holds after the call, together with the
      rest of the reader, also when it returns an error.  The container
      kept in a context is the container as it was when the context was
      made: the engine reads it only to look up the selector of a
      union, and the model agrees with the source as long as the
      selector does not name the very field through whose pointer the
      union is reached.
    - The engine recurses on values that are not sub-terms of its
      argument (zero values of a pointee type, the resolved variant of a
      union), so the recursive functions take fuel; [None] stands for a
      call that has not returned within the fuel. *)

From Stdlib Require Import ZArith List String Ascii Bool Lia Arith.
From coqutil Require Import Byte Word.LittleEndianList.
Import ListNotations.
Local Open Scope string_scope.
Local Open Scope list_scope.
Local Open Scope Z_scope.

(** ** reflect.Kind and reflect.Type *)

Module reflect.

Inductive Kind : Set :=
| Bool | Int | Int8 | Int16 | Int32 | Int64
| Uint | Uint8 | Uint16 | Uint32 | Uint64 | Uintptr
| Float32 | Float64 | Complex64 | Complex128
| Array | Chan | Func | Interface | Map | Ptr | Slice | String | Struct
| UnsafePointer.

End reflect.

Definition Kind : Set := reflect.Kind.

Definition Kind_eq_dec (a b : Kind) : {a = b} + {a <> b}.
Proof. decide equality. Defined.

Definition Kind_eqb (a b : Kind) : bool :=
  if Kind_eq_dec a b then true else false.

(** A type is named ([name] non-empty) or a type literal.  [TBasic]
    covers the scalar kinds and the kinds the engine never looks into
    (array, chan, func, map, string, unsafe pointer).  A struct field is
    its name, its type and the value of its [tpm2] tag. *)
Inductive type : Set :=
| TBasic (name : string) (k : Kind)
| TPtr (elem : type)
| TSlice (name : string) (elem : type)
| TStruct (name : string) (fields : list StructField)
| TInterface (name : string) (numMethod : nat)
with StructField : Set :=
| mkField (Name : string) (Type_ : type) (Tag : string).

Definition fieldName (f : StructField) : string :=
  match f with mkField n _ _ => n end.
Definition fieldType (f : StructField) : type :=
  match f with mkField _ t _ => t end.
Definition fieldTag (f : StructField) : string :=
  match f with mkField _ _ g => g end.

Fixpoint type_eqb (a b : type) {struct a} : bool :=
  match a, b with
  | TBasic n k, TBasic n' k' => String.eqb n n' && Kind_eqb k k'
  | TPtr e, TPtr e' => type_eqb e e'
  | TSlice n e, TSlice n' e' => String.eqb n n' && type_eqb e e'
  | TStruct n fs, TStruct n' fs' =>
      String.eqb n n' &&
      (fix fields_eqb (l l' : list StructField) {struct l} : bool :=
         match l, l' with
         | [], [] => true
         | mkField fn ft tg :: r, mkField fn' ft' tg' :: r' =>
             String.eqb fn fn' && type_eqb ft ft' && String.eqb tg tg'
             && fields_eqb r r'
         | _, _ => false
         end) fs fs'
  | TInterface n m, TInterface n' m' => String.eqb n n' && Nat.eqb m m'
  | _, _ => false
  end.

Definition TypeKind (t : type) : Kind :=
  match t with
  | TBasic _ k => k
  | TPtr _ => reflect.Ptr
  | TSlice _ _ => reflect.Slice
  | TStruct _ _ => reflect.Struct
  | TInterface _ _ => reflect.Interface
  end.

(** [t.Elem()] of a pointer or slice type. *)
Definition TypeElem (t : type) : type :=
  match t with
  | TPtr e => e
  | TSlice _ e => e
  | _ => t
  end.

Definition PtrTo (t : type) : type := TPtr t.

Definition TypeFields (t : type) : list StructField :=
  match t with
  | TStruct _ fs => fs
  | _ => []
  end.

Definition TypeNumField (t : type) : nat := List.length (TypeFields t).

Definition TypeNumMethod (t : type) : nat :=
  match t with
  | TInterface _ m => m
  | _ => O
  end.

(** ** reflect.Value *)

(** The data a Go value holds.  A scalar is the integer it denotes (the
    bit pattern for floating-point and complex kinds, 0 or 1 for bool);
    [VOpaque] is a value of a kind the engine rejects or cannot
    encode.  Equality of [value]s is Go's deep equality on trees. *)
#[warnings="-register-all"]
Inductive value : Set :=
| VScalar (x : Z)
| VOpaque
| VNilPtr
| VPtr (pointee : value)
| VNilSlice
| VSlice (elems : list value)
| VStruct (fields : list value)
| VNilIface
| VIface (dyn : type) (v : value).

(** A [reflect.Value]: static type, data, and [CanAddr].  Struct fields
    are taken to be exported, so [CanSet] is [CanAddr]. *)
Record Value : Set := mkValue {
  vType : type;
  vData : value;
  CanAddr : bool
}.

Definition CanSet (v : Value) : bool := CanAddr v.

Definition ValueKind (v : Value) : Kind := TypeKind (vType v).

Definition isScalarKind (k : Kind) : bool :=
  match k with
  | reflect.Bool | reflect.Int | reflect.Int8 | reflect.Int16 | reflect.Int32 | reflect.Int64
  | reflect.Uint | reflect.Uint8 | reflect.Uint16 | reflect.Uint32 | reflect.Uint64 | reflect.Uintptr
  | reflect.Float32 | reflect.Float64 | reflect.Complex64 | reflect.Complex128 => true
  | _ => false
  end.

(** [reflect.Zero(t)], as data. *)
Fixpoint Zero (t : type) : value :=
  match t with
  | TBasic _ k => if isScalarKind k then VScalar 0 else VOpaque
  | TPtr _ => VNilPtr
  | TSlice _ _ => VNilSlice
  | TStruct _ fs =>
      VStruct ((fix zeros (l : list StructField) : list value :=
                  match l with
                  | [] => []
                  | mkField _ ft _ :: r => Zero ft :: zeros r
                  end) fs)
  | TInterface _ _ => VNilIface
  end.

(** [reflect.Zero(t)]: not addressable. *)
Definition ZeroValue (t : type) : Value := mkValue t (Zero t) false.

(** [reflect.New(t).Elem()]: a fresh addressable zero. *)
Definition NewElem (t : type) : Value := mkValue t (Zero t) true.

(** [reflect.MakeSlice(t, l, l)], as data. *)
Definition MakeSlice (t : type) (l : Z) : value :=
  VSlice (repeat (Zero (TypeElem t)) (Z.to_nat l)).

Definition IsNil (v : Value) : bool :=
  match vData v with
  | VNilPtr | VNilSlice | VNilIface => true
  | _ => false
  end.

(** [v.Elem()] of a non-nil pointer (addressable pointee) or of a
    non-nil interface (a copy of the dynamic value, not addressable). *)
Definition Elem (v : Value) : Value :=
  match vData v with
  | VPtr d => mkValue (TypeElem (vType v)) d true
  | VIface t d => mkValue t d false
  | _ => mkValue (TypeElem (vType v)) VOpaque false
  end.

Definition TypeField (t : type) (i : nat) : StructField :=
  nth i (TypeFields t) (mkField "" t "").

Definition structData (d : value) : list value :=
  match d with
  | VStruct fs => fs
  | _ => []
  end.

Definition sliceData (d : value) : list value :=
  match d with
  | VSlice l => l
  | _ => []
  end.

Definition NumField (v : Value) : nat := TypeNumField (vType v).

(** [s.Field(i)]: a field is addressable when the struct is. *)
Definition Field (s : Value) (i : nat) : Value :=
  mkValue (fieldType (TypeField (vType s) i))
          (nth i (structData (vData s)) VOpaque) (CanAddr s).

Fixpoint fieldIndex (name : string) (fs : list StructField) (i : nat) : option nat :=
  match fs with
  | [] => None
  | f :: r => if String.eqb (fieldName f) name then Some i
              else fieldIndex name r (S i)
  end.

(** [s.FieldByName(name)]; [None] is the zero [reflect.Value]. *)
Definition FieldByName (s : Value) (name : string) : option Value :=
  match fieldIndex name (TypeFields (vType s)) O with
  | Some i => Some (Field s i)
  | None => None
  end.

Definition Len (v : Value) : nat := List.length (sliceData (vData v)).

(** [s.Index(i)]: slice elements are always addressable. *)
Definition Index (s : Value) (i : nat) : Value :=
  mkValue (TypeElem (vType s)) (nth i (sliceData (vData s)) VOpaque) true.

Definition scalarData (d : value) : Z :=
  match d with
  | VScalar x => x
  | _ => 0
  end.

(** [s.Bytes()] of a byte slice. *)
Definition Bytes (s : Value) : list byte :=
  map (fun e => byte.of_Z (scalarData e)) (sliceData (vData s)).

(** ** Errors *)

(** [errors.New], [fmt.Errorf] with its arguments, a run-time panic, the
    codec's [invalidSelectorError] and the error structs of the
    response-code decoder. *)
Inductive error : Set :=
| errorString (msg : string)
| Errorf (format : string) (args : list fmtArg)
| panic (msg : string)
| invalidSelectorError (selector : value)
| TPM1Error (Command : Z) (Code : Z)
| TPMVendorError (Command : Z) (Code : Z)
| TPMWarning (Command : Z) (Code : Z)
| TPMError (Command : Z) (Code : Z)
| TPMParameterError (Command : Z) (Code : Z) (Index : Z)
| TPMSessionError (Command : Z) (Code : Z) (Index : Z)
| TPMHandleError (Command : Z) (Code : Z) (Index : Z)
with fmtArg : Set :=
| AType (t : type)
| AKind (k : Kind)
| AString (s : string)
| AInt (n : Z)
| AErr (e : error).

(** ** The response-code decoder *)

Module ResponseCode.

Definition formatMask : Z := Z.shiftl 1 7.

Definition fmt0ErrorCodeMask : Z := 0x7f.
Definition fmt0VersionMask : Z := Z.shiftl 1 8.
Definition fmt0VendorMask : Z := Z.shiftl 1 10.
Definition fmt0SeverityMask : Z := Z.shiftl 1 11.

Definition fmt1ErrorCodeMask : Z := 0x3f.
Definition fmt1ParameterIndexMask : Z := 0xf00.
Definition fmt1HandleOrSessionIndexMask : Z := 0x700.
Definition fmt1ParameterMask : Z := Z.shiftl 1 6.
Definition fmt1SessionMask : Z := Z.shiftl 1 11.

Definition fmt1IndexShift : Z := 8.

(** Modelled from the spec: the constant [Success] is declared outside
    the files at hand; the status decode table gives status 0x00000000
    as the success value. *)
Definition Success : Z := 0.

(** [resp] is a [uint32]; the [&] of two [uint32] is [Z.land], and
    [x > 0] on an unsigned value is [0 <? x]. *)
Definition DecodeResponseCode (command resp : Z) : option error :=
  if resp =? Success then None
  else if Z.land resp formatMask =? 0 then
    if Z.land resp fmt0VersionMask =? 0 then
      Some (TPM1Error command resp)
    else if 0 <? Z.land resp fmt0VendorMask then
      Some (TPMVendorError command resp)
    else if 0 <? Z.land resp fmt0SeverityMask then
      Some (TPMWarning command (Z.land resp fmt0ErrorCodeMask))
    else
      Some (TPMError command (Z.land resp fmt0ErrorCodeMask))
  else if 0 <? Z.land resp fmt1ParameterMask then
    Some (TPMParameterError command (Z.land resp fmt1ErrorCodeMask)
            (Z.shiftr (Z.land resp fmt1ParameterIndexMask) fmt1IndexShift))
  else if 0 <? Z.land resp fmt1SessionMask then
    Some (TPMSessionError command (Z.land resp fmt1ErrorCodeMask)
            (Z.shiftr (Z.land resp fmt1HandleOrSessionIndexMask) fmt1IndexShift))
  else
    Some (TPMHandleError command (Z.land resp fmt1ErrorCodeMask)
            (Z.shiftr (Z.land resp fmt1HandleOrSessionIndexMask) fmt1IndexShift)).

(** The classification as the specification words it: a bit of the
    status word is [Z.testbit], "masked to n bits" is [mod 2^n], and the
    n-bit field at bit 8 is [(status / 2^8) mod 2^n]. *)
Definition bitfield (status lo width : Z) : Z := (status / 2 ^ lo) mod 2 ^ width.

Definition format0_spec (command status : Z) : option error :=
  if status =? Success then None
  else if negb (Z.testbit status 8) then Some (TPM1Error command status)
  else if Z.testbit status 10 then Some (TPMVendorError command status)
  else if Z.testbit status 11 then Some (TPMWarning command (status mod 2 ^ 7))
  else Some (TPMError command (status mod 2 ^ 7)).

Definition format1_spec (command status : Z) : option error :=
  if Z.testbit status 6 then
    Some (TPMParameterError command (status mod 2 ^ 6) (bitfield status 8 4))
  else if Z.testbit status 11 then
    Some (TPMSessionError command (status mod 2 ^ 6) (bitfield status 8 3))
  else
    Some (TPMHandleError command (status mod 2 ^ 6) (bitfield status 8 3)).

End ResponseCode.

(** ** encoding/binary, big-endian *)

Definition uint16 (n : Z) : Z := n mod 2 ^ 16.
Definition uint32 (n : Z) : Z := n mod 2 ^ 32.

Definition be_bytes (n : nat) (x : Z) : list byte := rev (le_split n x).
Definition be_value (bs : list byte) : Z := le_combine (rev bs).

(** The size [encoding/binary] gives a fixed-size kind; [int], [uint],
    [uintptr] and the non-scalar kinds have none. *)
Definition binarySize (k : Kind) : option nat :=
  match k with
  | reflect.Bool | reflect.Int8 | reflect.Uint8 => Some 1%nat
  | reflect.Int16 | reflect.Uint16 => Some 2%nat
  | reflect.Int32 | reflect.Uint32 | reflect.Float32 => Some 4%nat
  | reflect.Int64 | reflect.Uint64 | reflect.Float64 | reflect.Complex64 => Some 8%nat
  | reflect.Complex128 => Some 16%nat
  | _ => None
  end.

Definition isSigned (k : Kind) : bool :=
  match k with
  | reflect.Int8 | reflect.Int16 | reflect.Int32 | reflect.Int64 => true
  | _ => false
  end.

Definition encodeScalar (k : Kind) (sz : nat) (x : Z) : list byte :=
  match k with
  | reflect.Bool => be_bytes sz (if x =? 0 then 0 else 1)
  | _ => be_bytes sz x
  end.

Definition decodeScalar (k : Kind) (bs : list byte) : Z :=
  let u := be_value bs in
  match k with
  | reflect.Bool => if u =? 0 then 0 else 1
  | _ => if isSigned k && (2 ^ (8 * Z.of_nat (List.length bs) - 1) <=? u)
         then u - 2 ^ (8 * Z.of_nat (List.length bs)) else u
  end.

(** ** io.Writer, bytes.Buffer and the byte reader *)

Class Writer (W : Type) : Type := Write : W -> list byte -> W * option error.

(** [bytes.Buffer]: a write appends and never fails. *)
Definition bytesBuffer : Type := list byte.

#[export] Instance bytesBuffer_Writer : Writer bytesBuffer :=
  fun b p => (b ++ p, None).

Definition EOF : error := errorString "EOF".
Definition ErrUnexpectedEOF : error := errorString "unexpected EOF".

(** [io.ReadFull(r, buf)] with [len(buf) = n] on a reader that still
    holds [r]: the rest of the reader, the bytes read, the error. *)
Definition ReadFull (r : list byte) (n : nat) : list byte * list byte * option error :=
  if (n =? 0)%nat then (r, [], None)
  else if (List.length r =? 0)%nat then (r, [], Some EOF)
  else if (List.length r <? n)%nat then ([], r, Some ErrUnexpectedEOF)
  else (skipn n r, firstn n r, None).

(** ** Field options and the traversal context *)

Record muOptions : Set := mkOptions {
  selector : string;
  sized : bool;
  raw : bool
}.

Definition noOptions : muOptions := mkOptions "" false false.

(** [strings.Split(s, ",")]. *)
Fixpoint splitComma (s : string) : list string :=
  match s with
  | EmptyString => [EmptyString]
  | String c r =>
      if Ascii.eqb c ","%char then EmptyString :: splitComma r
      else match splitComma r with
           | h :: t => String c h :: t
           | [] => [String c EmptyString]
           end
  end.

Definition applyOption (opts : muOptions) (part : string) : muOptions :=
  if String.prefix "selector:" part then
    mkOptions (String.substring 9 (String.length part - 9) part) (sized opts) (raw opts)
  else if String.eqb part "sized" then
    mkOptions (selector opts) true (raw opts)
  else if String.eqb part "raw" then
    mkOptions (selector opts) (sized opts) true
  else opts.

Definition parseFieldOptions (s : string) : muOptions :=
  fold_left applyOption (splitComma s) noOptions.

Record muContext : Set := mkContext {
  depth : Z;
  container : option Value;
  parentType : option type;
  options : muOptions
}.

(** [ctx.depth++]. *)
Definition incDepth (ctx : muContext) : muContext :=
  mkContext (depth ctx + 1) (container ctx) (parentType ctx) (options ctx).

(** [new(muContext)]. *)
Definition newContext : muContext := mkContext 0 None None noOptions.

(** The first statement of marshalValue and unmarshalValue after the
    custom-marshaller test: a nil context becomes a new one, any other
    has its depth incremented. *)
Definition entered (ctx : option muContext) : muContext :=
  match ctx with
  | None => newContext
  | Some c => incDepth c
  end.

Definition beginStructFieldCtx (ctx : muContext) (s : Value) (i : nat) : muContext :=
  let opts := parseFieldOptions (fieldTag (TypeField (vType s) i)) in
  mkContext (depth ctx) (Some s) (Some (vType s)) opts.

Definition beginUnionDataCtx (ctx : muContext) (u : Value) : muContext :=
  mkContext (depth ctx) (Some u) (Some (vType u)) noOptions.

Definition beginSliceElemCtx (ctx : muContext) (s : Value) : muContext :=
  mkContext (depth ctx) (Some s) (Some (vType s)) noOptions.

Definition beginPtrElemCtx (ctx : muContext) (p : Value) : muContext :=
  mkContext (depth ctx) (container ctx) (Some (vType p)) (options ctx).

Definition beginSizedStructCtx (ctx : muContext) (p : Value) : muContext :=
  mkContext (depth ctx) (container ctx) (Some (vType p))
            (mkOptions (selector (options ctx)) false (raw (options ctx))).

Definition beginInterfaceElemCtx (ctx : muContext) (i : Value) : muContext :=
  mkContext (depth ctx) (container ctx) (Some (vType i)) (options ctx).

Definition arrivedFromPointer (ctx : muContext) (v : Value) : bool :=
  match parentType ctx with
  | Some p => type_eqb p (PtrTo (vType v))
  | None => false
  end.

(** ** Method sets and conversions of the program's types *)

(** The [CustomMarshaller] interface.  Both methods act on the value the
    receiver points to: [Marshal] writes to any writer, [Unmarshal]
    reads from the byte reader and gives the rest of the reader and the
    new pointee. *)
Record CustomMarshaller : Type := {
  Marshal : value -> forall W : Type, Writer W -> W -> W * option error;
  Unmarshal : value -> list byte -> list byte * value * option error
}.

(** The [Union] interface: [Select] on a receiver and the selector. *)
Record Union : Set := {
  Select : value -> Value -> option type * option error
}.

(** What the engine asks the run-time type information of the program:
    [t.Implements(customMarshallerType)] with the implementation,
    [t.Implements(unionType)] with the implementation, and the
    conversion rules [ConvertibleTo] and [Convert] ([Convert d from to]
    is the data of [d.Convert(to)] for [d] of type [from]). *)
Record Runtime : Type := {
  customMarshallerImpl : type -> option CustomMarshaller;
  unionImpl : type -> option Union;
  ConvertibleTo : type -> type -> bool;
  Convert : value -> type -> type -> value
}.

Definition rawBytesType : type := TSlice "RawBytes" (TBasic "uint8" reflect.Uint8).

Definition isValidUnionContainer (t : type) : bool :=
  if negb (Kind_eqb (TypeKind t) reflect.Struct) then false else true.

Definition isSizedBuffer (t : type) : bool :=
  if negb (Kind_eqb (TypeKind t) reflect.Slice) then false
  else Kind_eqb (TypeKind (TypeElem t)) reflect.Uint8.

(** The outcome of a call that writes to [S]: [None] when the fuel ran
    out, else the state of the writer and the returned error. *)
Definition result (S : Type) : Type := option (S * option error).

(** [binary.Write(buf, binary.BigEndian, data)] for [data] of type [t]. *)
Definition binaryWrite {W : Type} {Wr : Writer W} (buf : W) (t : type) (d : value)
  : W * option error :=
  match binarySize (TypeKind t), d with
  | Some sz, VScalar x => Write buf (encodeScalar (TypeKind t) sz x)
  | _, _ => (buf, Some (Errorf "binary.Write: invalid type %s" [AType t]))
  end.

(** [tmpBuf.WriteTo(buf)]: one [Write] unless the buffer is empty. *)
Definition WriteTo {W : Type} {Wr : Writer W} (tmpBuf : bytesBuffer) (buf : W)
  : W * option error :=
  match tmpBuf with
  | [] => (buf, None)
  | _ => Write buf tmpBuf
  end.

Section Codec.

Variable rt : Runtime.

Definition Implements_CustomMarshaller (t : type) : bool :=
  match customMarshallerImpl rt t with Some _ => true | None => false end.

Definition Implements_Union (t : type) : bool :=
  match unionImpl rt t with Some _ => true | None => false end.

Definition isUnion (t : type) : bool :=
  if negb (Kind_eqb (TypeKind t) reflect.Struct) then false
  else if negb (Implements_Union t) then false
  else if negb (TypeNumField t =? 1)%nat then false
  else if negb (Kind_eqb (TypeKind (fieldType (TypeField t 0))) reflect.Interface) then true
  else (TypeNumMethod (fieldType (TypeField t 0)) =? 0)%nat.

Definition hasCustomMarshallerImpl (t : type) : bool :=
  let t := if negb (Kind_eqb (TypeKind t) reflect.Ptr) then PtrTo t else t in
  Implements_CustomMarshaller t.

(** [val.Addr()] of an addressable value. *)
Definition Addr (val : Value) : Value :=
  mkValue (PtrTo (vType val)) (VPtr (vData val)) false.

(** [u.Interface().(Union).Select(selectorVal)]; the type assertion
    panics when the type has no such method. *)
Definition callSelect (u selectorVal : Value) : option type * option error :=
  match unionImpl rt (vType u) with
  | Some impl => Select impl (vData u) selectorVal
  | None => (None, Some (panic "interface conversion: not a Union"))
  end.

(** *** The marshal engine *)

Section MarshalBody.

(** The recursive call, at one unit of fuel less. *)
Variable marshalValue :
  forall W : Type, Writer W -> W -> Value -> option muContext -> result W.

Context {W : Type} {Wr : Writer W}.

Definition marshalPtr (buf : W) (ptr : Value) (ctx : muContext) : result W :=
  if IsNil ptr then
    if sized (options ctx) && Kind_eqb (TypeKind (TypeElem (vType ptr))) reflect.Struct then
      (* the error of a failed write is built and dropped *)
      let '(buf', _) := Write buf (be_bytes 2 (uint16 0)) in
      Some (buf', None)
    else
      marshalValue W Wr buf (ZeroValue (TypeElem (vType ptr))) (Some (beginPtrElemCtx ctx ptr))
  else
    marshalValue W Wr buf (Elem ptr) (Some (beginPtrElemCtx ctx ptr)).

Definition marshalUnion (buf : W) (u : Value) (ctx : muContext) : result W :=
  match container ctx with
  | None => Some (buf, Some (errorString "not inside a container"))
  | Some c =>
    if negb (isValidUnionContainer (vType c)) then
      Some (buf, Some (errorString "not inside a valid union container"))
    else if String.eqb (selector (options ctx)) "" then
      Some (buf, Some (errorString "no selector member defined in container"))
    else
      match FieldByName c (selector (options ctx)) with
      | None =>
          Some (buf, Some (Errorf "invalid selector member name %s"
                             [AString (selector (options ctx))]))
      | Some selectorVal =>
        match callSelect u selectorVal with
        | (_, Some err) =>
            Some (buf, Some (Errorf "cannot select union data type: %v" [AErr err]))
        | (None, None) => Some (buf, None)
        | (Some selectedType, None) =>
          let f := Field u 0 in
          let d :=
            if Kind_eqb (TypeKind (fieldType (TypeField (vType u) 0))) reflect.Interface then
              if IsNil f then ZeroValue selectedType else Elem f
            else f in
          if negb (type_eqb (vType d) selectedType) then
            if negb (ConvertibleTo rt (vType d) selectedType) then
              Some (buf, Some (Errorf "data has incorrect type %s (expected %s)"
                                 [AType (vType d); AType selectedType]))
            else
              marshalValue W Wr buf
                (mkValue selectedType (Convert rt (vData d) (vType d) selectedType) false)
                (Some (beginUnionDataCtx ctx u))
          else
            marshalValue W Wr buf d (Some (beginUnionDataCtx ctx u))
        end
      end
  end.

(** The loop over the fields, from the indices still to do. *)
Fixpoint marshalFields (buf : W) (s : Value) (ctx : muContext) (idx : list nat)
  : result W :=
  match idx with
  | [] => Some (buf, None)
  | i :: rest =>
      match marshalValue W Wr buf (Field s i) (Some (beginStructFieldCtx ctx s i)) with
      | None => None
      | Some (buf', Some err) =>
          Some (buf', Some (Errorf "cannot marshal field %s: %v"
                              [AString (fieldName (TypeField (vType s) i)); AErr err]))
      | Some (buf', None) => marshalFields buf' s ctx rest
      end
  end.

Definition marshalStruct (buf : W) (s : Value) (ctx : muContext) : result W :=
  if sized (options ctx) && isUnion (vType s) then
    Some (buf, Some (errorString "cannot be both sized and a union"))
  else if sized (options ctx) && negb (arrivedFromPointer ctx s) then
    match container ctx with
    | Some c =>
        Some (buf, Some (Errorf
          "sized struct inside container type %s is not referenced via a pointer"
          [AType (vType c)]))
    | None => Some (buf, Some (panic "call of reflect.Value.Type on zero Value"))
    end
  else if sized (options ctx) then
    match marshalValue bytesBuffer bytesBuffer_Writer [] s
                       (Some (beginSizedStructCtx ctx s)) with
    | None => None
    | Some (_, Some err) =>
        Some (buf, Some (Errorf "cannot marshal sized struct: %v" [AErr err]))
    | Some (tmpBuf, None) =>
        match Write buf (be_bytes 2 (uint16 (Z.of_nat (List.length tmpBuf)))) with
        | (buf', Some err) =>
            Some (buf', Some (Errorf
              "cannot write size of sized struct to output buffer: %v" [AErr err]))
        | (buf', None) =>
            match WriteTo tmpBuf buf' with
            | (buf'', Some err) =>
                Some (buf'', Some (Errorf
                  "cannot write marshalled sized struct to output buffer: %v" [AErr err]))
            | (buf'', None) => Some (buf'', None)
            end
        end
    end
  else if isUnion (vType s) then
    match marshalUnion buf s ctx with
    | None => None
    | Some (buf', Some err) =>
        Some (buf', Some (Errorf "error marshalling union struct: %v" [AErr err]))
    | Some (buf', None) => Some (buf', None)
    end
  else
    marshalFields buf s ctx (seq 0 (NumField s)).

(** The loop over the elements, from the indices still to do. *)
Fixpoint marshalElems (buf : W) (slice : Value) (ctx : muContext) (idx : list nat)
  : result W :=
  match idx with
  | [] => Some (buf, None)
  | i :: rest =>
      match marshalValue W Wr buf (Index slice i) (Some (beginSliceElemCtx ctx slice)) with
      | None => None
      | Some (buf', Some err) =>
          Some (buf', Some (Errorf "cannot marshal value at index %d: %v"
                              [AInt (Z.of_nat i); AErr err]))
      | Some (buf', None) => marshalElems buf' slice ctx rest
      end
  end.

Definition marshalSlice (buf : W) (slice : Value) (ctx : muContext) : result W :=
  if type_eqb (vType slice) rawBytesType then
    match Write buf (Bytes slice) with
    | (buf', Some err) =>
        Some (buf', Some (Errorf
          "cannot write byte slice directly to output buffer: %v" [AErr err]))
    | (buf', None) => Some (buf', None)
    end
  else
    let sizeField : W * option error :=
      if raw (options ctx) then (buf, None)
      else if isSizedBuffer (vType slice) then
        match Write buf (be_bytes 2 (uint16 (Z.of_nat (Len slice)))) with
        | (buf', Some err) =>
            (buf', Some (Errorf "cannot write size of sized buffer: %v" [AErr err]))
        | r => r
        end
      else
        match Write buf (be_bytes 4 (uint32 (Z.of_nat (Len slice)))) with
        | (buf', Some err) =>
            (buf', Some (Errorf "cannot write size of list: %v" [AErr err]))
        | r => r
        end in
    match sizeField with
    | (buf', Some err) => Some (buf', Some err)
    | (buf', None) => marshalElems buf' slice ctx (seq 0 (Len slice))
    end.

Definition wrapError (r : result W) (format : string) (t : type) : result W :=
  match r with
  | Some (buf', Some err) => Some (buf', Some (Errorf format [AType t; AErr err]))
  | _ => r
  end.

(** [val.Interface().(CustomMarshaller).Marshal(buf)] for a non-nil
    pointer [val]; [origVal] is the value the engine was given. *)
Definition callMarshal (buf : W) (origVal val : Value) : result W :=
  match customMarshallerImpl rt (vType val) with
  | None => Some (buf, Some (panic "interface conversion: not a CustomMarshaller"))
  | Some impl =>
      match Marshal impl (vData (Elem val)) W Wr buf with
      | (buf', Some err) =>
          Some (buf', Some (Errorf "cannot marshal type %s with custom marshaller: %v"
                              [AType (vType origVal); AErr err]))
      | (buf', None) => Some (buf', None)
      end
  end.

Definition marshalValue_body (buf : W) (val : Value) (ctx : option muContext)
  : result W :=
  if hasCustomMarshallerImpl (vType val) then
    if negb (Kind_eqb (ValueKind val) reflect.Ptr) && negb (CanAddr val) then
      Some (buf, Some (Errorf
        "cannot marshal non-addressable non-pointer type %s with custom marshaller"
        [AType (vType val)]))
    else if negb (Kind_eqb (ValueKind val) reflect.Ptr) then
      callMarshal buf val (Addr val)
    else if IsNil val then
      Some (buf, Some (Errorf
        "cannot marshal nil pointer type %s with custom marshaller" [AType (vType val)]))
    else
      callMarshal buf val val
  else
    let ctx := entered ctx in
    match ValueKind val with
    | reflect.Ptr =>
        wrapError (marshalPtr buf val ctx) "cannot marshal pointer type %s: %v" (vType val)
    | reflect.Struct =>
        wrapError (marshalStruct buf val ctx) "cannot marshal struct type %s: %v" (vType val)
    | reflect.Slice =>
        wrapError (marshalSlice buf val ctx) "cannot marshal slice type %s: %v" (vType val)
    | reflect.Array | reflect.Chan | reflect.Func | reflect.Interface | reflect.Map
    | reflect.UnsafePointer =>
        Some (buf, Some (Errorf "cannot marshal type %s: unsupported kind %s"
                           [AType (vType val); AKind (ValueKind val)]))
    | _ =>
        match binaryWrite buf (vType val) (vData val) with
        | (buf', Some err) =>
            Some (buf', Some (Errorf "cannot marshal type %s: write to buffer failed: %v"
                                [AType (vType val); AErr err]))
        | (buf', None) => Some (buf', None)
        end
    end.

End MarshalBody.

Fixpoint marshalValue (fuel : nat) (W : Type) (Wr : Writer W)
  (buf : W) (val : Value) (ctx : option muContext) {struct fuel} : result W :=
  match fuel with
  | O => None
  | S fuel' => marshalValue_body (marshalValue fuel') buf val ctx
  end.

(** [reflect.ValueOf(val)] of a non-nil [interface{}] argument. *)
Definition ValueOf (val : type * value) : Value := mkValue (fst val) (snd val) false.

Fixpoint MarshalToWriter (fuel : nat) {W : Type} {Wr : Writer W}
  (buf : W) (vals : list (option (type * value))) : result W :=
  match vals with
  | [] => Some (buf, None)
  | None :: _ => Some (buf, Some (panic "call of reflect.Value.Type on zero Value"))
  | Some val :: rest =>
      match marshalValue fuel W Wr buf (ValueOf val) None with
      | None => None
      | Some (buf', Some err) => Some (buf', Some err)
      | Some (buf', None) => MarshalToWriter fuel buf' rest
      end
  end.

(** [MarshalToBytes]: [None] out of fuel, else the bytes (nil on error)
    and the error. *)
Definition MarshalToBytes (fuel : nat) (vals : list (option (type * value)))
  : option (list byte * option error) :=
  match MarshalToWriter fuel (W := bytesBuffer) [] vals with
  | None => None
  | Some (_, Some err) => Some ([], Some err)
  | Some (buf, None) => Some (buf, None)
  end.

(** *** The unmarshal engine *)

(** The outcome of a call that decodes into a destination: [None] when
    the fuel ran out, else the rest of the reader, the data the
    destination now holds, and the returned error. *)
Definition uresult : Type := option (list byte * value * option error).

(** The size of a sized struct: the rest of the reader, the limit of
    the [io.LimitReader] (none for size 0) and the error. *)
Definition makeSizedStructReader (buf : list byte)
  : list byte * option nat * option error :=
  match ReadFull buf 2 with
  | (buf', _, Some err) =>
      (buf', None, Some (Errorf "cannot read size of sized struct: %v" [AErr err]))
  | (buf', bs, None) =>
      if be_value bs =? 0 then (buf', None, None)
      else (buf', Some (Z.to_nat (be_value bs)), None)
  end.

(** [binary.Read(buf, binary.BigEndian, val.Addr().Interface())]. *)
Definition binaryRead (buf : list byte) (t : type) (old : value)
  : list byte * value * option error :=
  match binarySize (TypeKind t) with
  | None => (buf, old, Some (Errorf "binary.Read: invalid type %s" [AType (PtrTo t)]))
  | Some sz =>
      match ReadFull buf sz with
      | (buf', _, Some err) => (buf', old, Some err)
      | (buf', bs, None) => (buf', VScalar (decodeScalar (TypeKind t) bs), None)
      end
  end.

Fixpoint updateNth (i : nat) (d : value) (l : list value) : list value :=
  match i, l with
  | O, _ :: r => d :: r
  | S i', x :: r => x :: updateNth i' d r
  | _, [] => []
  end.

Section UnmarshalBody.

Variable unmarshalValue : list byte -> Value -> option muContext -> uresult.

(** The pointee is read through the limited view [srcBuf] of the
    reader; [outside] is what lies beyond the view. *)
Definition unmarshalPtrElem (srcBuf outside : list byte) (ptr : Value) (ctx : muContext)
  : uresult :=
  if IsNil ptr && negb (CanSet ptr) then
    Some (srcBuf ++ outside, vData ptr, Some (errorString "cannot set pointer"))
  else
    let ptr' :=
      if IsNil ptr
      then mkValue (vType ptr) (VPtr (Zero (TypeElem (vType ptr)))) (CanAddr ptr)
      else ptr in
    match unmarshalValue srcBuf (Elem ptr') (Some (beginPtrElemCtx ctx ptr')) with
    | None => None
    | Some (srcBuf', d, err) => Some (srcBuf' ++ outside, VPtr d, err)
    end.

Definition unmarshalPtr (buf : list byte) (ptr : Value) (ctx : muContext) : uresult :=
  if sized (options ctx) && Kind_eqb (TypeKind (TypeElem (vType ptr))) reflect.Struct then
    match makeSizedStructReader buf with
    | (buf', _, Some err) => Some (buf', vData ptr, Some err)
    | (buf', None, None) => Some (buf', vData ptr, None)
    | (buf', Some n, None) => unmarshalPtrElem (firstn n buf') (skipn n buf') ptr ctx
    end
  else unmarshalPtrElem buf [] ptr ctx.

Definition unmarshalUnion (buf : list byte) (u : Value) (ctx : muContext) : uresult :=
  match container ctx with
  | None => Some (buf, vData u, Some (errorString "not inside a container"))
  | Some c =>
    if negb (isValidUnionContainer (vType c)) then
      Some (buf, vData u, Some (errorString "not inside a valid union container"))
    else if String.eqb (selector (options ctx)) "" then
      Some (buf, vData u, Some (errorString "no selector member defined in container"))
    else
      match FieldByName c (selector (options ctx)) with
      | None =>
          Some (buf, vData u, Some (Errorf "invalid selector member name %s"
                                      [AString (selector (options ctx))]))
      | Some selectorVal =>
        match callSelect u selectorVal with
        | (_, Some err) =>
            Some (buf, vData u,
                  Some (Errorf "cannot select union data type: %v" [AErr err]))
        | (None, None) => Some (buf, vData u, None)
        | (Some selectedType, None) =>
          let f := Field u 0 in
          let fieldIsInterface :=
            Kind_eqb (TypeKind (fieldType (TypeField (vType u) 0))) reflect.Interface in
          if fieldIsInterface && IsNil f && negb (CanSet f) then
            Some (buf, vData u, Some (errorString "cannot set data"))
          else
            let d :=
              if fieldIsInterface then
                if IsNil f then NewElem selectedType else Elem f
              else f in
            match unmarshalValue buf d (Some (beginUnionDataCtx ctx u)) with
            | None => None
            | Some (buf', d', Some err) =>
                Some (buf',
                      (if fieldIsInterface then
                         if IsNil f then vData u else VStruct [VIface (vType d) d']
                       else VStruct [d']),
                      Some (Errorf "cannot unmarshal data value: %v" [AErr err]))
            | Some (buf', d', None) =>
                Some (buf',
                      VStruct [if fieldIsInterface then VIface (vType d) d' else d'],
                      None)
            end
        end
      end
  end.

(** The loop over the fields; [s] is the struct as decoded so far. *)
Fixpoint unmarshalFields (buf : list byte) (s : Value) (ctx : muContext) (idx : list nat)
  : uresult :=
  match idx with
  | [] => Some (buf, vData s, None)
  | i :: rest =>
      match unmarshalValue buf (Field s i) (Some (beginStructFieldCtx ctx s i)) with
      | None => None
      | Some (buf', d, err) =>
          let s' := mkValue (vType s) (VStruct (updateNth i d (structData (vData s))))
                            (CanAddr s) in
          match err with
          | Some e =>
              Some (buf', vData s',
                    Some (Errorf "cannot unmarshal field %s: %v"
                            [AString (fieldName (TypeField (vType s) i)); AErr e]))
          | None => unmarshalFields buf' s' ctx rest
          end
      end
  end.

Definition unmarshalStruct (buf : list byte) (s : Value) (ctx : muContext) : uresult :=
  if sized (options ctx) && negb (arrivedFromPointer ctx s) then
    match container ctx with
    | Some c =>
        Some (buf, vData s, Some (Errorf
          "sized struct inside container type %s is not referenced via a pointer"
          [AType (vType c)]))
    | None => Some (buf, vData s, Some (panic "call of reflect.Value.Type on zero Value"))
    end
  else if isUnion (vType s) then
    match unmarshalUnion buf s ctx with
    | None => None
    | Some (buf', d, Some err) =>
        Some (buf', d, Some (Errorf "error unmarshalling union struct: %v" [AErr err]))
    | Some (buf', d, None) => Some (buf', d, None)
    end
  else
    unmarshalFields buf s ctx (seq 0 (NumField s)).

(** The loop over the elements; [slice] is the slice as decoded so far. *)
Fixpoint unmarshalElems (buf : list byte) (slice : Value) (ctx : muContext)
  (idx : list nat) : uresult :=
  match idx with
  | [] => Some (buf, vData slice, None)
  | i :: rest =>
      match unmarshalValue buf (Index slice i) (Some (beginSliceElemCtx ctx slice)) with
      | None => None
      | Some (buf', d, err) =>
          let slice' := mkValue (vType slice)
                          (VSlice (updateNth i d (sliceData (vData slice))))
                          (CanAddr slice) in
          match err with
          | Some e =>
              Some (buf', vData slice',
                    Some (Errorf "cannot unmarshal value at index %d: %v"
                            [AInt (Z.of_nat i); AErr e]))
          | None => unmarshalElems buf' slice' ctx rest
          end
      end
  end.

(** [io.ReadFull(buf, slice.Bytes())]: the bytes read overwrite the
    front of the slice. *)
Definition readIntoBytes (bs : list byte) (old : list value) : value :=
  VSlice (map (fun b => VScalar (byte.unsigned b)) bs ++ skipn (List.length bs) old).

Definition unmarshalSlice (buf : list byte) (slice : Value) (ctx : muContext) : uresult :=
  if type_eqb (vType slice) rawBytesType then
    if IsNil slice then
      Some (buf, vData slice, Some (errorString "nil raw byte slice"))
    else
      match ReadFull buf (Len slice) with
      | (buf', bs, Some err) =>
          Some (buf', readIntoBytes bs (sliceData (vData slice)),
                Some (Errorf "cannot read byte slice directly from input buffer: %v"
                        [AErr err]))
      | (buf', bs, None) =>
          Some (buf', readIntoBytes bs (sliceData (vData slice)), None)
      end
  else
    let sizeField : list byte * Z * option error :=
      if raw (options ctx) then
        if IsNil slice then (buf, 0, Some (errorString "nil raw slice"))
        else (buf, 0, None)
      else if isSizedBuffer (vType slice) then
        match ReadFull buf 2 with
        | (buf', _, Some err) =>
            (buf', 0, Some (Errorf "cannot read size of sized buffer: %v" [AErr err]))
        | (buf', tmp, None) => (buf', be_value tmp, None)
        end
      else
        match ReadFull buf 4 with
        | (buf', _, Some err) =>
            (buf', 0, Some (Errorf "cannot read size of list: %v" [AErr err]))
        | (buf', tmp, None) => (buf', be_value tmp, None)
        end in
    match sizeField with
    | (buf', _, Some err) => Some (buf', vData slice, Some err)
    | (buf', l, None) =>
        if IsNil slice && negb (CanSet slice) then
          Some (buf', vData slice, Some (errorString "cannot set slice"))
        else
          let slice' :=
            if IsNil slice
            then mkValue (vType slice) (MakeSlice (vType slice) l) (CanAddr slice)
            else slice in
          unmarshalElems buf' slice' ctx (seq 0 (Len slice'))
    end.

(** [val.Interface().(CustomMarshaller).Unmarshal(buf)] for a non-nil
    pointer [val]: the rest of the reader, the new pointee, the error. *)
Definition callUnmarshal (buf : list byte) (origVal val : Value) : uresult :=
  match customMarshallerImpl rt (vType val) with
  | None =>
      Some (buf, vData (Elem val),
            Some (panic "interface conversion: not a CustomMarshaller"))
  | Some impl =>
      match Unmarshal impl (vData (Elem val)) buf with
      | (buf', d, Some err) =>
          Some (buf', d, Some (Errorf "cannot unmarshal type %s with custom marshaller: %v"
                                 [AType (vType origVal); AErr err]))
      | (buf', d, None) => Some (buf', d, None)
      end
  end.

Definition uwrapError (r : uresult) (format : string) (t : type) : uresult :=
  match r with
  | Some (buf', d, Some err) => Some (buf', d, Some (Errorf format [AType t; AErr err]))
  | _ => r
  end.

Definition unmarshalValue_body (buf : list byte) (val : Value) (ctx : option muContext)
  : uresult :=
  if hasCustomMarshallerImpl (vType val) then
    if negb (Kind_eqb (ValueKind val) reflect.Ptr) && negb (CanAddr val) then
      Some (buf, vData val, Some (Errorf
        "cannot unmarshal non-addressable non-pointer type %s with custom marshaller"
        [AType (vType val)]))
    else if negb (Kind_eqb (ValueKind val) reflect.Ptr) then
      callUnmarshal buf val (Addr val)
    else if IsNil val && negb (CanSet val) then
      Some (buf, vData val,
            Some (panic "reflect.Value.Set using unaddressable value"))
    else
      let val' :=
        if IsNil val
        then mkValue (vType val) (VPtr (Zero (TypeElem (vType val)))) (CanAddr val)
        else val in
      match callUnmarshal buf val val' with
      | None => None
      | Some (buf', d, err) => Some (buf', VPtr d, err)
      end
  else
    let ctx := entered ctx in
    match ValueKind val with
    | reflect.Ptr =>
        uwrapError (unmarshalPtr buf val ctx)
                   "cannot unmarshal pointer type %s: %v" (vType val)
    | reflect.Struct =>
        uwrapError (unmarshalStruct buf val ctx)
                   "cannot unmarshal struct type %s: %v" (vType val)
    | reflect.Slice =>
        uwrapError (unmarshalSlice buf val ctx)
                   "cannot unmarshal slice type %s: %v" (vType val)
    | reflect.Array | reflect.Chan | reflect.Func | reflect.Interface | reflect.Map
    | reflect.UnsafePointer =>
        Some (buf, vData val,
              Some (Errorf "cannot unmarshal type %s: unsupported kind %s"
                      [AType (vType val); AKind (ValueKind val)]))
    | _ =>
        if negb (CanAddr val) then
          Some (buf, vData val,
                Some (Errorf "cannot unmarshal non-addressable type %s" [AType (vType val)]))
        else
          match binaryRead buf (vType val) (vData val) with
          | (buf', d, Some err) =>
              Some (buf', d,
                    Some (Errorf "cannot unmarshal type %s: read from buffer failed: %v"
                            [AType (vType val); AErr err]))
          | (buf', d, None) => Some (buf', d, None)
          end
    end.

End UnmarshalBody.

Fixpoint unmarshalValue (fuel : nat) (buf : list byte) (val : Value)
  (ctx : option muContext) {struct fuel} : uresult :=
  match fuel with
  | O => None
  | S fuel' => unmarshalValue_body (unmarshalValue fuel') buf val ctx
  end.

(** [UnmarshalFromReader] on the byte reader: [None] out of fuel, else
    the rest of the reader, the arguments with what their pointers now
    refer to, and the error. *)
Fixpoint UnmarshalFromReader (fuel : nat) (buf : list byte)
  (vals : list (option (type * value)))
  : option (list byte * list (option (type * value)) * option error) :=
  match vals with
  | [] => Some (buf, [], None)
  | None :: rest =>
      Some (buf, vals, Some (panic "call of reflect.Value.Type on zero Value"))
  | Some val :: rest =>
      let v := ValueOf val in
      if negb (Kind_eqb (ValueKind v) reflect.Ptr) then
        Some (buf, vals,
              Some (Errorf "cannot unmarshal to non-pointer type %s" [AType (vType v)]))
      else if IsNil v then
        Some (buf, vals,
              Some (Errorf "cannot unmarshal to nil pointer of type %s" [AType (vType v)]))
      else
        match unmarshalValue fuel buf (Elem v) None with
        | None => None
        | Some (buf', d, Some err) =>
            Some (buf', Some (vType v, VPtr d) :: rest, Some err)
        | Some (buf', d, None) =>
            match UnmarshalFromReader fuel buf' rest with
            | None => None
            | Some (buf'', rest', err) =>
                Some (buf'', Some (vType v, VPtr d) :: rest', err)
            end
        end
  end.

(** [UnmarshalFromBytes]: the arguments after the call, the number of
    bytes consumed (0 on error) and the error. *)
Definition UnmarshalFromBytes (fuel : nat) (b : list byte)
  (vals : list (option (type * value)))
  : option (list (option (type * value)) * Z * option error) :=
  match UnmarshalFromReader fuel b vals with
  | None => None
  | Some (_, vals', Some err) => Some (vals', 0, Some err)
  | Some (buf, vals', None) =>
      Some (vals', Z.of_nat (List.length b) - Z.of_nat (List.length buf), None)
  end.

End Codec.

(** ** Fuel *)

(** The type of the recursive call of the marshal engine, and the order
    "every call that returns under [f] returns the same under [g]". *)
Definition mcallback : Type :=
  forall W : Type, Writer W -> W -> Value -> option muContext -> result W.

Definition mrefines (f g : mcallback) : Prop :=
  forall W Wr buf val ctx r, f W Wr buf val ctx = Some r -> g W Wr buf val ctx = Some r.

Definition ucallback : Type := list byte -> Value -> option muContext -> uresult.

Definition urefines (f g : ucallback) : Prop :=
  forall buf val ctx r, f buf val ctx = Some r -> g buf val ctx = Some r.

(** ** Names for what the claims speak of *)

(** The value [d] that marshalUnion takes out of the union [u] once the
    variant [selectedType] is resolved: the stored field, or what the
    interface holds, or the zero of the variant for a nil interface. *)
Definition storedData (u : Value) (selectedType : type) : Value :=
  let f := Field u 0 in
  if Kind_eqb (TypeKind (fieldType (TypeField (vType u) 0))) reflect.Interface then
    if IsNil f then ZeroValue selectedType else Elem f
  else f.

(** The errors marshalValue returns for a failure inside a union struct
    of type [t], and inside a struct of type [t]. *)
Definition structError (t : type) (e : error) : error :=
  Errorf "cannot marshal struct type %s: %v" [AType t; AErr e].

Definition unionError (t : type) (e : error) : error :=
  structError t (Errorf "error marshalling union struct: %v" [AErr e]).

(** [marshalsTo rt val ctx b]: marshalValue, given enough fuel, returns
    no error and appends exactly [b] to any [bytes.Buffer]. *)
Definition marshalsTo (rt : Runtime) (val : Value) (ctx : option muContext)
  (b : list byte) : Prop :=
  exists n, forall w : bytesBuffer,
    marshalValue rt n bytesBuffer bytesBuffer_Writer w val ctx = Some (w ++ b, None).

(** [unmarshalsFrom rt b val ctx d]: unmarshalValue, given enough fuel,
    returns no error, reads exactly [b] from the front of any reader
    and leaves [d] in the destination [val]. *)
Definition unmarshalsFrom (rt : Runtime) (b : list byte) (val : Value)
  (ctx : option muContext) (d : value) : Prop :=
  exists n, forall rest : list byte,
    unmarshalValue rt n (b ++ rest) val ctx = Some (rest, d, None).

Definition isScalar (d : value) : bool :=
  match d with
  | VScalar _ => true
  | _ => false
  end.

(** The size field marshalSlice writes in front of [n] elements of a
    slice of type [t] that is not the raw byte type. *)
Definition sizeField (opts : muOptions) (t : type) (n : nat) : list byte :=
  if raw opts then []
  else if isSizedBuffer t then be_bytes 2 (uint16 (Z.of_nat n))
  else be_bytes 4 (uint32 (Z.of_nat n)).

(** The context in which marshalStruct marshals the payload of the sized
    struct behind the pointer [ptr], itself marshalled in [ctx]. *)
Definition payloadCtx (ctx : muContext) (ptr : Value) : muContext :=
  beginSizedStructCtx (incDepth (beginPtrElemCtx (incDepth ctx) ptr)) (Elem ptr).

(** ** Values that survive a round trip *)

(** The range of a scalar of kind [k]: 0 or 1 for a bool, the signed
    range for the signed kinds, and the unsigned range of the bit
    pattern for the others. *)
Definition scalarInRange (k : Kind) (x : Z) : Prop :=
  match k with
  | reflect.Bool => 0 <= x < 2
  | _ =>
      match binarySize k with
      | Some sz =>
          if isSigned k
          then - 2 ^ (8 * Z.of_nat sz - 1) <= x < 2 ^ (8 * Z.of_nat sz - 1)
          else 0 <= x < 2 ^ (8 * Z.of_nat sz)
      | None => False
      end
  end.

(** A context, once entered, has this container, parent type and
    options; its depth is free. *)
Definition ctxMatches (ctx : option muContext) (c : option Value) (p : option type)
  (o : muOptions) : Prop :=
  container (entered ctx) = c /\ parentType (entered ctx) = p
  /\ options (entered ctx) = o.

(** The destination of the pointee of a destination pointer [d]: a
    fresh zero when [d] is nil, else what [d] points to. *)
Definition pointeeDest (e : type) (d d' : value) : Prop :=
  (d = VNilPtr /\ d' = Zero e) \/ d = VPtr d'.

(** The destinations of the [n] elements of a destination slice [d]:
    fresh zeros when [d] is nil, else the elements of [d]. *)
Definition elemsDest (e : type) (n : nat) (d : value) (ds : list value) : Prop :=
  (d = VNilSlice /\ ds = repeat (Zero e) n) \/ (d = VSlice ds /\ List.length ds = n).

(** The union [u], in a context with container [cont] and options [o],
    resolves to the variant [r] without error. *)
Definition selects (rt : Runtime) (cont : option Value) (o : muOptions) (u : Value)
  (r : option type) : Prop :=
  exists c sv,
    cont = Some c /\ TypeKind (vType c) = reflect.Struct /\ selector o <> ""
    /\ FieldByName c (selector o) = Some sv /\ callSelect rt u sv = (r, None).

Definition unsized (o : muOptions) : muOptions :=
  mkOptions (selector o) false (raw o).

Definition isByte (v : value) : Prop := exists x, v = VScalar x /\ 0 <= x < 256.

(** [RoundTrip rt a cm cu p o t v d]: the value [v] of type [t]
    ([a]: whether the engine sees it as addressable) survives
    marshalling in a context with container [cm], parent type [p] and
    options [o], followed by unmarshalling into a destination of type
    [t] that holds [d], in a context with container [cu] and the same
    parent type and options.  One rule per classification of the
    engine; the destination is a zero value in which the buffers the
    engine does not allocate (the raw byte type, slices under the [raw]
    option) already have the length of the source, or any destination
    the engine decodes in place. *)
Inductive RoundTrip (rt : Runtime) :
  bool -> option Value -> option Value -> option type -> muOptions ->
  type -> value -> value -> Prop :=
| RT_scalar a cm cu p o t x d sz :
    hasCustomMarshallerImpl rt t = false ->
    binarySize (TypeKind t) = Some sz ->
    scalarInRange (TypeKind t) x ->
    RoundTrip rt a cm cu p o t (VScalar x) d
| RT_ptr a cm cu p o e v d d' :
    hasCustomMarshallerImpl rt (TPtr e) = false ->
    sized o && Kind_eqb (TypeKind e) reflect.Struct = false ->
    pointeeDest e d d' ->
    RoundTrip rt true cm cu (Some (TPtr e)) o e v d' ->
    RoundTrip rt a cm cu p o (TPtr e) (VPtr v) d
| RT_sized_nil a cm cu p o e :
    hasCustomMarshallerImpl rt (TPtr e) = false ->
    TypeKind e = reflect.Struct ->
    sized o = true ->
    RoundTrip rt a cm cu p o (TPtr e) VNilPtr VNilPtr
| RT_sized_ptr a cm cu p o e v d d' n payload :
    hasCustomMarshallerImpl rt (TPtr e) = false ->
    TypeKind e = reflect.Struct ->
    isUnion rt e = false ->
    sized o = true ->
    pointeeDest e d d' ->
    RoundTrip rt true cm cu (Some e) (unsized o) e v d' ->
    marshalValue rt n bytesBuffer bytesBuffer_Writer [] (mkValue e v true)
      (Some (mkContext 0 cm (Some e) (unsized o))) = Some (payload, None) ->
    0 < Z.of_nat (List.length payload) < 2 ^ 16 ->
    RoundTrip rt a cm cu p o (TPtr e) (VPtr v) d
| RT_struct a cm cu p o name fields vs ds :
    hasCustomMarshallerImpl rt (TStruct name fields) = false ->
    isUnion rt (TStruct name fields) = false ->
    sized o = false ->
    List.length vs = List.length fields ->
    List.length ds = List.length fields ->
    (forall i f vi di,
        nth_error fields i = Some f ->
        nth_error vs i = Some vi ->
        nth_error ds i = Some di ->
        RoundTrip rt a
          (Some (mkValue (TStruct name fields) (VStruct vs) a))
          (Some (mkValue (TStruct name fields) (VStruct (firstn i vs ++ skipn i ds)) true))
          (Some (TStruct name fields)) (parseFieldOptions (fieldTag f))
          (fieldType f) vi di) ->
    RoundTrip rt a cm cu p o (TStruct name fields) (VStruct vs) (VStruct ds)
| RT_union_nodata a cm cu p o t v :
    isUnion rt t = true ->
    hasCustomMarshallerImpl rt t = false ->
    sized o = false ->
    selects rt cm o (mkValue t v a) None ->
    selects rt cu o (mkValue t v true) None ->
    RoundTrip rt a cm cu p o t v v
| RT_union_iface a cm cu p o name fname iname tag st x :
    isUnion rt (TStruct name [mkField fname (TInterface iname 0) tag]) = true ->
    hasCustomMarshallerImpl rt (TStruct name [mkField fname (TInterface iname 0) tag])
      = false ->
    sized o = false ->
    selects rt cm o
      (mkValue (TStruct name [mkField fname (TInterface iname 0) tag])
               (VStruct [VIface st x]) a) (Some st) ->
    selects rt cu o
      (mkValue (TStruct name [mkField fname (TInterface iname 0) tag])
               (VStruct [VNilIface]) true) (Some st) ->
    RoundTrip rt false
      (Some (mkValue (TStruct name [mkField fname (TInterface iname 0) tag])
                     (VStruct [VIface st x]) a))
      (Some (mkValue (TStruct name [mkField fname (TInterface iname 0) tag])
                     (VStruct [VNilIface]) true))
      (Some (TStruct name [mkField fname (TInterface iname 0) tag])) noOptions
      st x (Zero st) ->
    RoundTrip rt a cm cu p o (TStruct name [mkField fname (TInterface iname 0) tag])
      (VStruct [VIface st x]) (VStruct [VNilIface])
| RT_union_field a cm cu p o name fname ft tag x dx :
    isUnion rt (TStruct name [mkField fname ft tag]) = true ->
    hasCustomMarshallerImpl rt (TStruct name [mkField fname ft tag]) = false ->
    sized o = false ->
    TypeKind ft <> reflect.Interface ->
    selects rt cm o (mkValue (TStruct name [mkField fname ft tag]) (VStruct [x]) a)
      (Some ft) ->
    selects rt cu o (mkValue (TStruct name [mkField fname ft tag]) (VStruct [dx]) true)
      (Some ft) ->
    RoundTrip rt a
      (Some (mkValue (TStruct name [mkField fname ft tag]) (VStruct [x]) a))
      (Some (mkValue (TStruct name [mkField fname ft tag]) (VStruct [dx]) true))
      (Some (TStruct name [mkField fname ft tag])) noOptions ft x dx ->
    RoundTrip rt a cm cu p o (TStruct name [mkField fname ft tag])
      (VStruct [x]) (VStruct [dx])
| RT_slice a cm cu p o name e vs d ds :
    hasCustomMarshallerImpl rt (TSlice name e) = false ->
    TSlice name e <> rawBytesType ->
    (if raw o then d = VSlice ds /\ List.length ds = List.length vs
     else elemsDest e (List.length vs) d ds
          /\ Z.of_nat (List.length vs)
             < (if isSizedBuffer (TSlice name e) then 2 ^ 16 else 2 ^ 32)) ->
    (forall i vi di,
        nth_error vs i = Some vi ->
        nth_error ds i = Some di ->
        RoundTrip rt true
          (Some (mkValue (TSlice name e) (VSlice vs) a))
          (Some (mkValue (TSlice name e) (VSlice (firstn i vs ++ skipn i ds)) true))
          (Some (TSlice name e)) noOptions e vi di) ->
    RoundTrip rt a cm cu p o (TSlice name e) (VSlice vs) d
| RT_raw_bytes a cm cu p o vs ds :
    hasCustomMarshallerImpl rt rawBytesType = false ->
    Forall isByte vs ->
    List.length ds = List.length vs ->
    RoundTrip rt a cm cu p o rawBytesType (VSlice vs) (VSlice ds)
| RT_custom cm cu p o t impl v d enc :
    TypeKind t <> reflect.Ptr ->
    customMarshallerImpl rt (TPtr t) = Some impl ->
    (forall w : bytesBuffer,
        Marshal impl v bytesBuffer bytesBuffer_Writer w = (w ++ enc, None)) ->
    (forall rest, Unmarshal impl d (enc ++ rest) = (rest, v, None)) ->
    RoundTrip rt true cm cu p o t v d
| RT_custom_ptr a cm cu p o e impl v d d' enc :
    customMarshallerImpl rt (TPtr e) = Some impl ->
    pointeeDest e d d' ->
    (forall w : bytesBuffer,
        Marshal impl v bytesBuffer bytesBuffer_Writer w = (w ++ enc, None)) ->
    (forall rest, Unmarshal impl d' (enc ++ rest) = (rest, v, None)) ->
    RoundTrip rt a cm cu p o (TPtr e) (VPtr v) d.

(** [b] is the wire image through which [v] makes the round trip. *)
Definition RoundTripVia (rt : Runtime) (a : bool) (cm cu : option Value)
  (p : option type) (o : muOptions) (t : type) (v d : value) (b : list byte) : Prop :=
  (forall ctx, ctxMatches ctx cm p o -> marshalsTo rt (mkValue t v a) ctx b)
  /\
  (forall ctx, ctxMatches ctx cu p o -> unmarshalsFrom rt b (mkValue t d true) ctx v).

(** ** A small program to run the engine on *)

Module Examples.

Definition tUint8 : type := TBasic "uint8" reflect.Uint8.
Definition tUint16 : type := TBasic "uint16" reflect.Uint16.
Definition tUint32 : type := TBasic "uint32" reflect.Uint32.

Definition isIntegerKind (k : Kind) : bool :=
  match k with
  | reflect.Int8 | reflect.Int16 | reflect.Int32 | reflect.Int64
  | reflect.Uint8 | reflect.Uint16 | reflect.Uint32 | reflect.Uint64 => true
  | _ => false
  end.

(** Conversions between the fixed-size integer types, as Go defines
    them: the value wraps to the width of the target. *)
Definition convertInteger (x : Z) (to : Kind) : Z :=
  match binarySize to with
  | Some sz =>
      let m := 2 ^ (8 * Z.of_nat sz) in
      let u := x mod m in
      if isSigned to && (m / 2 <=? u) then u - m else u
  | None => x
  end.

Definition exampleConvertibleTo (a b : type) : bool :=
  type_eqb a b ||
  match a, b with
  | TBasic _ ka, TBasic _ kb => isIntegerKind ka && isIntegerKind kb
  | _, _ => false
  end.

Definition exampleConvert (d : value) (from to : type) : value :=
  match d, to with
  | VScalar x, TBasic _ k => if type_eqb from to then d else VScalar (convertInteger x k)
  | _, _ => d
  end.

(** A program without custom marshallers and unions. *)
Definition rt0 : Runtime := {|
  customMarshallerImpl := fun _ => None;
  unionImpl := fun _ => None;
  ConvertibleTo := exampleConvertibleTo;
  Convert := exampleConvert
|}.

(** type TestUnion struct { Data interface{} }, selected by a uint32:
    0 is "no data", 1 a uint32, 2 a uint16, 3 a byte buffer. *)
Definition TestUnion : type := TStruct "TestUnion" [mkField "Data" (TInterface "" 0) ""].

Definition TestUnion_Select (u : value) (selectorVal : Value) : option type * option error :=
  match vData selectorVal with
  | VScalar 0 => (None, None)
  | VScalar 1 => (Some tUint32, None)
  | VScalar 2 => (Some tUint16, None)
  | VScalar 3 => (Some (TSlice "" tUint8), None)
  | d => (None, Some (invalidSelectorError d))
  end.

Definition TestUnionContainer : type :=
  TStruct "TestUnionContainer"
    [mkField "Select" tUint32 ""; mkField "Union" TestUnion "selector:Select"].

(** A container that reaches the union through a pointer and marks the
    field [sized]. *)
Definition TestSizedUnionContainer : type :=
  TStruct "TestSizedUnionContainer"
    [mkField "Select" tUint32 ""; mkField "Union" (TPtr TestUnion) "selector:Select,sized"].

Definition rtU : Runtime := {|
  customMarshallerImpl := fun _ => None;
  unionImpl := fun t => if type_eqb t TestUnion then Some {| Select := TestUnion_Select |}
                        else None;
  ConvertibleTo := exampleConvertibleTo;
  Convert := exampleConvert
|}.

(** A writer every write of which fails. *)
Definition ErrClosedPipe : error := errorString "io: read/write on closed pipe".

Definition closedPipe : Writer unit := fun w _ => (w, Some ErrClosedPipe).

(** type Inner struct { X uint8 }, and a struct whose only field is a
    sized pointer to it. *)
Definition Inner : type := TStruct "Inner" [mkField "X" tUint8 ""].

Definition SizedHolder : type :=
  TStruct "SizedHolder" [mkField "P" (TPtr Inner) "sized"].

(** type Blob struct { Data RawBytes }, a struct whose only field is a
    sized pointer to it, and 65536 zero bytes. *)
Definition Blob : type := TStruct "Blob" [mkField "Data" rawBytesType ""].

Definition BlobHolder : type :=
  TStruct "BlobHolder" [mkField "P" (TPtr Blob) "sized"].

Definition zeros65536 : value := VSlice (repeat (VScalar 0) (Z.to_nat 65536)).

(** A container whose union field is stored by value and marked
    [sized]. *)
Definition TestSizedUnionByValue : type :=
  TStruct "TestSizedUnionByValue"
    [mkField "Select" tUint32 ""; mkField "Union" TestUnion "selector:Select,sized"].

(** Select = 1, then a sized struct of 4 bytes holding the uint32 42. *)
Definition sizedUnionBytes : list byte :=
  [Byte.x00; Byte.x00; Byte.x00; Byte.x01; Byte.x00; Byte.x04;
   Byte.x00; Byte.x00; Byte.x00; Byte.x2a].

Definition sizedUnionValue : value :=
  VStruct [VScalar 1; VPtr (VStruct [VIface tUint32 (VScalar 42)])].

(** type Tagged struct { X uint8 } with a custom codec on *Tagged: a
    magic byte 0xAA, then X. *)
Definition Tagged : type := TStruct "Tagged" [mkField "X" tUint8 ""].

Definition Tagged_Marshal (v : value) (W : Type) (Wr : Writer W) (buf : W)
  : W * option error :=
  Write buf [Byte.xaa; byte.of_Z (scalarData (nth 0 (structData v) VOpaque))].

Definition Tagged_Unmarshal (d : value) (buf : list byte)
  : list byte * value * option error :=
  match ReadFull buf 2 with
  | (buf', _, Some err) => (buf', d, Some err)
  | (buf', [Byte.xaa; x], None) => (buf', VStruct [VScalar (byte.unsigned x)], None)
  | (buf', _, None) => (buf', d, Some (errorString "bad magic"))
  end.

(** type Everything struct {
      Select uint32
      Union  TestUnion  `tpm2:"selector:Select"`
      Buf    []uint8
      List   []uint16
      P      *Inner     `tpm2:"sized"`
      Q      *int8
      Raw    []uint16   `tpm2:"raw"`
      T      *Tagged
    } *)
Definition tInt8 : type := TBasic "int8" reflect.Int8.

Definition Everything : type :=
  TStruct "Everything"
    [mkField "Select" tUint32 "";
     mkField "Union" TestUnion "selector:Select";
     mkField "Buf" (TSlice "" tUint8) "";
     mkField "List" (TSlice "" tUint16) "";
     mkField "P" (TPtr Inner) "sized";
     mkField "Q" (TPtr tInt8) "";
     mkField "Raw" (TSlice "" tUint16) "raw";
     mkField "T" (TPtr Tagged) ""].

Definition rtAll : Runtime := {|
  customMarshallerImpl := fun t =>
    if type_eqb t (TPtr Tagged)
    then Some {| Marshal := Tagged_Marshal; Unmarshal := Tagged_Unmarshal |}
    else None;
  unionImpl := fun t => if type_eqb t TestUnion then Some {| Select := TestUnion_Select |}
                        else None;
  ConvertibleTo := exampleConvertibleTo;
  Convert := exampleConvert
|}.

Definition everything : value :=
  VStruct [VScalar 1;
           VStruct [VIface tUint32 (VScalar 42)];
           VSlice [VScalar 1; VScalar 2];
           VSlice [VScalar 7];
           VPtr (VStruct [VScalar 5]);
           VPtr (VScalar (-3));
           VSlice [VScalar 9];
           VPtr (VStruct [VScalar 6])].

(** The destination: the zero value, with the raw slice allocated. *)
Definition everythingDest : value :=
  VStruct [VScalar 0; VStruct [VNilIface]; VNilSlice; VNilSlice; VNilPtr; VNilPtr;
           VSlice [VScalar 0]; VNilPtr].

End Examples.

(** * Further definitions: the rest of the two files *)

(** ** The decoder: the ranges of the decoded fields *)

(** The field widths of the response code layout: 7 bits of code in
    format 0, 6 bits of code in format 1, a 4-bit parameter index and a
    3-bit session or handle index. *)
Definition errorFieldsInRange (e : error) : Prop :=
  match e with
  | TPMWarning _ code | TPMError _ code => 0 <= code < 2 ^ 7
  | TPMParameterError _ code index => 0 <= code < 2 ^ 6 /\ 0 <= index < 2 ^ 4
  | TPMSessionError _ code index | TPMHandleError _ code index =>
      0 <= code < 2 ^ 6 /\ 0 <= index < 2 ^ 3
  | _ => True
  end.

(** ** wrapError and errorUnwrapOriginal *)

(** An [error] value as errorUnwrapOriginal sees it: nil, a non-nil
    [*wrapError] with its message and the error it wraps, or an error
    of any other dynamic type. *)
Inductive goError : Set :=
| nilError
| otherError (e : error)
| WrapError (msg : string) (err : goError).

Definition isWrapError (err : goError) : bool :=
  match err with
  | WrapError _ _ => true
  | _ => false
  end.

(** The loop of errorUnwrapOriginal: while [err] is a [*wrapError],
    replace it by [e.Unwrap()]. *)
Fixpoint errorUnwrapOriginal (err : goError) : goError :=
  match err with
  | WrapError _ inner => errorUnwrapOriginal inner
  | _ => err
  end.

(** [n] layers of wrapping around [err]. *)
Fixpoint wrapTimes (msgs : list string) (err : goError) : goError :=
  match msgs with
  | [] => err
  | m :: rest => WrapError m (wrapTimes rest err)
  end.


(** ** Field tags *)

(** The string holds no comma. *)
Fixpoint noComma (s : string) : bool :=
  match s with
  | EmptyString => true
  | String c r => negb (Ascii.eqb c ","%char) && noComma r
  end.

(** Some part of a split tag starts with [selector:]. *)
Definition hasSelectorPart (parts : list string) : bool :=
  existsb (String.prefix "selector:") parts.


(** ** Calls that write to a bytes.Buffer, calls that read *)

(** A call that writes to a [bytes.Buffer] is uniform when its outcome
    does not depend on what the buffer holds: it runs out of fuel on
    every buffer, or it appends the same bytes and returns the same
    error on every buffer. *)
Definition uniform (run : bytesBuffer -> result bytesBuffer) : Prop :=
  (forall w, run w = None)
  \/ exists b err, forall w, run w = Some (w ++ b, err).

(** The [Marshal] methods of the program write to a [bytes.Buffer] by
    appending. *)
Definition uniformMarshallers (rt : Runtime) : Prop :=
  forall t impl d,
    customMarshallerImpl rt t = Some impl ->
    exists b err, forall w : bytesBuffer,
      Marshal impl d bytesBuffer bytesBuffer_Writer w = (w ++ b, err).

(** The reader a call leaves is what is left of the reader it was given
    after some bytes were taken from its front. *)
Definition readsFront (buf : list byte) (r : uresult) : Prop :=
  match r with
  | None => True
  | Some (buf', _, _) => exists c, buf = c ++ buf'
  end.

(** The [Unmarshal] methods of the program read from the front of the
    reader. *)
Definition frontUnmarshallers (rt : Runtime) : Prop :=
  forall t impl d buf,
    customMarshallerImpl rt t = Some impl ->
    exists c, buf = c ++ fst (fst (Unmarshal impl d buf)).


(** ** Small programs for the further properties *)

Module MoreExamples.

(** type Pair struct { A uint16; B int; C uint8 }: [int] has no fixed
    size, so encoding/binary refuses it. *)
Definition tInt : type := TBasic "int" reflect.Int.

Definition Pair : type :=
  TStruct "Pair" [mkField "A" Examples.tUint16 ""; mkField "B" tInt "";
                  mkField "C" Examples.tUint8 ""].

(** type Point struct { X uint16; Y uint8 }. *)
Definition Point : type :=
  TStruct "Point" [mkField "X" Examples.tUint16 ""; mkField "Y" Examples.tUint8 ""].

(** type ByValue struct { P Inner `tpm2:"sized"` }: the sized struct is
    stored in the field itself. *)
Definition ByValue : type :=
  TStruct "ByValue" [mkField "P" Examples.Inner "sized"].

End MoreExamples.


(** ** The variant of a union *)

(** What marshalUnion and unmarshalUnion do before they touch the data:
    find the container, the selector field and the variant.  The result
    is the error they return with, or the variant [Select] gives (none
    for a union without data). *)
Definition selectUnionType (rt : Runtime) (u : Value) (ctx : muContext)
  : error + option type :=
  match container ctx with
  | None => inl (errorString "not inside a container")
  | Some c =>
    if negb (isValidUnionContainer (vType c)) then
      inl (errorString "not inside a valid union container")
    else if String.eqb (selector (options ctx)) "" then
      inl (errorString "no selector member defined in container")
    else
      match FieldByName c (selector (options ctx)) with
      | None =>
          inl (Errorf "invalid selector member name %s" [AString (selector (options ctx))])
      | Some selectorVal =>
          match callSelect rt u selectorVal with
          | (_, Some err) => inl (Errorf "cannot select union data type: %v" [AErr err])
          | (t, None) => inr t
          end
      end
  end.

(** ** Kinds without an encoding *)

(** The kinds the engine rejects by name, and the scalar kinds to which
    encoding/binary gives no fixed size. *)
Definition neverEncoded (k : Kind) : bool :=
  match k with
  | reflect.Array | reflect.Chan | reflect.Func | reflect.Interface | reflect.Map
  | reflect.UnsafePointer => true
  | reflect.Int | reflect.Uint | reflect.Uintptr | reflect.String => true
  | _ => false
  end.

(** * Properties *)

(** ** The response-code decoder *)

Module ResponseCodeFacts.
Import ResponseCode.

Lemma land_bit (r k : Z) :
  0 <= k -> Z.land r (Z.shiftl 1 k) = if Z.testbit r k then 2 ^ k else 0.
Proof.
  intros Hk. rewrite Z.shiftl_1_l.
  apply Z.bits_inj'. intros i Hi.
  rewrite Z.land_spec, Z.pow2_bits_eqb by assumption.
  destruct (Z.eqb_spec k i) as [-> | Hne].
  - destruct (Z.testbit r i) eqn:E; simpl.
    + rewrite Z.pow2_bits_true; auto.
    + rewrite Z.bits_0; reflexivity.
  - rewrite andb_false_r.
    destruct (Z.testbit r k).
    + rewrite Z.pow2_bits_false; auto.
    + rewrite Z.bits_0; reflexivity.
Qed.

Lemma bit_clear (r k : Z) :
  0 <= k -> (Z.land r (Z.shiftl 1 k) =? 0) = negb (Z.testbit r k).
Proof.
  intros Hk. rewrite land_bit by assumption.
  destruct (Z.testbit r k); simpl; [ | reflexivity ].
  apply Z.eqb_neq. pose proof (Z.pow_pos_nonneg 2 k). lia.
Qed.

Lemma bit_set (r k : Z) :
  0 <= k -> (0 <? Z.land r (Z.shiftl 1 k)) = Z.testbit r k.
Proof.
  intros Hk. rewrite land_bit by assumption.
  destruct (Z.testbit r k); simpl; [ | reflexivity ].
  apply Z.ltb_lt. apply Z.pow_pos_nonneg; lia.
Qed.

Lemma mask_low (r n : Z) : 0 <= n -> Z.land r (Z.ones n) = r mod 2 ^ n.
Proof. intros. apply Z.land_ones; assumption. Qed.

Lemma index_field (r n : Z) :
  0 <= n ->
  Z.shiftr (Z.land r (Z.shiftl (Z.ones n) 8)) fmt1IndexShift = bitfield r 8 n.
Proof.
  intros Hn. unfold fmt1IndexShift, bitfield.
  rewrite Z.shiftr_land, Z.shiftr_shiftl_l by lia.
  replace (8 - 8) with 0 by lia. rewrite Z.shiftl_0_r.
  rewrite Z.land_ones by assumption.
  rewrite Z.shiftr_div_pow2 by lia. reflexivity.
Qed.

Lemma decode_format0 (command status : Z) :
  Z.testbit status 7 = false ->
  DecodeResponseCode command status = format0_spec command status.
Proof.
  intros H7. unfold DecodeResponseCode, format0_spec.
  unfold formatMask, fmt0VersionMask, fmt0VendorMask, fmt0SeverityMask.
  rewrite !bit_clear, !bit_set by lia. rewrite H7. simpl negb.
  change fmt0ErrorCodeMask with (Z.ones 7). rewrite mask_low by lia.
  reflexivity.
Qed.

Lemma decode_format1 (command status : Z) :
  Z.testbit status 7 = true ->
  DecodeResponseCode command status = format1_spec command status.
Proof.
  intros H7. unfold DecodeResponseCode, format1_spec.
  assert (Hne : (status =? Success) = false).
  { apply Z.eqb_neq. intros ->. discriminate H7. }
  rewrite Hne.
  unfold formatMask, fmt1ParameterMask, fmt1SessionMask.
  rewrite !bit_clear, !bit_set by lia. rewrite H7. simpl negb. cbv iota.
  change fmt1ErrorCodeMask with (Z.ones 6). rewrite mask_low by lia.
  change fmt1ParameterIndexMask with (Z.shiftl (Z.ones 4) 8).
  change fmt1HandleOrSessionIndexMask with (Z.shiftl (Z.ones 3) 8).
  rewrite !index_field by lia.
  reflexivity.
Qed.

End ResponseCodeFacts.

(** ** Equality of types *)

Lemma Kind_eqb_eq (a b : Kind) : Kind_eqb a b = true <-> a = b.
Proof.
  unfold Kind_eqb. destruct (Kind_eq_dec a b); split; intros; congruence.
Qed.

Lemma Kind_eqb_refl (a : Kind) : Kind_eqb a a = true.
Proof. apply Kind_eqb_eq. reflexivity. Qed.

Lemma type_eqb_true : forall a b, type_eqb a b = true -> a = b.
Proof.
  fix IH 1. intros a b. destruct a, b; simpl; try discriminate; intros H.
  - apply andb_prop in H. destruct H as [Hn Hk].
    apply String.eqb_eq in Hn. apply Kind_eqb_eq in Hk. congruence.
  - f_equal. apply IH. exact H.
  - apply andb_prop in H. destruct H as [Hn He].
    apply String.eqb_eq in Hn. apply IH in He. congruence.
  - apply andb_prop in H. destruct H as [Hn Hf].
    apply String.eqb_eq in Hn. subst. f_equal.
    revert fields0 Hf.
    induction fields as [ | [fn ft tg] r IHr]; intros [ | [fn' ft' tg'] r'] Hf;
      try discriminate; [ reflexivity | ].
    apply andb_prop in Hf. destruct Hf as [Hf Hr].
    apply andb_prop in Hf. destruct Hf as [Hf Htg].
    apply andb_prop in Hf. destruct Hf as [Hfn Hft].
    apply String.eqb_eq in Hfn, Htg. apply IH in Hft. apply IHr in Hr.
    congruence.
  - apply andb_prop in H. destruct H as [Hn Hm].
    apply String.eqb_eq in Hn. apply Nat.eqb_eq in Hm. congruence.
Qed.

Lemma type_eqb_refl : forall a, type_eqb a a = true.
Proof.
  fix IH 1. intros a. destruct a; simpl.
  - rewrite String.eqb_refl, Kind_eqb_refl. reflexivity.
  - apply IH.
  - rewrite String.eqb_refl, IH. reflexivity.
  - rewrite String.eqb_refl. simpl.
    induction fields as [ | [fn ft tg] r IHr]; [ reflexivity | ].
    rewrite !String.eqb_refl, IH, IHr. reflexivity.
  - rewrite String.eqb_refl, Nat.eqb_refl. reflexivity.
Qed.

Lemma type_eqb_false a b : a <> b -> type_eqb a b = false.
Proof.
  intros Hne. destruct (type_eqb a b) eqn:E; [ | reflexivity ].
  elim Hne. apply type_eqb_true. exact E.
Qed.

(** ** Fuel is monotone: more fuel never changes the outcome of a call *)

Section MarshalMono.

Variable rt : Runtime.
Variables f g : mcallback.
Hypothesis fg : mrefines f g.

Lemma marshalPtr_mono W (Wr : Writer W) buf ptr ctx r :
  marshalPtr f buf ptr ctx = Some r -> marshalPtr g buf ptr ctx = Some r.
Proof.
  unfold marshalPtr.
  destruct (IsNil ptr); [ destruct (_ && _) | ]; auto.
Qed.

Lemma marshalUnion_mono W (Wr : Writer W) buf u ctx r :
  marshalUnion rt f buf u ctx = Some r -> marshalUnion rt g buf u ctx = Some r.
Proof.
  unfold marshalUnion.
  destruct (container ctx) as [c | ]; auto.
  destruct (negb (isValidUnionContainer (vType c))); auto.
  destruct (String.eqb _ _); auto.
  destruct (FieldByName c _) as [sv | ]; auto.
  destruct (callSelect rt u sv) as [[st | ] [e | ]]; auto.
  destruct (negb (type_eqb _ st)); [ destruct (negb (ConvertibleTo _ _ _)) | ]; auto.
Qed.

Lemma marshalFields_mono W (Wr : Writer W) idx : forall buf s ctx r,
  marshalFields f buf s ctx idx = Some r -> marshalFields g buf s ctx idx = Some r.
Proof.
  induction idx as [ | i rest IH]; simpl; intros buf s ctx r H; auto.
  destruct (f W Wr buf _ _) as [[buf' [e | ]] | ] eqn:E; try discriminate;
    rewrite (fg _ _ _ _ _ _ E); auto.
Qed.

Lemma marshalElems_mono W (Wr : Writer W) idx : forall buf s ctx r,
  marshalElems f buf s ctx idx = Some r -> marshalElems g buf s ctx idx = Some r.
Proof.
  induction idx as [ | i rest IH]; simpl; intros buf s ctx r H; auto.
  destruct (f W Wr buf _ _) as [[buf' [e | ]] | ] eqn:E; try discriminate;
    rewrite (fg _ _ _ _ _ _ E); auto.
Qed.

Lemma marshalStruct_mono W (Wr : Writer W) buf s ctx r :
  marshalStruct rt f buf s ctx = Some r -> marshalStruct rt g buf s ctx = Some r.
Proof.
  unfold marshalStruct.
  destruct (_ && isUnion _ _); auto.
  destruct (_ && negb _); auto.
  destruct (sized (options ctx)).
  - destruct (f bytesBuffer _ _ _ _) as [[tmp [e | ]] | ] eqn:E; try discriminate;
      rewrite (fg _ _ _ _ _ _ E); auto.
  - destruct (isUnion rt (vType s)).
    + destruct (marshalUnion rt f buf s ctx) as [[buf' [e | ]] | ] eqn:E;
        try discriminate; rewrite (marshalUnion_mono _ _ _ _ _ _ E); auto.
    + apply marshalFields_mono.
Qed.

Lemma marshalSlice_mono W (Wr : Writer W) buf s ctx r :
  marshalSlice f buf s ctx = Some r -> marshalSlice g buf s ctx = Some r.
Proof.
  unfold marshalSlice.
  destruct (type_eqb _ _); auto.
  cbv zeta.
  destruct (raw (options ctx)); [ apply marshalElems_mono | ].
  destruct (isSizedBuffer (vType s));
    destruct (Write buf _) as [buf' [e | ]]; auto; apply marshalElems_mono.
Qed.

Lemma wrapError_mono W (a b : result W) fmt t r :
  (forall r', a = Some r' -> b = Some r') ->
  wrapError a fmt t = Some r -> wrapError b fmt t = Some r.
Proof.
  intros H. destruct a as [[buf' [e | ]] | ]; simpl; try discriminate;
    rewrite (H _ eq_refl); auto.
Qed.

Lemma marshalValue_body_mono W (Wr : Writer W) buf val ctx r :
  marshalValue_body rt f buf val ctx = Some r ->
  marshalValue_body rt g buf val ctx = Some r.
Proof.
  unfold marshalValue_body.
  destruct (hasCustomMarshallerImpl rt (vType val)); auto.
  destruct (ValueKind val); auto;
    apply wrapError_mono; intros r';
    first [ apply marshalPtr_mono | apply marshalStruct_mono | apply marshalSlice_mono ].
Qed.

End MarshalMono.

Lemma marshalValue_mono rt (n m : nat) :
  (n <= m)%nat -> mrefines (marshalValue rt n) (marshalValue rt m).
Proof.
  revert m. induction n as [ | n IH]; intros m Hle W Wr buf val ctx r H.
  - discriminate H.
  - destruct m as [ | m]; [ lia | ].
    simpl in *. eapply marshalValue_body_mono; [ | exact H ].
    apply IH. lia.
Qed.

(** ** Marshalling a union struct *)

Section MarshalUnion.

Variable rt : Runtime.

Lemma isUnion_Struct t : isUnion rt t = true -> TypeKind t = reflect.Struct.
Proof.
  unfold isUnion, Kind_eqb.
  destruct (Kind_eq_dec (TypeKind t) reflect.Struct); simpl; [ auto | discriminate ].
Qed.

(** What marshalValue does with a union struct that is not sized. *)
Lemma marshalValue_union n W (Wr : Writer W) buf u ctx :
  isUnion rt (vType u) = true ->
  hasCustomMarshallerImpl rt (vType u) = false ->
  sized (options (entered ctx)) = false ->
  marshalValue rt (S n) W Wr buf u ctx =
  match marshalUnion rt (marshalValue rt n) buf u (entered ctx) with
  | Some (buf', Some err) => Some (buf', Some (unionError (vType u) err))
  | r => r
  end.
Proof.
  intros HU HC HS. simpl. unfold marshalValue_body. rewrite HC.
  unfold ValueKind. rewrite (isUnion_Struct _ HU).
  unfold marshalStruct. rewrite HS, HU. simpl.
  destruct (marshalUnion _ _ _ _ _) as [[buf' [e | ]] | ]; reflexivity.
Qed.

End MarshalUnion.

(** C7: marshalling a union struct fails when the context has no
    container, when the container is not a struct, when the field
    options name no selector, and when the stored data has a type other
    than the resolved variant and not convertible to it; when the
    variant resolution gives no type and no error, nothing is written
    and the call succeeds. *)
Theorem marshal_union_cases :
  forall rt n W (Wr : Writer W) buf u ctx,
    isUnion rt (vType u) = true ->
    hasCustomMarshallerImpl rt (vType u) = false ->
    sized (options ctx) = false ->
    (container ctx = None ->
     marshalValue rt (S n) W Wr buf u (Some ctx) =
     Some (buf, Some (unionError (vType u) (errorString "not inside a container"))))
    /\
    (forall c, container ctx = Some c -> TypeKind (vType c) <> reflect.Struct ->
     marshalValue rt (S n) W Wr buf u (Some ctx) =
     Some (buf, Some (unionError (vType u)
                        (errorString "not inside a valid union container"))))
    /\
    (forall c, container ctx = Some c -> TypeKind (vType c) = reflect.Struct ->
     selector (options ctx) = "" ->
     marshalValue rt (S n) W Wr buf u (Some ctx) =
     Some (buf, Some (unionError (vType u)
                        (errorString "no selector member defined in container"))))
    /\
    (forall c selectorVal selectedType,
     container ctx = Some c -> TypeKind (vType c) = reflect.Struct ->
     selector (options ctx) <> "" ->
     FieldByName c (selector (options ctx)) = Some selectorVal ->
     callSelect rt u selectorVal = (Some selectedType, None) ->
     vType (storedData u selectedType) <> selectedType ->
     ConvertibleTo rt (vType (storedData u selectedType)) selectedType = false ->
     marshalValue rt (S n) W Wr buf u (Some ctx) =
     Some (buf, Some (unionError (vType u)
                        (Errorf "data has incorrect type %s (expected %s)"
                           [AType (vType (storedData u selectedType));
                            AType selectedType]))))
    /\
    (forall c selectorVal,
     container ctx = Some c -> TypeKind (vType c) = reflect.Struct ->
     selector (options ctx) <> "" ->
     FieldByName c (selector (options ctx)) = Some selectorVal ->
     callSelect rt u selectorVal = (None, None) ->
     marshalValue rt (S n) W Wr buf u (Some ctx) = Some (buf, None)).
Proof.
  intros rt n W Wr buf u ctx HU HC HS.
  rewrite (marshalValue_union rt n W Wr buf u (Some ctx) HU HC HS).
  unfold marshalUnion. simpl.
  assert (Hvalid : forall c, TypeKind (vType c) = reflect.Struct ->
                             negb (isValidUnionContainer (vType c)) = false).
  { intros c Hc. unfold isValidUnionContainer. rewrite Hc. reflexivity. }
  assert (Hsel : selector (options ctx) <> "" ->
                 String.eqb (selector (options ctx)) "" = false).
  { intros Hne. apply String.eqb_neq. exact Hne. }
  repeat split.
  - intros ->. reflexivity.
  - intros c -> Hk. unfold isValidUnionContainer, Kind_eqb.
    destruct (Kind_eq_dec (TypeKind (vType c)) reflect.Struct); [ contradiction | reflexivity ].
  - intros c -> Hk Hs. rewrite (Hvalid c Hk), Hs. reflexivity.
  - intros c sv st -> Hk Hs Hf Hsl Hne Hconv.
    rewrite (Hvalid c Hk), (Hsel Hs), Hf, Hsl.
    fold (storedData u st).
    assert (Hneq : type_eqb (vType (storedData u st)) st = false) by (apply type_eqb_false; exact Hne).
    rewrite Hneq, Hconv. reflexivity.
  - intros c sv -> Hk Hs Hf Hsl.
    rewrite (Hvalid c Hk), (Hsel Hs), Hf, Hsl. reflexivity.
Qed.

Lemma marshal_union_cases_witness :
  let rt := Examples.rtU in
  let u := mkValue Examples.TestUnion
             (VStruct [VIface (TSlice "" Examples.tUint8) (VSlice [])]) false in
  let inSlice :=
    mkContext 1 (Some (mkValue (TSlice "" Examples.TestUnion) (VSlice [vData u]) false))
              (Some (TSlice "" Examples.TestUnion)) noOptions in
  let inStruct (sel : Z) (opts : muOptions) :=
    mkContext 1 (Some (mkValue Examples.TestUnionContainer
                         (VStruct [VScalar sel; vData u]) false))
              (Some Examples.TestUnionContainer) opts in
  marshalValue rt 1 bytesBuffer _ [] u (Some newContext) =
    Some ([], Some (unionError (vType u) (errorString "not inside a container")))
  /\
  marshalValue rt 1 bytesBuffer _ [] u (Some inSlice) =
    Some ([], Some (unionError (vType u)
                      (errorString "not inside a valid union container")))
  /\
  marshalValue rt 1 bytesBuffer _ [] u (Some (inStruct 1 noOptions)) =
    Some ([], Some (unionError (vType u)
                      (errorString "no selector member defined in container")))
  /\
  marshalValue rt 1 bytesBuffer _ [] u
    (Some (inStruct 1 (parseFieldOptions "selector:Select"))) =
    Some ([], Some (unionError (vType u)
                      (Errorf "data has incorrect type %s (expected %s)"
                         [AType (TSlice "" Examples.tUint8); AType Examples.tUint32])))
  /\
  marshalValue rt 1 bytesBuffer _ [] u
    (Some (inStruct 0 (parseFieldOptions "selector:Select"))) = Some ([], None).
Proof.
  intros rt u inSlice inStruct.
  pose proof (fun ctx => marshal_union_cases rt 0 bytesBuffer _ [] u ctx
                           eq_refl eq_refl) as T.
  split; [ | split; [ | split; [ | split ] ] ].
  - apply (proj1 (T newContext eq_refl)). reflexivity.
  - eapply (proj1 (proj2 (T inSlice eq_refl))); [ reflexivity | discriminate ].
  - eapply (proj1 (proj2 (proj2 (T (inStruct 1 noOptions) eq_refl))));
      reflexivity.
  - eapply (proj1 (proj2 (proj2 (proj2
              (T (inStruct 1 (parseFieldOptions "selector:Select")) eq_refl)))));
      try reflexivity; discriminate.
  - eapply (proj2 (proj2 (proj2 (proj2
              (T (inStruct 0 (parseFieldOptions "selector:Select")) eq_refl)))));
      try reflexivity; discriminate.
Defined.

(** ** A nil pointer to a sized struct *)

Lemma marshalValue_S rt n W (Wr : Writer W) buf val ctx :
  marshalValue rt (S n) W Wr buf val ctx =
  marshalValue_body rt (marshalValue rt n) buf val ctx.
Proof. reflexivity. Qed.

(** What marshalValue does with a nil pointer to a struct under the
    [sized] option: one write of two bytes, whose error is lost. *)
Lemma marshalValue_nil_sized rt n W (Wr : Writer W) buf elemT a ctx :
  TypeKind elemT = reflect.Struct ->
  sized (options ctx) = true ->
  hasCustomMarshallerImpl rt (TPtr elemT) = false ->
  marshalValue rt (S n) W Wr buf (mkValue (TPtr elemT) VNilPtr a) (Some ctx) =
  Some (fst (Write buf (be_bytes 2 (uint16 0))), None).
Proof.
  intros Hk Hs Hc. rewrite marshalValue_S. unfold marshalValue_body.
  simpl vType. rewrite Hc. simpl. unfold marshalPtr. simpl.
  rewrite Hs, Hk. simpl.
  destruct (Write buf _) as [buf' e]. reflexivity.
Qed.

(** C9: when the write of the two-byte zero size of a nil pointer to a
    sized struct fails, the error is dropped: marshalValue returns no
    error, and so does MarshalToWriter on a struct whose only field is
    that pointer. *)
Theorem nil_sized_pointer_write_error_is_dropped :
  forall rt n W (Wr : Writer W) (buf buf' : W) err elemT a ctx,
    TypeKind elemT = reflect.Struct ->
    sized (options ctx) = true ->
    hasCustomMarshallerImpl rt (TPtr elemT) = false ->
    Write buf (be_bytes 2 (uint16 0)) = (buf', Some err) ->
    marshalValue rt (S n) W Wr buf (mkValue (TPtr elemT) VNilPtr a) (Some ctx)
      = Some (buf', None)
    /\
    (forall name fname tag,
        let C := TStruct name [mkField fname (TPtr elemT) tag] in
        sized (parseFieldOptions tag) = true ->
        hasCustomMarshallerImpl rt C = false ->
        isUnion rt C = false ->
        MarshalToWriter rt (S (S n)) buf [Some (C, VStruct [VNilPtr])]
          = Some (buf', None)).
Proof.
  intros rt n W Wr buf buf' err elemT a ctx Hk Hs Hc Hw. split.
  - rewrite marshalValue_nil_sized by assumption. rewrite Hw. reflexivity.
  - intros name fname tag C Hsz HcC HuC.
    unfold MarshalToWriter. rewrite marshalValue_S. unfold marshalValue_body.
    unfold ValueOf. simpl vType. rewrite HcC. simpl ValueKind. cbv iota.
    unfold marshalStruct. simpl vType. rewrite HuC.
    simpl. unfold Field, beginStructFieldCtx. simpl.
    fold (marshalValue rt n).
    change (marshalValue_body rt (marshalValue rt n) buf ?v ?c)
      with (marshalValue rt (S n) W Wr buf v c).
    rewrite marshalValue_nil_sized; [ rewrite Hw; reflexivity | assumption .. ].
Qed.

Lemma nil_sized_pointer_write_error_is_dropped_witness :
  marshalValue Examples.rt0 1 unit Examples.closedPipe tt
    (mkValue (TPtr Examples.Inner) VNilPtr false)
    (Some (mkContext 1 None None (parseFieldOptions "sized"))) = Some (tt, None)
  /\
  MarshalToWriter Examples.rt0 2 (Wr := Examples.closedPipe) tt
    [Some (Examples.SizedHolder, VStruct [VNilPtr])] = Some (tt, None).
Proof.
  pose proof (nil_sized_pointer_write_error_is_dropped
                Examples.rt0 0 unit Examples.closedPipe tt tt Examples.ErrClosedPipe
                Examples.Inner false
                (mkContext 1 None None (parseFieldOptions "sized"))
                eq_refl eq_refl eq_refl eq_refl) as [H1 H2].
  split.
  - exact H1.
  - apply (H2 "SizedHolder" "P" "sized"); reflexivity.
Defined.

(** ** The status decode table and the two formats *)

(** C3, as the code has it: status 0x00000194 has bit 7 set and bit 6
    clear, so it decodes to a handle error with index 1 and code 0x14;
    the parameter error with index 1 and code 0x14 is the decoding of
    0x000001D4. *)
Theorem decode_0x194_is_handle_error :
  forall command,
    ResponseCode.DecodeResponseCode command 0x00000194
      = Some (TPMHandleError command 0x14 1)
    /\
    ResponseCode.DecodeResponseCode command 0x000001D4
      = Some (TPMParameterError command 0x14 1).
Proof. intros command. split; reflexivity. Qed.

Lemma decode_0x194_not_parameter_error :
  ResponseCode.DecodeResponseCode 0x17E 0x00000194
    = Some (TPMHandleError 0x17E 0x14 1)
  /\
  ResponseCode.DecodeResponseCode 0x17E 0x00000194
    <> Some (TPMParameterError 0x17E 0x14 1).
Proof. split; [ reflexivity | discriminate ]. Qed.

(** C4, as the code has it: status 0x00000814 has bit 7 and bit 8
    clear, so it decodes to a TPM1Error carrying the raw status; the
    session error with index 0 and code 0x14 is the decoding of
    0x00000894. *)
Theorem decode_0x814_is_tpm1_error :
  forall command,
    ResponseCode.DecodeResponseCode command 0x00000814
      = Some (TPM1Error command 0x00000814)
    /\
    ResponseCode.DecodeResponseCode command 0x00000894
      = Some (TPMSessionError command 0x14 0).
Proof. intros command. split; reflexivity. Qed.

Lemma decode_0x814_not_session_error :
  ResponseCode.DecodeResponseCode 0x17E 0x00000814
    = Some (TPM1Error 0x17E 0x00000814)
  /\
  ResponseCode.DecodeResponseCode 0x17E 0x00000814
    <> Some (TPMSessionError 0x17E 0x14 0).
Proof. split; [ reflexivity | discriminate ]. Qed.

(** C5: Success decodes to no error; any other status with bit 7 clear
    is a TPM1Error with the raw status when bit 8 is clear, else a
    vendor error when bit 10 is set, else a warning with the status
    masked to 7 bits when bit 11 is set, else a format-0 error with the
    status masked to 7 bits. *)
Theorem decode_format0_classification :
  forall command status,
    status = ResponseCode.Success \/ Z.testbit status 7 = false ->
    ResponseCode.DecodeResponseCode command status
      = ResponseCode.format0_spec command status.
Proof.
  intros command status [-> | H7].
  - reflexivity.
  - apply ResponseCodeFacts.decode_format0. exact H7.
Qed.

Lemma decode_format0_classification_witness :
  ResponseCode.DecodeResponseCode 0x17E 0 = None
  /\ ResponseCode.DecodeResponseCode 0x17E 0x00000014 = Some (TPM1Error 0x17E 0x14)
  /\ ResponseCode.DecodeResponseCode 0x17E 0x00000501 = Some (TPMVendorError 0x17E 0x501)
  /\ ResponseCode.DecodeResponseCode 0x17E 0x00000922 = Some (TPMWarning 0x17E 0x22)
  /\ ResponseCode.DecodeResponseCode 0x17E 0x00000101 = Some (TPMError 0x17E 0x01).
Proof.
  split; [ | split; [ | split; [ | split ] ] ].
  - exact (decode_format0_classification 0x17E 0 (or_introl eq_refl)).
  - exact (decode_format0_classification 0x17E 0x14 (or_intror eq_refl)).
  - exact (decode_format0_classification 0x17E 0x501 (or_intror eq_refl)).
  - exact (decode_format0_classification 0x17E 0x922 (or_intror eq_refl)).
  - exact (decode_format0_classification 0x17E 0x101 (or_intror eq_refl)).
Defined.

(** C6: a status with bit 7 set is a parameter error with the 4-bit
    index of bits 8-11 when bit 6 is set, else a session error with the
    3-bit index of bits 8-10 when bit 11 is set, else a handle error
    with that 3-bit index; the code is the status masked to 6 bits. *)
Theorem decode_format1_classification :
  forall command status,
    status <> ResponseCode.Success ->
    Z.testbit status 7 = true ->
    ResponseCode.DecodeResponseCode command status
      = ResponseCode.format1_spec command status.
Proof.
  intros command status _ H7.
  apply ResponseCodeFacts.decode_format1. exact H7.
Qed.

Lemma decode_format1_classification_witness :
  ResponseCode.DecodeResponseCode 0x17E 0x00000FD5 = Some (TPMParameterError 0x17E 0x15 15)
  /\ ResponseCode.DecodeResponseCode 0x17E 0x00000F95 = Some (TPMSessionError 0x17E 0x15 7)
  /\ ResponseCode.DecodeResponseCode 0x17E 0x00000795 = Some (TPMHandleError 0x17E 0x15 7).
Proof.
  assert (ne : forall s, Z.testbit s 7 = true -> s <> ResponseCode.Success).
  { intros s H ->. discriminate H. }
  split; [ | split ].
  - exact (decode_format1_classification 0x17E 0xFD5 (ne 0xFD5 eq_refl) eq_refl).
  - exact (decode_format1_classification 0x17E 0xF95 (ne 0xF95 eq_refl) eq_refl).
  - exact (decode_format1_classification 0x17E 0x795 (ne 0x795 eq_refl) eq_refl).
Defined.

(** ** Marshalling into a bytes.Buffer *)

Lemma be_bytes_length n x : List.length (be_bytes n x) = n.
Proof. unfold be_bytes. rewrite length_rev. apply length_le_split. Qed.

Lemma be_value_be_bytes n x : be_value (be_bytes n x) = x mod 2 ^ (Z.of_nat n * 8).
Proof. unfold be_value, be_bytes. rewrite rev_involutive. apply le_combine_split. Qed.

Lemma binarySize_scalar k sz :
  binarySize k = Some sz ->
  match k with
  | reflect.Bool | reflect.Int8 | reflect.Int16 | reflect.Int32 | reflect.Int64
  | reflect.Uint8 | reflect.Uint16 | reflect.Uint32 | reflect.Uint64
  | reflect.Float32 | reflect.Float64 | reflect.Complex64 | reflect.Complex128 => True
  | _ => False
  end.
Proof. destruct k; simpl; intros H; try discriminate; exact I. Qed.

Lemma encodeScalar_length k sz x : List.length (encodeScalar k sz x) = sz.
Proof. unfold encodeScalar. destruct k; apply be_bytes_length. Qed.

Section BufferFacts.

Variable rt : Runtime.

(** The outcome of a call does not depend on the fuel it returned with. *)
Lemma marshalValue_deterministic n m W (Wr : Writer W) buf val ctx r r' :
  marshalValue rt n W Wr buf val ctx = Some r ->
  marshalValue rt m W Wr buf val ctx = Some r' ->
  r = r'.
Proof.
  intros H H'.
  apply (marshalValue_mono rt n (Nat.max n m)) in H; [ | lia ].
  apply (marshalValue_mono rt m (Nat.max n m)) in H'; [ | lia ].
  congruence.
Qed.

Lemma marshalsTo_deterministic val ctx b n tmp :
  marshalsTo rt val ctx b ->
  marshalValue rt n bytesBuffer bytesBuffer_Writer [] val ctx = Some (tmp, None) ->
  tmp = b.
Proof.
  intros [m H] H'. specialize (H []). simpl in H.
  pose proof (marshalValue_deterministic _ _ _ _ _ _ _ _ _ H H') as E.
  congruence.
Qed.

(** A scalar of a fixed-size kind is one write of its encoding. *)
Lemma marshalValue_scalar n W (Wr : Writer W) buf t x a ctx sz :
  hasCustomMarshallerImpl rt t = false ->
  binarySize (TypeKind t) = Some sz ->
  marshalValue rt (S n) W Wr buf (mkValue t (VScalar x) a) ctx =
  match Write buf (encodeScalar (TypeKind t) sz x) with
  | (buf', Some err) =>
      Some (buf', Some (Errorf "cannot marshal type %s: write to buffer failed: %v"
                          [AType t; AErr err]))
  | (buf', None) => Some (buf', None)
  end.
Proof.
  intros Hc Hsz. rewrite marshalValue_S. unfold marshalValue_body. simpl vType.
  rewrite Hc. unfold ValueKind, binaryWrite. simpl vType. simpl vData.
  pose proof (binarySize_scalar _ _ Hsz) as Hk.
  destruct (TypeKind t); try contradiction; rewrite Hsz; reflexivity.
Qed.

Lemma marshalsTo_scalar t x a ctx sz :
  hasCustomMarshallerImpl rt t = false ->
  binarySize (TypeKind t) = Some sz ->
  marshalsTo rt (mkValue t (VScalar x) a) ctx (encodeScalar (TypeKind t) sz x).
Proof.
  intros Hc Hsz. exists 1%nat. intros w.
  rewrite (marshalValue_scalar 0 _ _ w t x a ctx sz Hc Hsz). reflexivity.
Qed.

(** The loops, when every step is known to append its bytes. *)
Lemma marshalElems_append n slice ctx (enc : nat -> list byte) idx :
  (forall i, In i idx -> forall w : bytesBuffer,
      marshalValue rt n bytesBuffer bytesBuffer_Writer w (Index slice i)
                   (Some (beginSliceElemCtx ctx slice)) = Some (w ++ enc i, None)) ->
  forall w : bytesBuffer,
    marshalElems (marshalValue rt n) w slice ctx idx
    = Some (w ++ flat_map enc idx, None).
Proof.
  induction idx as [ | i rest IH]; intros H w; simpl.
  - rewrite app_nil_r. reflexivity.
  - rewrite (H i (or_introl eq_refl)).
    rewrite IH by (intros j Hj; apply H; right; exact Hj).
    rewrite <- app_assoc. reflexivity.
Qed.

Lemma marshalFields_append n s ctx (enc : nat -> list byte) idx :
  (forall i, In i idx -> forall w : bytesBuffer,
      marshalValue rt n bytesBuffer bytesBuffer_Writer w (Field s i)
                   (Some (beginStructFieldCtx ctx s i)) = Some (w ++ enc i, None)) ->
  forall w : bytesBuffer,
    marshalFields (marshalValue rt n) w s ctx idx
    = Some (w ++ flat_map enc idx, None).
Proof.
  induction idx as [ | i rest IH]; intros H w; simpl.
  - rewrite app_nil_r. reflexivity.
  - rewrite (H i (or_introl eq_refl)).
    rewrite IH by (intros j Hj; apply H; right; exact Hj).
    rewrite <- app_assoc. reflexivity.
Qed.

(** Finitely many calls that each return with some fuel all return with
    one common fuel. *)
Lemma common_fuel (P : nat -> nat -> Prop) idx :
  (forall i n m, P i n -> (n <= m)%nat -> P i m) ->
  (forall i, In i idx -> exists n, P i n) ->
  exists n, forall i, In i idx -> forall m, (n <= m)%nat -> P i m.
Proof.
  intros Hmono. induction idx as [ | i rest IH]; intros H.
  - exists O. intros i [].
  - destruct (H i (or_introl eq_refl)) as [n Hn].
    destruct IH as [n' Hn']; [ intros j Hj; apply H; right; exact Hj | ].
    exists (Nat.max n n'). intros j [<- | Hj] m Hm.
    + apply (Hmono _ n); [ exact Hn | lia ].
    + apply Hn'; [ exact Hj | lia ].
Qed.

Lemma marshalsTo_common_fuel (val : nat -> Value) ctx (enc : nat -> list byte) idx :
  (forall i, In i idx -> marshalsTo rt (val i) (ctx i) (enc i)) ->
  exists n, forall i, In i idx -> forall m, (n <= m)%nat -> forall w : bytesBuffer,
    marshalValue rt m bytesBuffer bytesBuffer_Writer w (val i) (ctx i)
    = Some (w ++ enc i, None).
Proof.
  intros H.
  apply (common_fuel
           (fun i n => forall w : bytesBuffer,
                marshalValue rt n bytesBuffer bytesBuffer_Writer w (val i) (ctx i)
                = Some (w ++ enc i, None))).
  - intros i n m Hn Hle w. apply (marshalValue_mono rt n m Hle). apply Hn.
  - exact H.
Qed.

End BufferFacts.

Section SliceFacts.

Variable rt : Runtime.

(** marshalValue on a slice that is not of the raw byte type: the size
    field, then the elements in order. *)
Lemma marshalsTo_slice slice ctx (enc : nat -> list byte) :
  TypeKind (vType slice) = reflect.Slice ->
  hasCustomMarshallerImpl rt (vType slice) = false ->
  type_eqb (vType slice) rawBytesType = false ->
  (forall i, (i < Len slice)%nat ->
     marshalsTo rt (Index slice i) (Some (beginSliceElemCtx (entered ctx) slice)) (enc i)) ->
  marshalsTo rt slice ctx
    (sizeField (options (entered ctx)) (vType slice) (Len slice)
     ++ flat_map enc (seq 0 (Len slice))).
Proof.
  intros Hk Hc Hraw Helems.
  destruct (marshalsTo_common_fuel rt (fun i => Index slice i)
              (fun _ => Some (beginSliceElemCtx (entered ctx) slice)) enc
              (seq 0 (Len slice))) as [n Hn].
  { intros i Hi. apply Helems. apply in_seq in Hi. lia. }
  exists (S n). intros w.
  rewrite marshalValue_S. unfold marshalValue_body. rewrite Hc.
  unfold ValueKind. rewrite Hk. unfold marshalSlice. rewrite Hraw.
  unfold sizeField. cbv zeta.
  destruct (raw (options (entered ctx))).
  - simpl. rewrite (marshalElems_append rt n slice (entered ctx) enc).
    + reflexivity.
    + intros i Hi w'. apply Hn; [ exact Hi | lia ].
  - destruct (isSizedBuffer (vType slice)); simpl;
      rewrite (marshalElems_append rt n slice (entered ctx) enc);
      try (intros i Hi w'; apply Hn; [ exact Hi | lia ]);
      simpl; rewrite <- app_assoc; reflexivity.
Qed.

(** Finitely many existentials give a function. *)
Lemma finite_choice (P : nat -> list byte -> Prop) N :
  (forall i, (i < N)%nat -> exists b, P i b) ->
  exists enc : nat -> list byte, forall i, (i < N)%nat -> P i (enc i).
Proof.
  induction N as [ | N IH]; intros H.
  - exists (fun _ => []). intros i Hi. lia.
  - destruct IH as [enc Henc]; [ intros i Hi; apply H; lia | ].
    destruct (H N) as [b Hb]; [ lia | ].
    exists (fun i => if (i =? N)%nat then b else enc i).
    intros i Hi. destruct (Nat.eqb_spec i N) as [-> | Hne].
    + exact Hb.
    + apply Henc. lia.
Qed.

(** The elements of a byte slice: each scalar is its low byte. *)
Lemma marshalsTo_byte_elem slice ctx i :
  TypeKind (TypeElem (vType slice)) = reflect.Uint8 ->
  hasCustomMarshallerImpl rt (TypeElem (vType slice)) = false ->
  isScalar (nth i (sliceData (vData slice)) VOpaque) = true ->
  marshalsTo rt (Index slice i) ctx
    [byte.of_Z (scalarData (nth i (sliceData (vData slice)) VOpaque))].
Proof.
  intros Hk Hc Hs. unfold Index.
  destruct (nth i (sliceData (vData slice)) VOpaque) eqn:E; try discriminate.
  pose proof (marshalsTo_scalar rt (TypeElem (vType slice)) x true ctx 1%nat Hc) as H.
  rewrite Hk in H. apply H. reflexivity.
Qed.

Lemma flat_map_agree (f g : nat -> list byte) idx :
  (forall i, In i idx -> f i = g i) -> flat_map f idx = flat_map g idx.
Proof.
  induction idx as [ | i rest IH]; intros H; simpl; [ reflexivity | ].
  rewrite (H i (or_introl eq_refl)), IH; [ reflexivity | ].
  intros j Hj. apply H. right. exact Hj.
Qed.

Lemma flat_map_bytes (l : list value) :
  flat_map (fun i => [byte.of_Z (scalarData (nth i l VOpaque))]) (seq 0 (List.length l))
  = map (fun e => byte.of_Z (scalarData e)) l.
Proof.
  induction l as [ | x r IH] using rev_ind; [ reflexivity | ].
  rewrite length_app. simpl. rewrite Nat.add_1_r, seq_S, flat_map_app, map_app.
  simpl. rewrite app_nth2, Nat.sub_diag by lia. simpl.
  f_equal. rewrite <- IH. apply flat_map_agree. intros i Hi.
  apply in_seq in Hi. rewrite app_nth1 by lia. reflexivity.
Qed.

(** A sized byte buffer: the 16-bit size, then the bytes. *)
Lemma marshalsTo_sized_buffer slice ctx :
  TypeKind (vType slice) = reflect.Slice ->
  TypeKind (TypeElem (vType slice)) = reflect.Uint8 ->
  hasCustomMarshallerImpl rt (vType slice) = false ->
  hasCustomMarshallerImpl rt (TypeElem (vType slice)) = false ->
  type_eqb (vType slice) rawBytesType = false ->
  raw (options (entered ctx)) = false ->
  forallb isScalar (sliceData (vData slice)) = true ->
  marshalsTo rt slice ctx
    (be_bytes 2 (uint16 (Z.of_nat (Len slice))) ++ Bytes slice).
Proof.
  intros Hk Hke Hc Hce Hraw Hr Hs.
  pose proof (marshalsTo_slice slice ctx
                (fun i => [byte.of_Z (scalarData (nth i (sliceData (vData slice)) VOpaque))])
                Hk Hc Hraw) as H.
  unfold sizeField, isSizedBuffer in H. rewrite Hr, Hk, Hke in H. simpl in H.
  unfold Len in H at 3. rewrite flat_map_bytes in H. apply H.
  intros i Hi. apply marshalsTo_byte_elem; try assumption.
  rewrite forallb_forall in Hs. apply Hs. apply nth_In. exact Hi.
Qed.

End SliceFacts.

Section PointerFacts.

Variable rt : Runtime.

(** A non-nil pointer marshals as its pointee. *)
Lemma marshalsTo_ptr_elem ptr ctx b :
  TypeKind (vType ptr) = reflect.Ptr ->
  hasCustomMarshallerImpl rt (vType ptr) = false ->
  IsNil ptr = false ->
  marshalsTo rt (Elem ptr) (Some (beginPtrElemCtx (entered ctx) ptr)) b ->
  marshalsTo rt ptr ctx b.
Proof.
  intros Hk Hc Hn [n H]. exists (S n). intros w.
  rewrite marshalValue_S. unfold marshalValue_body. rewrite Hc.
  unfold ValueKind. rewrite Hk. unfold marshalPtr. rewrite Hn, H. reflexivity.
Qed.

(** A sized struct that was reached through a pointer: the 16-bit
    length of the payload, then the payload. *)
Lemma marshalsTo_sized_struct s ctx n payload :
  TypeKind (vType s) = reflect.Struct ->
  hasCustomMarshallerImpl rt (vType s) = false ->
  isUnion rt (vType s) = false ->
  sized (options (entered ctx)) = true ->
  arrivedFromPointer (entered ctx) s = true ->
  marshalValue rt n bytesBuffer bytesBuffer_Writer [] s
               (Some (beginSizedStructCtx (entered ctx) s)) = Some (payload, None) ->
  marshalsTo rt s ctx
    (be_bytes 2 (uint16 (Z.of_nat (List.length payload))) ++ payload).
Proof.
  intros Hk Hc Hu Hs Ha Hp. exists (S n). intros w.
  rewrite marshalValue_S. unfold marshalValue_body. rewrite Hc.
  unfold ValueKind. rewrite Hk. unfold marshalStruct.
  rewrite Hs, Hu, Ha, Hp. simpl.
  unfold WriteTo, Write, bytesBuffer_Writer.
  destruct payload; simpl; rewrite <- ?app_assoc; reflexivity.
Qed.

Lemma marshalsTo_sized_ptr elemT sd a ctx n payload :
  TypeKind elemT = reflect.Struct ->
  hasCustomMarshallerImpl rt (TPtr elemT) = false ->
  isUnion rt elemT = false ->
  sized (options ctx) = true ->
  marshalValue rt n bytesBuffer bytesBuffer_Writer [] (mkValue elemT sd true)
    (Some (payloadCtx ctx (mkValue (TPtr elemT) (VPtr sd) a))) = Some (payload, None) ->
  marshalsTo rt (mkValue (TPtr elemT) (VPtr sd) a) (Some ctx)
    (be_bytes 2 (uint16 (Z.of_nat (List.length payload))) ++ payload).
Proof.
  intros Hk Hc Hu Hs Hp.
  apply marshalsTo_ptr_elem; try reflexivity; try assumption.
  apply (marshalsTo_sized_struct _ _ n); try assumption.
  - unfold hasCustomMarshallerImpl in *. simpl in *. rewrite Hk. simpl. exact Hc.
  - unfold arrivedFromPointer. simpl. apply type_eqb_refl.
Qed.

Lemma marshalsTo_nil_sized_ptr elemT a ctx :
  TypeKind elemT = reflect.Struct ->
  hasCustomMarshallerImpl rt (TPtr elemT) = false ->
  sized (options ctx) = true ->
  marshalsTo rt (mkValue (TPtr elemT) VNilPtr a) (Some ctx) [Byte.x00; Byte.x00].
Proof.
  intros Hk Hc Hs. exists 1%nat. intros w.
  rewrite marshalValue_nil_sized by assumption. reflexivity.
Qed.

Lemma MarshalToBytes_of_marshalsTo t d b :
  marshalsTo rt (ValueOf (t, d)) None b ->
  exists n, MarshalToBytes rt n [Some (t, d)] = Some (b, None).
Proof.
  intros [n H]. exists n. unfold MarshalToBytes, MarshalToWriter.
  rewrite (H []). reflexivity.
Qed.

End PointerFacts.

(** C2: MarshalToBytes gives 4 + N*W bytes for a list of N elements
    that each marshal to W bytes, and 2 + L bytes for a sized byte
    buffer of length L; under the [sized] option a pointer to a struct
    appends 2 + (length of the marshalled payload) bytes, and a nil
    pointer to a struct appends the two bytes 0x00 0x00. *)
Theorem length_prefix_correct :
  forall rt,
    (forall name elemT d Wd,
        let T := TSlice name elemT in
        let slice := ValueOf (T, d) in
        hasCustomMarshallerImpl rt T = false ->
        TypeKind elemT <> reflect.Uint8 ->
        (forall i, (i < Len slice)%nat ->
           exists b, marshalsTo rt (Index slice i)
                       (Some (beginSliceElemCtx newContext slice)) b
                     /\ List.length b = Wd) ->
        exists n b,
          MarshalToBytes rt n [Some (T, d)] = Some (b, None)
          /\ Z.of_nat (List.length b) = 4 + Z.of_nat (Len slice) * Z.of_nat Wd)
    /\
    (forall name elemT d,
        let T := TSlice name elemT in
        let slice := ValueOf (T, d) in
        hasCustomMarshallerImpl rt T = false ->
        hasCustomMarshallerImpl rt elemT = false ->
        TypeKind elemT = reflect.Uint8 ->
        T <> rawBytesType ->
        forallb isScalar (sliceData d) = true ->
        exists n b,
          MarshalToBytes rt n [Some (T, d)] = Some (b, None)
          /\ Z.of_nat (List.length b) = 2 + Z.of_nat (Len slice))
    /\
    (forall elemT sd a ctx n payload,
        let ptr := mkValue (TPtr elemT) (VPtr sd) a in
        TypeKind elemT = reflect.Struct ->
        hasCustomMarshallerImpl rt (TPtr elemT) = false ->
        isUnion rt elemT = false ->
        sized (options ctx) = true ->
        marshalValue rt n bytesBuffer bytesBuffer_Writer [] (Elem ptr)
                     (Some (payloadCtx ctx ptr)) = Some (payload, None) ->
        exists b,
          marshalsTo rt ptr (Some ctx) b
          /\ Z.of_nat (List.length b) = 2 + Z.of_nat (List.length payload))
    /\
    (forall elemT a ctx,
        TypeKind elemT = reflect.Struct ->
        hasCustomMarshallerImpl rt (TPtr elemT) = false ->
        sized (options ctx) = true ->
        marshalsTo rt (mkValue (TPtr elemT) VNilPtr a) (Some ctx)
                   [Byte.x00; Byte.x00]).
Proof.
  intros rt. split; [ | split; [ | split ] ].
  - intros name elemT d Wd T slice Hc Hk Helems.
    destruct (finite_choice _ _ Helems) as [enc Henc].
    assert (Hraw : type_eqb T rawBytesType = false).
    { apply type_eqb_false. unfold T, rawBytesType. intros E.
      injection E as _ ->. apply Hk. reflexivity. }
    assert (Hsb : isSizedBuffer T = false).
    { unfold isSizedBuffer, T. simpl. unfold Kind_eqb.
      destruct (Kind_eq_dec (TypeKind elemT) reflect.Uint8); [ contradiction | reflexivity ]. }
    pose proof (marshalsTo_slice rt slice None enc eq_refl Hc Hraw) as H.
    destruct (MarshalToBytes_of_marshalsTo rt T d _ (H (fun i Hi => proj1 (Henc i Hi))))
      as [n Hn].
    exists n. eexists. split; [ exact Hn | ].
    unfold sizeField. change (raw (options (entered None))) with false.
    cbv iota. change (vType slice) with T. rewrite Hsb.
    rewrite length_app, be_bytes_length.
    rewrite (flat_map_constant_length (c := Wd)).
    + rewrite length_seq. lia.
    + intros i Hi. apply in_seq in Hi. apply Henc. lia.
  - intros name elemT d T slice Hc Hce Hk Hne Hs.
    pose proof (marshalsTo_sized_buffer rt slice None eq_refl Hk Hc Hce
                  (type_eqb_false _ _ Hne) eq_refl Hs) as H.
    destruct (MarshalToBytes_of_marshalsTo rt T d _ H) as [n Hn].
    exists n. eexists. split; [ exact Hn | ].
    rewrite length_app, be_bytes_length. unfold Bytes. rewrite length_map.
    unfold Len. lia.
  - intros elemT sd a ctx n payload ptr Hk Hc Hu Hs Hp.
    eexists. split.
    + apply (marshalsTo_sized_ptr rt elemT sd a ctx n payload); assumption.
    + rewrite length_app, be_bytes_length. lia.
  - intros elemT a ctx Hk Hc Hs. apply marshalsTo_nil_sized_ptr; assumption.
Qed.

Lemma length_prefix_correct_witness :
  let rt := Examples.rt0 in
  let list := (TSlice "" Examples.tUint32, VSlice [VScalar 1; VScalar 2]) in
  let buffer := (TSlice "" Examples.tUint8, VSlice [VScalar 1; VScalar 2; VScalar 3]) in
  let inField (p : value) :=
    mkContext 1 (Some (mkValue Examples.SizedHolder (VStruct [p]) false))
              (Some Examples.SizedHolder) (parseFieldOptions "sized") in
  let inner := VStruct [VScalar 5] in
  (exists n b, MarshalToBytes rt n [Some list] = Some (b, None)
               /\ Z.of_nat (List.length b) = 4 + 2 * 4)
  /\
  (exists n b, MarshalToBytes rt n [Some buffer] = Some (b, None)
               /\ Z.of_nat (List.length b) = 2 + 3)
  /\
  (exists b, marshalsTo rt (mkValue (TPtr Examples.Inner) (VPtr inner) false)
               (Some (inField (VPtr inner))) b
             /\ Z.of_nat (List.length b) = 2 + 1)
  /\
  marshalsTo rt (mkValue (TPtr Examples.Inner) VNilPtr false)
    (Some (inField VNilPtr)) [Byte.x00; Byte.x00].
Proof.
  intros rt list buffer inField inner.
  destruct (length_prefix_correct rt) as (H1 & H2 & H3 & H4).
  split; [ | split; [ | split ] ].
  - apply (H1 "" Examples.tUint32 (snd list) 4%nat); [ reflexivity | discriminate | ].
    intros i Hi.
    exists (be_bytes 4 (scalarData (nth i (sliceData (snd list)) VOpaque))).
    split; [ | reflexivity ].
    exists 1%nat. intros w.
    destruct i as [ | [ | i]];
      [ reflexivity | reflexivity | change (Len _) with 2%nat in Hi; lia ].
  - apply (H2 "" Examples.tUint8 (snd buffer)); try reflexivity. discriminate.
  - apply (H3 Examples.Inner inner false (inField (VPtr inner)) 2%nat [Byte.x05]);
      reflexivity.
  - apply (H4 Examples.Inner false (inField VNilPtr)); reflexivity.
Defined.

(** ** Lengths that do not fit the 16-bit size field *)

Lemma uint16_be_value x : be_value (be_bytes 2 (uint16 x)) = x mod 2 ^ 16.
Proof.
  rewrite be_value_be_bytes. unfold uint16.
  change (Z.of_nat 2 * 8) with 16. apply Z.mod_mod. lia.
Qed.

Lemma uint16_wraps x : 2 ^ 16 <= x -> x mod 2 ^ 16 <> x.
Proof. intros H E. pose proof (Z.mod_pos_bound x (2 ^ 16)). lia. Qed.

(** C10: a sized byte buffer of length L >= 2^16, and a sized struct
    whose payload has L >= 2^16 bytes, marshal without error to a
    16-bit size field that holds L mod 2^16, followed by all L bytes;
    the size field differs from the number of bytes that follow it. *)
Theorem size_field_wraps_at_16_bits :
  forall rt,
    (forall slice ctx,
        let L := Z.of_nat (Len slice) in
        TypeKind (vType slice) = reflect.Slice ->
        TypeKind (TypeElem (vType slice)) = reflect.Uint8 ->
        hasCustomMarshallerImpl rt (vType slice) = false ->
        hasCustomMarshallerImpl rt (TypeElem (vType slice)) = false ->
        vType slice <> rawBytesType ->
        raw (options (entered ctx)) = false ->
        forallb isScalar (sliceData (vData slice)) = true ->
        2 ^ 16 <= L ->
        marshalsTo rt slice ctx (be_bytes 2 (uint16 L) ++ Bytes slice)
        /\ be_value (be_bytes 2 (uint16 L)) = L mod 2 ^ 16
        /\ Z.of_nat (List.length (Bytes slice)) = L
        /\ L mod 2 ^ 16 <> L)
    /\
    (forall elemT sd a ctx n payload,
        let ptr := mkValue (TPtr elemT) (VPtr sd) a in
        let L := Z.of_nat (List.length payload) in
        TypeKind elemT = reflect.Struct ->
        hasCustomMarshallerImpl rt (TPtr elemT) = false ->
        isUnion rt elemT = false ->
        sized (options ctx) = true ->
        marshalValue rt n bytesBuffer bytesBuffer_Writer [] (Elem ptr)
                     (Some (payloadCtx ctx ptr)) = Some (payload, None) ->
        2 ^ 16 <= L ->
        marshalsTo rt ptr (Some ctx) (be_bytes 2 (uint16 L) ++ payload)
        /\ be_value (be_bytes 2 (uint16 L)) = L mod 2 ^ 16
        /\ L mod 2 ^ 16 <> L).
Proof.
  intros rt. split.
  - intros slice ctx L Hk Hke Hc Hce Hne Hr Hs HL.
    split; [ | split; [ | split ] ].
    + apply marshalsTo_sized_buffer; try assumption.
      apply type_eqb_false. exact Hne.
    + apply uint16_be_value.
    + unfold Bytes, L, Len. rewrite length_map. reflexivity.
    + apply uint16_wraps. exact HL.
  - intros elemT sd a ctx n payload ptr L Hk Hc Hu Hs Hp HL.
    split; [ | split ].
    + apply (marshalsTo_sized_ptr rt elemT sd a ctx n payload); assumption.
    + apply uint16_be_value.
    + apply uint16_wraps. exact HL.
Qed.

(** The payload of a Blob is its bytes, whatever they are. *)
Lemma blob_payload data ctx :
  sized (options ctx) = false ->
  marshalValue Examples.rt0 3 bytesBuffer bytesBuffer_Writer []
    (mkValue Examples.Blob (VStruct [data]) true) (Some ctx)
  = Some (map (fun e => byte.of_Z (scalarData e)) (sliceData data), None).
Proof.
  intros Hs. rewrite marshalValue_S. unfold marshalValue_body.
  change (hasCustomMarshallerImpl Examples.rt0 _) with false. cbv iota.
  change (ValueKind _) with reflect.Struct. cbv iota.
  unfold marshalStruct.
  change (options (entered (Some ctx))) with (options ctx). rewrite Hs.
  change (isUnion Examples.rt0 _) with false. cbv iota. simpl andb. cbv iota.
  reflexivity.
Qed.

Lemma size_field_wraps_at_16_bits_witness :
  let rt := Examples.rt0 in
  let slice := mkValue (TSlice "" Examples.tUint8) Examples.zeros65536 false in
  let blob := VStruct [Examples.zeros65536] in
  let ptr := mkValue (TPtr Examples.Blob) (VPtr blob) false in
  let ctx := mkContext 1 (Some (mkValue Examples.BlobHolder (VStruct [VPtr blob]) false))
               (Some Examples.BlobHolder) (parseFieldOptions "sized") in
  (marshalsTo rt slice None (be_bytes 2 (uint16 65536) ++ Bytes slice)
   /\ be_value (be_bytes 2 (uint16 65536)) = 0
   /\ Z.of_nat (List.length (Bytes slice)) = 65536)
  /\
  marshalsTo rt ptr (Some ctx) (be_bytes 2 (uint16 65536) ++ Bytes slice).
Proof.
  intros rt slice blob ptr ctx.
  destruct (size_field_wraps_at_16_bits rt) as [H1 H2].
  assert (HL : Z.of_nat (Len slice) = 65536).
  { unfold Len.
    change (sliceData (vData slice)) with (repeat (VScalar 0) (Z.to_nat 65536)).
    rewrite repeat_length. lia. }
  assert (Hs : forallb isScalar (sliceData (vData slice)) = true).
  { change (sliceData (vData slice)) with (repeat (VScalar 0) (Z.to_nat 65536)).
    apply forallb_forall. intros x Hx. apply repeat_spec in Hx. subst x. reflexivity. }
  assert (Hne : vType slice <> rawBytesType) by discriminate.
  assert (Hle : 2 ^ 16 <= Z.of_nat (Len slice)) by (rewrite HL; lia).
  split.
  - pose proof (H1 slice None eq_refl eq_refl eq_refl eq_refl Hne eq_refl Hs Hle)
      as (Ha & Hb & Hc & _).
    rewrite HL in Ha, Hb, Hc.
    split; [ exact Ha | split; [ exact Hb | exact Hc ] ].
  - assert (Hlen : Z.of_nat (List.length (Bytes slice)) = 65536).
    { unfold Bytes. rewrite length_map. exact HL. }
    pose proof (H2 Examples.Blob blob false ctx 3%nat (Bytes slice)
                  eq_refl eq_refl eq_refl eq_refl
                  (blob_payload Examples.zeros65536 (payloadCtx ctx ptr) eq_refl)) as H.
    cbv zeta in H. rewrite Hlen in H.
    exact (proj1 (H ltac:(lia))).
Defined.

(** ** A struct that is both sized and a union *)

(** marshalStruct rejects a sized union before anything else. *)
Lemma marshalValue_sized_union rt n W (Wr : Writer W) buf s ctx :
  isUnion rt (vType s) = true ->
  hasCustomMarshallerImpl rt (vType s) = false ->
  sized (options ctx) = true ->
  marshalValue rt (S n) W Wr buf s (Some ctx) =
  Some (buf, Some (structError (vType s)
                     (errorString "cannot be both sized and a union"))).
Proof.
  intros HU HC HS. rewrite marshalValue_S. unfold marshalValue_body. rewrite HC.
  unfold ValueKind. rewrite (isUnion_Struct rt _ HU).
  unfold marshalStruct. simpl. rewrite HS, HU. reflexivity.
Qed.

(** C8, on the code: unmarshalStruct has no test for a sized union.  A
    union behind a pointer in a field tagged [selector:Select,sized] is
    decoded without error, although marshalling the decoded value is
    refused as both sized and a union; stored by value, the sized union
    is refused on both sides, but on the unmarshal side with the error
    of a sized struct that was not reached through a pointer. *)
Theorem unmarshal_accepts_sized_union :
  let rt := Examples.rtU in
  let T := Examples.TestSizedUnionContainer in
  UnmarshalFromBytes rt 6 Examples.sizedUnionBytes [Some (TPtr T, VPtr (Zero T))]
    = Some ([Some (TPtr T, VPtr Examples.sizedUnionValue)], 10, None)
  /\
  MarshalToBytes rt 6 [Some (T, Examples.sizedUnionValue)]
    = Some ([], Some (structError T
        (Errorf "cannot marshal field %s: %v"
           [AString "Union";
            AErr (Errorf "cannot marshal pointer type %s: %v"
                    [AType (TPtr Examples.TestUnion);
                     AErr (structError Examples.TestUnion
                             (errorString "cannot be both sized and a union"))])])))
  /\
  (let V := Examples.TestSizedUnionByValue in
   UnmarshalFromBytes rt 6 Examples.sizedUnionBytes [Some (TPtr V, VPtr (Zero V))]
   = Some ([Some (TPtr V, VPtr (VStruct [VScalar 1; VStruct [VNilIface]]))], 0,
           Some (Errorf "cannot unmarshal struct type %s: %v"
                   [AType V;
                    AErr (Errorf "cannot unmarshal field %s: %v"
                            [AString "Union";
                             AErr (Errorf "cannot unmarshal struct type %s: %v"
                                     [AType Examples.TestUnion;
                                      AErr (Errorf
      "sized struct inside container type %s is not referenced via a pointer"
                                              [AType V])])])]))).
Proof. split; [ | split ]; vm_compute; reflexivity. Qed.

(** ** Fuel is monotone for the unmarshal engine *)

Section UnmarshalMono.

Variable rt : Runtime.
Variables f g : ucallback.
Hypothesis fg : urefines f g.

Lemma unmarshalPtrElem_mono srcBuf outside ptr ctx r :
  unmarshalPtrElem f srcBuf outside ptr ctx = Some r ->
  unmarshalPtrElem g srcBuf outside ptr ctx = Some r.
Proof.
  unfold unmarshalPtrElem.
  destruct (IsNil ptr && negb (CanSet ptr)); auto.
  destruct (f srcBuf _ _) as [[[b d] e] | ] eqn:E; try discriminate.
  rewrite (fg _ _ _ _ E). auto.
Qed.

Lemma unmarshalPtr_mono buf ptr ctx r :
  unmarshalPtr f buf ptr ctx = Some r -> unmarshalPtr g buf ptr ctx = Some r.
Proof.
  unfold unmarshalPtr.
  destruct (_ && _).
  - destruct (makeSizedStructReader buf) as [[buf' [n | ]] [e | ]]; auto;
      apply unmarshalPtrElem_mono.
  - apply unmarshalPtrElem_mono.
Qed.

Lemma unmarshalUnion_mono buf u ctx r :
  unmarshalUnion rt f buf u ctx = Some r -> unmarshalUnion rt g buf u ctx = Some r.
Proof.
  unfold unmarshalUnion.
  destruct (container ctx) as [c | ]; auto.
  destruct (negb (isValidUnionContainer (vType c))); auto.
  destruct (String.eqb _ _); auto.
  destruct (FieldByName c _) as [sv | ]; auto.
  destruct (callSelect rt u sv) as [[st | ] [e | ]]; auto.
  cbv zeta.
  destruct (_ && _ && _); auto.
  destruct (f buf _ _) as [[[b d] e] | ] eqn:E; try discriminate.
  rewrite (fg _ _ _ _ E). auto.
Qed.

Lemma unmarshalFields_mono idx : forall buf s ctx r,
  unmarshalFields f buf s ctx idx = Some r -> unmarshalFields g buf s ctx idx = Some r.
Proof.
  induction idx as [ | i rest IH]; simpl; intros buf s ctx r H; auto.
  destruct (f buf _ _) as [[[b d] e] | ] eqn:E; try discriminate.
  rewrite (fg _ _ _ _ E). destruct e; auto.
Qed.

Lemma unmarshalElems_mono idx : forall buf s ctx r,
  unmarshalElems f buf s ctx idx = Some r -> unmarshalElems g buf s ctx idx = Some r.
Proof.
  induction idx as [ | i rest IH]; simpl; intros buf s ctx r H; auto.
  destruct (f buf _ _) as [[[b d] e] | ] eqn:E; try discriminate.
  rewrite (fg _ _ _ _ E). destruct e; auto.
Qed.

Lemma unmarshalStruct_mono buf s ctx r :
  unmarshalStruct rt f buf s ctx = Some r -> unmarshalStruct rt g buf s ctx = Some r.
Proof.
  unfold unmarshalStruct.
  destruct (_ && negb _); auto.
  destruct (isUnion rt (vType s)).
  - destruct (unmarshalUnion rt f buf s ctx) as [[[b d] [e | ]] | ] eqn:E;
      try discriminate; rewrite (unmarshalUnion_mono _ _ _ _ E); auto.
  - apply unmarshalFields_mono.
Qed.

Lemma unmarshalSlice_mono buf s ctx r :
  unmarshalSlice f buf s ctx = Some r -> unmarshalSlice g buf s ctx = Some r.
Proof.
  unfold unmarshalSlice.
  destruct (type_eqb _ _); auto.
  cbv zeta.
  match goal with
  | |- match ?x with _ => _ end = _ -> _ => destruct x as [[buf' l] [e | ]]
  end; auto.
  destruct (_ && _); auto.
  apply unmarshalElems_mono.
Qed.

Lemma uwrapError_mono (a b : uresult) fmt t r :
  (forall r', a = Some r' -> b = Some r') ->
  uwrapError a fmt t = Some r -> uwrapError b fmt t = Some r.
Proof.
  intros H. destruct a as [[[buf' d] [e | ]] | ]; simpl; try discriminate;
    rewrite (H _ eq_refl); auto.
Qed.

Lemma unmarshalValue_body_mono buf val ctx r :
  unmarshalValue_body rt f buf val ctx = Some r ->
  unmarshalValue_body rt g buf val ctx = Some r.
Proof.
  unfold unmarshalValue_body.
  destruct (hasCustomMarshallerImpl rt (vType val)); auto.
  destruct (ValueKind val); auto;
    apply uwrapError_mono; intros r';
    first [ apply unmarshalPtr_mono | apply unmarshalStruct_mono
          | apply unmarshalSlice_mono ].
Qed.

End UnmarshalMono.

Lemma unmarshalValue_mono rt (n m : nat) :
  (n <= m)%nat -> urefines (unmarshalValue rt n) (unmarshalValue rt m).
Proof.
  revert m. induction n as [ | n IH]; intros m Hle buf val ctx r H.
  - discriminate H.
  - destruct m as [ | m]; [ lia | ].
    simpl in *. eapply unmarshalValue_body_mono; [ | exact H ].
    apply IH. lia.
Qed.

Lemma unmarshalValue_S rt n buf val ctx :
  unmarshalValue rt (S n) buf val ctx =
  unmarshalValue_body rt (unmarshalValue rt n) buf val ctx.
Proof. reflexivity. Qed.

(** ** Reading back what was written *)

Lemma ReadFull_app (bs rest : list byte) n :
  List.length bs = n -> ReadFull (bs ++ rest) n = (rest, bs, None).
Proof.
  intros <-. unfold ReadFull.
  destruct bs as [ | b bs]; [ reflexivity | ].
  cbn [List.length Nat.eqb app].
  replace (S (List.length (bs ++ rest)) <? S (List.length bs))%nat with false.
  - change (b :: bs ++ rest) with ((b :: bs) ++ rest).
    change (S (List.length bs)) with (List.length (b :: bs)).
    rewrite skipn_app, firstn_app, Nat.sub_diag, skipn_all, firstn_all.
    simpl. rewrite app_nil_r. reflexivity.
  - symmetry. apply Nat.ltb_ge. rewrite length_app. lia.
Qed.

Lemma decode_encode k sz x :
  binarySize k = Some sz ->
  scalarInRange k x ->
  decodeScalar k (encodeScalar k sz x) = x.
Proof.
  intros Hsz Hr. unfold decodeScalar, encodeScalar.
  destruct k; simpl in Hsz; try discriminate; injection Hsz as <-;
    unfold scalarInRange in Hr; simpl in Hr;
    rewrite ?be_bytes_length, be_value_be_bytes; simpl isSigned; cbv iota;
    try (rewrite Z.mod_small by lia; reflexivity).
  - (* bool *)
    destruct (Z.eqb_spec x 0) as [-> | Hne]; [ reflexivity | ].
    change (1 mod 2 ^ (Z.of_nat 1 * 8)) with 1. simpl. lia.
  - change (2 ^ (8 * Z.of_nat 1 - 1)) with 128 in *.
    change (2 ^ (Z.of_nat 1 * 8)) with 256. change (2 ^ (8 * Z.of_nat 1)) with 256.
    simpl andb. destruct (Z.leb_spec 128 (x mod 256));
      pose proof (Z.mod_pos_bound x 256); Z.div_mod_to_equations; lia.
  - change (2 ^ (8 * Z.of_nat 2 - 1)) with 32768 in *.
    change (2 ^ (Z.of_nat 2 * 8)) with 65536. change (2 ^ (8 * Z.of_nat 2)) with 65536.
    simpl andb. destruct (Z.leb_spec 32768 (x mod 65536));
      Z.div_mod_to_equations; lia.
  - change (2 ^ (8 * Z.of_nat 4 - 1)) with 2147483648 in *.
    change (2 ^ (Z.of_nat 4 * 8)) with 4294967296.
    change (2 ^ (8 * Z.of_nat 4)) with 4294967296.
    simpl andb. destruct (Z.leb_spec 2147483648 (x mod 4294967296));
      Z.div_mod_to_equations; lia.
  - change (2 ^ (8 * Z.of_nat 8 - 1)) with 9223372036854775808 in *.
    change (2 ^ (Z.of_nat 8 * 8)) with 18446744073709551616.
    change (2 ^ (8 * Z.of_nat 8)) with 18446744073709551616.
    simpl andb.
    destruct (Z.leb_spec 9223372036854775808 (x mod 18446744073709551616));
      Z.div_mod_to_equations; lia.
Qed.

(** ** The round trip, one classification at a time *)

#[local] Arguments marshalValue : simpl never.
#[local] Arguments unmarshalValue : simpl never.

Section RoundTripFacts.

Variable rt : Runtime.

Lemma ctxMatches_ptr ctx c p o ptr :
  ctxMatches ctx c p o ->
  ctxMatches (Some (beginPtrElemCtx (entered ctx) ptr)) c (Some (vType ptr)) o.
Proof. intros (H1 & H2 & H3). repeat split; simpl; assumption. Qed.

Lemma ctxMatches_field ctx s i :
  ctxMatches (Some (beginStructFieldCtx ctx s i)) (Some s) (Some (vType s))
             (parseFieldOptions (fieldTag (TypeField (vType s) i))).
Proof. repeat split. Qed.

Lemma ctxMatches_elem ctx s :
  ctxMatches (Some (beginSliceElemCtx ctx s)) (Some s) (Some (vType s)) noOptions.
Proof. repeat split. Qed.

Lemma ctxMatches_union ctx u :
  ctxMatches (Some (beginUnionDataCtx ctx u)) (Some u) (Some (vType u)) noOptions.
Proof. repeat split. Qed.

Lemma ctxMatches_sized ctx c p o s :
  ctxMatches ctx c p o ->
  ctxMatches (Some (beginSizedStructCtx (entered ctx) s)) c (Some (vType s)) (unsized o).
Proof.
  intros (H1 & H2 & H3). repeat split; simpl; try assumption.
  unfold unsized. rewrite H3. reflexivity.
Qed.

Lemma via_scalar a cm cu p o t x d sz :
  hasCustomMarshallerImpl rt t = false ->
  binarySize (TypeKind t) = Some sz ->
  scalarInRange (TypeKind t) x ->
  RoundTripVia rt a cm cu p o t (VScalar x) d (encodeScalar (TypeKind t) sz x).
Proof.
  intros Hc Hsz Hr. split; intros ctx _.
  - apply marshalsTo_scalar; assumption.
  - exists 1%nat. intros rest.
    rewrite unmarshalValue_S. unfold unmarshalValue_body. simpl vType.
    rewrite Hc. unfold ValueKind, binaryRead. simpl.
    pose proof (binarySize_scalar _ _ Hsz) as Hk.
    destruct (TypeKind t) eqn:Ek; try contradiction;
      rewrite Hsz, (ReadFull_app _ _ _ (encodeScalar_length _ sz x));
      rewrite (decode_encode _ _ _ Hsz Hr); reflexivity.
Qed.

Lemma via_ptr a cm cu p o e v d d' b :
  hasCustomMarshallerImpl rt (TPtr e) = false ->
  sized o && Kind_eqb (TypeKind e) reflect.Struct = false ->
  pointeeDest e d d' ->
  RoundTripVia rt true cm cu (Some (TPtr e)) o e v d' b ->
  RoundTripVia rt a cm cu p o (TPtr e) (VPtr v) d b.
Proof.
  intros Hc Hs Hd [HM HU]. split; intros ctx Hctx.
  - apply marshalsTo_ptr_elem; try reflexivity; try assumption.
    apply HM. apply (ctxMatches_ptr ctx cm p o (mkValue (TPtr e) (VPtr v) a) Hctx).
  - destruct (HU (Some (beginPtrElemCtx (entered ctx) (mkValue (TPtr e) d true))))
      as [n Hn].
    { apply (ctxMatches_ptr ctx cu p o (mkValue (TPtr e) d true) Hctx). }
    exists (S n). intros rest.
    rewrite unmarshalValue_S. unfold unmarshalValue_body. simpl vType.
    rewrite Hc. unfold ValueKind. simpl TypeKind. cbv iota.
    unfold unmarshalPtr. simpl vType. simpl TypeElem.
    destruct Hctx as (_ & _ & Ho). rewrite Ho, Hs.
    unfold unmarshalPtrElem, CanSet. simpl CanAddr.
    rewrite andb_false_r.
    destruct Hd as [[-> ->] | ->]; unfold IsNil; simpl vData; cbv iota;
      unfold Elem; simpl; unfold beginPtrElemCtx in Hn; simpl in Hn;
      rewrite Hn, app_nil_r; reflexivity.
Qed.

Lemma via_sized_nil a cm cu p o e :
  hasCustomMarshallerImpl rt (TPtr e) = false ->
  TypeKind e = reflect.Struct ->
  sized o = true ->
  RoundTripVia rt a cm cu p o (TPtr e) VNilPtr VNilPtr [Byte.x00; Byte.x00].
Proof.
  intros Hc Hk Hs. split; intros ctx (_ & _ & Ho).
  - exists 1%nat. intros w. rewrite marshalValue_S. unfold marshalValue_body.
    simpl vType. rewrite Hc. unfold ValueKind. simpl TypeKind. cbv iota.
    unfold marshalPtr. simpl. rewrite Ho, Hs, Hk. reflexivity.
  - exists 1%nat. intros rest. rewrite unmarshalValue_S. unfold unmarshalValue_body.
    simpl vType. rewrite Hc. unfold ValueKind. simpl TypeKind. cbv iota.
    unfold unmarshalPtr. simpl vType. simpl TypeElem. rewrite Ho, Hs, Hk.
    reflexivity.
Qed.

End RoundTripFacts.

(** ** The loops of the unmarshal engine *)

Lemma updateNth_decoded (vs ds : list value) i :
  (i < List.length vs)%nat -> (i < List.length ds)%nat ->
  updateNth i (nth i vs VOpaque) (firstn i vs ++ skipn i ds)
  = firstn (S i) vs ++ skipn (S i) ds.
Proof.
  revert vs ds. induction i as [ | i IH]; intros vs ds Hv Hd;
    destruct vs as [ | v vs]; destruct ds as [ | d ds]; simpl in *; try lia.
  - reflexivity.
  - f_equal. apply IH; lia.
Qed.

Lemma nth_decoded (vs ds : list value) i :
  (i <= List.length vs)%nat ->
  nth i (firstn i vs ++ skipn i ds) VOpaque = nth i ds VOpaque.
Proof.
  intros Hi. rewrite app_nth2; rewrite length_firstn, Nat.min_l by lia; [ | lia ].
  rewrite Nat.sub_diag, nth_skipn, Nat.add_0_r. reflexivity.
Qed.

Lemma decoded_all (vs ds : list value) :
  List.length ds = List.length vs ->
  firstn (List.length vs) vs ++ skipn (List.length vs) ds = vs.
Proof.
  intros H. rewrite firstn_all, <- H, skipn_all. apply app_nil_r.
Qed.

Section UnmarshalLoops.

Variable rt : Runtime.

Lemma unmarshalsFrom_common_fuel (b : nat -> list byte) (val : nat -> Value)
  (ctx : nat -> option muContext) (d : nat -> value) idx :
  (forall i, In i idx -> unmarshalsFrom rt (b i) (val i) (ctx i) (d i)) ->
  exists n, forall i, In i idx -> forall m, (n <= m)%nat -> forall rest,
    unmarshalValue rt m (b i ++ rest) (val i) (ctx i) = Some (rest, d i, None).
Proof.
  intros H.
  apply (common_fuel
           (fun i n => forall rest,
                unmarshalValue rt n (b i ++ rest) (val i) (ctx i)
                = Some (rest, d i, None))).
  - intros i n m Hn Hle rest. apply (unmarshalValue_mono rt n m Hle). apply Hn.
  - exact H.
Qed.

Lemma unmarshalFields_decode n t ctx vs ds (enc : nat -> list byte) :
  List.length ds = List.length vs ->
  (forall i, (i < List.length vs)%nat -> forall rest,
      unmarshalValue rt n (enc i ++ rest)
        (Field (mkValue t (VStruct (firstn i vs ++ skipn i ds)) true) i)
        (Some (beginStructFieldCtx ctx
                 (mkValue t (VStruct (firstn i vs ++ skipn i ds)) true) i))
      = Some (rest, nth i vs VOpaque, None)) ->
  forall j k, (k + j = List.length vs)%nat -> forall rest,
    unmarshalFields (unmarshalValue rt n) (flat_map enc (seq k j) ++ rest)
      (mkValue t (VStruct (firstn k vs ++ skipn k ds)) true) ctx (seq k j)
    = Some (rest, VStruct vs, None).
Proof.
  intros Hlen H. induction j as [ | j IH]; intros k Hk rest.
  - simpl. rewrite Nat.add_0_r in Hk. subst k.
    rewrite (decoded_all vs ds Hlen). reflexivity.
  - cbn [seq flat_map unmarshalFields]. rewrite <- app_assoc.
    rewrite H by lia. simpl vType. simpl vData. simpl structData. simpl CanAddr.
    rewrite updateNth_decoded by lia.
    apply IH. lia.
Qed.

Lemma unmarshalElems_decode n t ctx vs ds (enc : nat -> list byte) :
  List.length ds = List.length vs ->
  (forall i, (i < List.length vs)%nat -> forall rest,
      unmarshalValue rt n (enc i ++ rest)
        (Index (mkValue t (VSlice (firstn i vs ++ skipn i ds)) true) i)
        (Some (beginSliceElemCtx ctx
                 (mkValue t (VSlice (firstn i vs ++ skipn i ds)) true)))
      = Some (rest, nth i vs VOpaque, None)) ->
  forall j k, (k + j = List.length vs)%nat -> forall rest,
    unmarshalElems (unmarshalValue rt n) (flat_map enc (seq k j) ++ rest)
      (mkValue t (VSlice (firstn k vs ++ skipn k ds)) true) ctx (seq k j)
    = Some (rest, VSlice vs, None).
Proof.
  intros Hlen H. induction j as [ | j IH]; intros k Hk rest.
  - simpl. rewrite Nat.add_0_r in Hk. subst k.
    rewrite (decoded_all vs ds Hlen). reflexivity.
  - cbn [seq flat_map unmarshalElems]. rewrite <- app_assoc.
    rewrite H by lia. simpl vType. simpl vData. simpl sliceData. simpl CanAddr.
    rewrite updateNth_decoded by lia.
    apply IH. lia.
Qed.

End UnmarshalLoops.

Section StructFacts.

Variable rt : Runtime.

Lemma marshalValue_struct n W (Wr : Writer W) buf s ctx :
  TypeKind (vType s) = reflect.Struct ->
  hasCustomMarshallerImpl rt (vType s) = false ->
  isUnion rt (vType s) = false ->
  sized (options (entered ctx)) = false ->
  marshalValue rt (S n) W Wr buf s ctx =
  wrapError (marshalFields (marshalValue rt n) buf s (entered ctx) (seq 0 (NumField s)))
            "cannot marshal struct type %s: %v" (vType s).
Proof.
  intros Hk Hc Hu Hs. rewrite marshalValue_S. unfold marshalValue_body.
  rewrite Hc. unfold ValueKind. rewrite Hk. unfold marshalStruct.
  rewrite Hs, Hu. reflexivity.
Qed.

Lemma unmarshalValue_struct n buf s ctx :
  TypeKind (vType s) = reflect.Struct ->
  hasCustomMarshallerImpl rt (vType s) = false ->
  isUnion rt (vType s) = false ->
  sized (options (entered ctx)) && negb (arrivedFromPointer (entered ctx) s) = false ->
  unmarshalValue rt (S n) buf s ctx =
  uwrapError (unmarshalFields (unmarshalValue rt n) buf s (entered ctx)
                (seq 0 (NumField s)))
             "cannot unmarshal struct type %s: %v" (vType s).
Proof.
  intros Hk Hc Hu Hs. rewrite unmarshalValue_S. unfold unmarshalValue_body.
  rewrite Hc. unfold ValueKind. rewrite Hk. unfold unmarshalStruct.
  rewrite Hs, Hu. reflexivity.
Qed.

(** The loop over the fields reads the context for its depth only. *)
Lemma unmarshalFields_depth f idx : forall buf s c c',
  depth c = depth c' ->
  unmarshalFields f buf s c idx = unmarshalFields f buf s c' idx.
Proof.
  induction idx as [ | i rest IH]; intros buf s c c' Hd; simpl; [ reflexivity | ].
  unfold beginStructFieldCtx. rewrite Hd.
  destruct (f buf _ _) as [[[b d] [e | ]] | ]; try reflexivity.
  apply IH. exact Hd.
Qed.

Lemma via_struct a cm cu p o name fields vs ds :
  hasCustomMarshallerImpl rt (TStruct name fields) = false ->
  isUnion rt (TStruct name fields) = false ->
  sized o = false ->
  List.length vs = List.length fields ->
  List.length ds = List.length fields ->
  (forall i f vi di,
      nth_error fields i = Some f ->
      nth_error vs i = Some vi ->
      nth_error ds i = Some di ->
      exists b,
        RoundTripVia rt a
          (Some (mkValue (TStruct name fields) (VStruct vs) a))
          (Some (mkValue (TStruct name fields) (VStruct (firstn i vs ++ skipn i ds)) true))
          (Some (TStruct name fields)) (parseFieldOptions (fieldTag f))
          (fieldType f) vi di b) ->
  exists b, RoundTripVia rt a cm cu p o (TStruct name fields) (VStruct vs) (VStruct ds) b.
Proof.
  intros Hc Hu Hs Hlv Hld Hfields.
  set (T := TStruct name fields) in *.
  set (sm := mkValue T (VStruct vs) a) in *.
  set (su := fun i => mkValue T (VStruct (firstn i vs ++ skipn i ds)) true) in *.
  destruct (finite_choice
              (fun i b => RoundTripVia rt a (Some sm) (Some (su i)) (Some T)
                            (parseFieldOptions (fieldTag (TypeField T i)))
                            (fieldType (TypeField T i))
                            (nth i vs VOpaque) (nth i ds VOpaque) b)
              (List.length fields)) as [enc Henc].
  { intros i Hi. apply Hfields.
    - unfold TypeField. simpl TypeFields. apply nth_error_nth'. exact Hi.
    - apply nth_error_nth'. lia.
    - apply nth_error_nth'. lia. }
  exists (flat_map enc (seq 0 (List.length fields))).
  split; intros ctx Hctx.
  - destruct (marshalsTo_common_fuel rt (fun i => Field sm i)
                (fun i => Some (beginStructFieldCtx (entered ctx) sm i)) enc
                (seq 0 (List.length fields))) as [n Hn].
    { intros i Hi. apply in_seq in Hi.
      apply (proj1 (Henc i ltac:(lia))). apply ctxMatches_field. }
    exists (S n). intros w.
    destruct Hctx as (_ & _ & Ho).
    rewrite marshalValue_struct; try assumption; try reflexivity;
      [ | rewrite Ho; exact Hs ].
    change (NumField sm) with (List.length fields).
    rewrite (marshalFields_append rt n sm (entered ctx) enc); [ reflexivity | ].
    intros i Hi w'. apply Hn; [ exact Hi | lia ].
  - destruct (unmarshalsFrom_common_fuel rt enc
                (fun i => mkValue (fieldType (TypeField T i)) (nth i ds VOpaque) true)
                (fun i => Some (beginStructFieldCtx (entered ctx) (su i) i))
                (fun i => nth i vs VOpaque)
                (seq 0 (List.length fields))) as [n Hn].
    { intros i Hi. apply in_seq in Hi.
      apply (proj2 (Henc i ltac:(lia))). apply ctxMatches_field. }
    exists (S n). intros rest.
    destruct Hctx as (_ & _ & Ho).
    rewrite unmarshalValue_struct; try assumption; try reflexivity;
      [ | rewrite Ho, Hs; reflexivity ].
    change (NumField (mkValue T (VStruct ds) true)) with (List.length fields).
    change (mkValue T (VStruct ds) true) with (su 0%nat).
    rewrite <- Hlv.
    rewrite (unmarshalFields_decode rt n T (entered ctx) vs ds enc);
      [ reflexivity | lia | | lia ].
    intros i Hi rest'. unfold Field. simpl vType. simpl vData. simpl structData.
    rewrite nth_decoded by lia.
    apply Hn; [ apply in_seq; lia | lia ].
Qed.

End StructFacts.

Section SizedFacts.

Variable rt : Runtime.

Lemma hasCustomMarshallerImpl_elem e :
  TypeKind e <> reflect.Ptr ->
  hasCustomMarshallerImpl rt e = hasCustomMarshallerImpl rt (TPtr e).
Proof.
  intros Hk. unfold hasCustomMarshallerImpl, Kind_eqb. simpl.
  destruct (Kind_eq_dec (TypeKind e) reflect.Ptr); [ contradiction | reflexivity ].
Qed.

Lemma read_size (b rest : list byte) :
  0 < Z.of_nat (List.length b) < 2 ^ 16 ->
  makeSizedStructReader (be_bytes 2 (uint16 (Z.of_nat (List.length b))) ++ b ++ rest)
  = (b ++ rest, Some (List.length b), None).
Proof.
  intros Hb. unfold makeSizedStructReader.
  rewrite (ReadFull_app _ _ 2 (be_bytes_length 2 _)).
  rewrite uint16_be_value, Z.mod_small by lia.
  destruct (Z.eqb_spec (Z.of_nat (List.length b)) 0); [ lia | ].
  rewrite Nat2Z.id. reflexivity.
Qed.

Lemma via_sized_ptr a cm cu p o e v d d' b n payload :
  hasCustomMarshallerImpl rt (TPtr e) = false ->
  TypeKind e = reflect.Struct ->
  isUnion rt e = false ->
  sized o = true ->
  pointeeDest e d d' ->
  RoundTripVia rt true cm cu (Some e) (unsized o) e v d' b ->
  marshalValue rt n bytesBuffer bytesBuffer_Writer [] (mkValue e v true)
    (Some (mkContext 0 cm (Some e) (unsized o))) = Some (payload, None) ->
  0 < Z.of_nat (List.length payload) < 2 ^ 16 ->
  RoundTripVia rt a cm cu p o (TPtr e) (VPtr v) d
    (be_bytes 2 (uint16 (Z.of_nat (List.length b))) ++ b).
Proof.
  intros Hc Hk Hu Hs Hd [HM HU] Hp Hlen.
  assert (Hce : hasCustomMarshallerImpl rt e = false).
  { rewrite hasCustomMarshallerImpl_elem; [ exact Hc | rewrite Hk; discriminate ]. }
  assert (payload = b) as ->.
  { apply (marshalsTo_deterministic rt _ _ _ _ _
             (HM (Some (mkContext 0 cm (Some e) (unsized o)))
                 (conj eq_refl (conj eq_refl eq_refl))) Hp). }
  split; intros ctx Hctx.
  - set (ptr := mkValue (TPtr e) (VPtr v) a).
    apply marshalsTo_ptr_elem; try reflexivity; try assumption.
    change (Elem ptr) with (mkValue e v true).
    set (ctx' := Some (beginPtrElemCtx (entered ctx) ptr)).
    assert (Hctx' : ctxMatches ctx' cm (Some (TPtr e)) o)
      by apply (ctxMatches_ptr ctx cm p o ptr Hctx).
    destruct (HM _ (ctxMatches_sized ctx' cm _ o (mkValue e v true) Hctx')) as [m Hm].
    apply (marshalsTo_sized_struct rt (mkValue e v true) ctx' m b); try assumption.
    + destruct Hctx' as (_ & _ & ->). exact Hs.
    + unfold arrivedFromPointer. destruct Hctx' as (_ & -> & _). apply type_eqb_refl.
    + apply (Hm []).
  - set (c1 := beginPtrElemCtx (entered ctx) (mkValue (TPtr e) d true)).
    set (c2 := mkContext (depth (entered ctx)) cu (Some e) (unsized o)).
    destruct (HU (Some c2)) as [m Hm]; [ repeat split | ].
    destruct m as [ | m]; [ discriminate (Hm []) | ].
    exists (S (S m)). intros rest.
    rewrite unmarshalValue_S. unfold unmarshalValue_body. simpl vType.
    rewrite Hc. unfold ValueKind. simpl TypeKind. cbv iota.
    unfold unmarshalPtr. simpl vType. simpl TypeElem.
    destruct Hctx as (Hcu & _ & Ho). rewrite Ho, Hs, Hk, Kind_eqb_refl.
    cbn [andb].
    rewrite <- app_assoc, (read_size b rest Hlen).
    rewrite firstn_app, Nat.sub_diag, firstn_all, skipn_app, Nat.sub_diag, skipn_all.
    cbn [firstn skipn app]. rewrite app_nil_r.
    unfold unmarshalPtrElem, CanSet. cbn [CanAddr]. rewrite andb_false_r.
    assert (Hval : unmarshalValue rt (S m) b (mkValue e d' true) (Some c1)
                   = Some ([], v, None)).
    { pose proof (Hm []) as Hm0. rewrite app_nil_r in Hm0.
      rewrite unmarshalValue_struct in Hm0 |- *; try assumption; try reflexivity.
      - rewrite (unmarshalFields_depth _ _ _ _ (entered (Some c1)) (entered (Some c2)));
          [ exact Hm0 | reflexivity ].
      - simpl. unfold arrivedFromPointer. simpl. unfold PtrTo.
        rewrite type_eqb_refl. apply andb_false_r. }
    destruct Hd as [[-> ->] | ->]; unfold IsNil; cbn [vData vType];
      unfold Elem; cbn [vData vType TypeElem];
      change (beginPtrElemCtx (entered ctx) _) with c1; rewrite Hval; reflexivity.
Qed.

End SizedFacts.

Section UnionFacts.

Variable rt : Runtime.

Lemma unmarshalValue_union n buf u ctx :
  isUnion rt (vType u) = true ->
  hasCustomMarshallerImpl rt (vType u) = false ->
  sized (options (entered ctx)) = false ->
  unmarshalValue rt (S n) buf u ctx =
  match unmarshalUnion rt (unmarshalValue rt n) buf u (entered ctx) with
  | Some (buf', d, Some err) =>
      Some (buf', d,
            Some (Errorf "cannot unmarshal struct type %s: %v"
                    [AType (vType u);
                     AErr (Errorf "error unmarshalling union struct: %v" [AErr err])]))
  | r => r
  end.
Proof.
  intros HU HC HS. rewrite unmarshalValue_S. unfold unmarshalValue_body. rewrite HC.
  unfold ValueKind. rewrite (isUnion_Struct rt _ HU).
  unfold unmarshalStruct. rewrite HS, HU. simpl.
  destruct (unmarshalUnion _ _ _ _ _) as [[[buf' d] [e | ]] | ]; reflexivity.
Qed.

Lemma marshalUnion_selects f W (Wr : Writer W) buf u ctx r :
  selects rt (container ctx) (options ctx) u r ->
  marshalUnion rt f buf u ctx =
  match r with
  | None => Some (buf, None)
  | Some selectedType =>
      let d := storedData u selectedType in
      if negb (type_eqb (vType d) selectedType) then
        if negb (ConvertibleTo rt (vType d) selectedType) then
          Some (buf, Some (Errorf "data has incorrect type %s (expected %s)"
                             [AType (vType d); AType selectedType]))
        else
          f W Wr buf
            (mkValue selectedType (Convert rt (vData d) (vType d) selectedType) false)
            (Some (beginUnionDataCtx ctx u))
      else f W Wr buf d (Some (beginUnionDataCtx ctx u))
  end.
Proof.
  intros (c & sv & Hc & Hk & Hs & Hf & Hsel). unfold marshalUnion.
  rewrite Hc. unfold isValidUnionContainer. rewrite Hk. simpl negb. cbv iota.
  rewrite (proj2 (String.eqb_neq _ _) Hs), Hf, Hsel.
  destruct r; reflexivity.
Qed.

Lemma unmarshalUnion_selects f buf u ctx r :
  selects rt (container ctx) (options ctx) u r ->
  unmarshalUnion rt f buf u ctx =
  match r with
  | None => Some (buf, vData u, None)
  | Some selectedType =>
      let fld := Field u 0 in
      let fieldIsInterface :=
        Kind_eqb (TypeKind (fieldType (TypeField (vType u) 0))) reflect.Interface in
      if fieldIsInterface && IsNil fld && negb (CanSet fld) then
        Some (buf, vData u, Some (errorString "cannot set data"))
      else
        let d :=
          if fieldIsInterface then
            if IsNil fld then NewElem selectedType else Elem fld
          else fld in
        match f buf d (Some (beginUnionDataCtx ctx u)) with
        | None => None
        | Some (buf', d', Some err) =>
            Some (buf',
                  (if fieldIsInterface then
                     if IsNil fld then vData u else VStruct [VIface (vType d) d']
                   else VStruct [d']),
                  Some (Errorf "cannot unmarshal data value: %v" [AErr err]))
        | Some (buf', d', None) =>
            Some (buf',
                  VStruct [if fieldIsInterface then VIface (vType d) d' else d'],
                  None)
        end
  end.
Proof.
  intros (c & sv & Hc & Hk & Hs & Hf & Hsel). unfold unmarshalUnion.
  rewrite Hc. unfold isValidUnionContainer. rewrite Hk. simpl negb. cbv iota.
  rewrite (proj2 (String.eqb_neq _ _) Hs), Hf, Hsel.
  destruct r; reflexivity.
Qed.

Lemma selects_ctx ctx c p o u r :
  ctxMatches ctx c p o ->
  selects rt c o u r ->
  selects rt (container (entered ctx)) (options (entered ctx)) u r.
Proof. intros (-> & _ & ->) H. exact H. Qed.

Lemma via_union_nodata a cm cu p o t v :
  isUnion rt t = true ->
  hasCustomMarshallerImpl rt t = false ->
  sized o = false ->
  selects rt cm o (mkValue t v a) None ->
  selects rt cu o (mkValue t v true) None ->
  RoundTripVia rt a cm cu p o t v v [].
Proof.
  intros Hu Hc Hs Hm Hu'. split; intros ctx Hctx.
  - exists 1%nat. intros w.
    rewrite marshalValue_union; try assumption;
      [ | destruct Hctx as (_ & _ & ->); exact Hs ].
    rewrite (marshalUnion_selects _ _ _ _ _ _ _ (selects_ctx _ _ _ _ _ _ Hctx Hm)).
    rewrite app_nil_r. reflexivity.
  - exists 1%nat. intros rest.
    rewrite unmarshalValue_union; try assumption;
      [ | destruct Hctx as (_ & _ & ->); exact Hs ].
    rewrite (unmarshalUnion_selects _ _ _ _ _ (selects_ctx _ _ _ _ _ _ Hctx Hu')).
    reflexivity.
Qed.

Lemma via_union_iface a cm cu p o name fname iname tag st x b :
  let t := TStruct name [mkField fname (TInterface iname 0) tag] in
  isUnion rt t = true ->
  hasCustomMarshallerImpl rt t = false ->
  sized o = false ->
  selects rt cm o (mkValue t (VStruct [VIface st x]) a) (Some st) ->
  selects rt cu o (mkValue t (VStruct [VNilIface]) true) (Some st) ->
  RoundTripVia rt false
    (Some (mkValue t (VStruct [VIface st x]) a))
    (Some (mkValue t (VStruct [VNilIface]) true))
    (Some t) noOptions st x (Zero st) b ->
  RoundTripVia rt a cm cu p o t (VStruct [VIface st x]) (VStruct [VNilIface]) b.
Proof.
  intros t Hu Hc Hs Hm Hu' [HM HU]. subst t. split; intros ctx Hctx.
  - destruct (HM (Some (beginUnionDataCtx (entered ctx)
                          (mkValue (TStruct name [mkField fname (TInterface iname 0) tag])
                                   (VStruct [VIface st x]) a)))
                (ctxMatches_union _ _)) as [n Hn].
    exists (S n). intros w.
    rewrite marshalValue_union; try assumption;
      [ | destruct Hctx as (_ & _ & ->); exact Hs ].
    rewrite (marshalUnion_selects _ _ _ _ _ _ _ (selects_ctx _ _ _ _ _ _ Hctx Hm)).
    unfold storedData, Field, IsNil, Elem. cbn [vType vData TypeField TypeFields nth
      fieldType TypeKind structData]. rewrite Kind_eqb_refl. cbv iota.
    cbn [vType]. rewrite type_eqb_refl. cbn [negb]. rewrite Hn. reflexivity.
  - destruct (HU (Some (beginUnionDataCtx (entered ctx)
                          (mkValue (TStruct name [mkField fname (TInterface iname 0) tag])
                                   (VStruct [VNilIface]) true)))
                (ctxMatches_union _ _)) as [n Hn].
    exists (S n). intros rest.
    rewrite unmarshalValue_union; try assumption;
      [ | destruct Hctx as (_ & _ & ->); exact Hs ].
    rewrite (unmarshalUnion_selects _ _ _ _ _ (selects_ctx _ _ _ _ _ _ Hctx Hu')).
    unfold Field, IsNil, CanSet, NewElem. cbn [vType vData TypeField TypeFields nth
      fieldType TypeKind structData CanAddr]. rewrite Kind_eqb_refl.
    cbn [andb negb]. cbv iota. rewrite Hn. reflexivity.
Qed.

Lemma via_union_field a cm cu p o name fname ft tag x dx b :
  let t := TStruct name [mkField fname ft tag] in
  isUnion rt t = true ->
  hasCustomMarshallerImpl rt t = false ->
  sized o = false ->
  TypeKind ft <> reflect.Interface ->
  selects rt cm o (mkValue t (VStruct [x]) a) (Some ft) ->
  selects rt cu o (mkValue t (VStruct [dx]) true) (Some ft) ->
  RoundTripVia rt a (Some (mkValue t (VStruct [x]) a))
    (Some (mkValue t (VStruct [dx]) true)) (Some t) noOptions ft x dx b ->
  RoundTripVia rt a cm cu p o t (VStruct [x]) (VStruct [dx]) b.
Proof.
  intros t Hu Hc Hs Hk Hm Hu' [HM HU]. subst t.
  assert (Hki : Kind_eqb (TypeKind ft) reflect.Interface = false).
  { unfold Kind_eqb. destruct (Kind_eq_dec _ _); [ contradiction | reflexivity ]. }
  split; intros ctx Hctx.
  - destruct (HM (Some (beginUnionDataCtx (entered ctx)
                          (mkValue (TStruct name [mkField fname ft tag]) (VStruct [x]) a)))
                (ctxMatches_union _ _)) as [n Hn].
    exists (S n). intros w.
    rewrite marshalValue_union; try assumption;
      [ | destruct Hctx as (_ & _ & ->); exact Hs ].
    rewrite (marshalUnion_selects _ _ _ _ _ _ _ (selects_ctx _ _ _ _ _ _ Hctx Hm)).
    unfold storedData, Field. cbn [vType vData TypeField TypeFields nth
      fieldType structData CanAddr]. rewrite Hki. cbn [vType].
    rewrite type_eqb_refl. cbn [negb]. rewrite Hn. reflexivity.
  - destruct (HU (Some (beginUnionDataCtx (entered ctx)
                          (mkValue (TStruct name [mkField fname ft tag]) (VStruct [dx]) true)))
                (ctxMatches_union _ _)) as [n Hn].
    exists (S n). intros rest.
    rewrite unmarshalValue_union; try assumption;
      [ | destruct Hctx as (_ & _ & ->); exact Hs ].
    rewrite (unmarshalUnion_selects _ _ _ _ _ (selects_ctx _ _ _ _ _ _ Hctx Hu')).
    unfold Field. cbn [vType vData TypeField TypeFields nth
      fieldType structData CanAddr]. rewrite Hki.
    cbn [andb]. cbv iota. rewrite Hn. reflexivity.
Qed.

End UnionFacts.

Section SliceRoundTrip.

Variable rt : Runtime.

Lemma uint32_be_value x : be_value (be_bytes 4 (uint32 x)) = x mod 2 ^ 32.
Proof.
  rewrite be_value_be_bytes. unfold uint32.
  change (Z.of_nat 4 * 8) with 32. apply Z.mod_mod. lia.
Qed.

Lemma unmarshalValue_slice n buf slice ctx :
  TypeKind (vType slice) = reflect.Slice ->
  hasCustomMarshallerImpl rt (vType slice) = false ->
  unmarshalValue rt (S n) buf slice ctx =
  uwrapError (unmarshalSlice (unmarshalValue rt n) buf slice (entered ctx))
             "cannot unmarshal slice type %s: %v" (vType slice).
Proof.
  intros Hk Hc. rewrite unmarshalValue_S. unfold unmarshalValue_body.
  rewrite Hc. unfold ValueKind. rewrite Hk. reflexivity.
Qed.

Lemma via_slice a cm cu p o name e vs d ds :
  hasCustomMarshallerImpl rt (TSlice name e) = false ->
  TSlice name e <> rawBytesType ->
  (if raw o then d = VSlice ds /\ List.length ds = List.length vs
   else elemsDest e (List.length vs) d ds
        /\ Z.of_nat (List.length vs)
           < (if isSizedBuffer (TSlice name e) then 2 ^ 16 else 2 ^ 32)) ->
  (forall i vi di,
      nth_error vs i = Some vi ->
      nth_error ds i = Some di ->
      exists b,
        RoundTripVia rt true
          (Some (mkValue (TSlice name e) (VSlice vs) a))
          (Some (mkValue (TSlice name e) (VSlice (firstn i vs ++ skipn i ds)) true))
          (Some (TSlice name e)) noOptions e vi di b) ->
  exists b, RoundTripVia rt a cm cu p o (TSlice name e) (VSlice vs) d b.
Proof.
  intros Hc Hne Hdest Helems.
  set (T := TSlice name e) in *.
  set (sm := mkValue T (VSlice vs) a) in *.
  set (su := fun i => mkValue T (VSlice (firstn i vs ++ skipn i ds)) true) in *.
  assert (Hraw : type_eqb T rawBytesType = false) by (apply type_eqb_false; exact Hne).
  assert (Hlen : List.length ds = List.length vs).
  { destruct (raw o); [ tauto | ].
    destruct Hdest as [[[_ ->] | [_ H]] _]; [ apply repeat_length | exact H ]. }
  destruct (finite_choice
              (fun i b => RoundTripVia rt true (Some sm) (Some (su i)) (Some T)
                            noOptions e (nth i vs VOpaque) (nth i ds VOpaque) b)
              (List.length vs)) as [enc Henc].
  { intros i Hi. apply Helems; apply nth_error_nth'; lia. }
  exists (sizeField o T (List.length vs) ++ flat_map enc (seq 0 (List.length vs))).
  split; intros ctx Hctx.
  - destruct Hctx as (_ & _ & Ho). rewrite <- Ho.
    apply (marshalsTo_slice rt sm ctx enc eq_refl Hc Hraw).
    intros i Hi. apply (proj1 (Henc i Hi)). apply ctxMatches_elem.
  - destruct (unmarshalsFrom_common_fuel rt enc
                (fun i => mkValue e (nth i ds VOpaque) true)
                (fun i => Some (beginSliceElemCtx (entered ctx) (su i)))
                (fun i => nth i vs VOpaque)
                (seq 0 (List.length vs))) as [n Hn].
    { intros i Hi. apply in_seq in Hi.
      apply (proj2 (Henc i ltac:(lia))). apply ctxMatches_elem. }
    assert (Hloop : forall rest,
               unmarshalElems (unmarshalValue rt n)
                 (flat_map enc (seq 0 (List.length vs)) ++ rest)
                 (mkValue T (VSlice ds) true) (entered ctx) (seq 0 (List.length vs))
               = Some (rest, VSlice vs, None)).
    { intros rest. change (mkValue T (VSlice ds) true) with (su 0%nat).
      apply (unmarshalElems_decode rt n T (entered ctx) vs ds enc Hlen); [ | lia ].
      intros i Hi rest'. unfold Index. cbn [vType vData sliceData TypeElem].
      rewrite nth_decoded by lia. apply Hn; [ apply in_seq; lia | lia ]. }
    exists (S n). intros rest.
    rewrite unmarshalValue_slice by (try reflexivity; exact Hc).
    unfold unmarshalSlice. cbn [vType]. fold T. rewrite Hraw. cbv zeta.
    destruct Hctx as (_ & _ & Ho). rewrite Ho. unfold sizeField.
    destruct (raw o).
    + destruct Hdest as [-> _]. unfold IsNil. cbn [vData app]. cbv iota.
      cbn [andb]. unfold Len. cbn [vData sliceData]. rewrite Hlen, Hloop.
      reflexivity.
    + destruct Hdest as [Hd Hbound].
      assert (Hfit : Z.of_nat (List.length vs) mod
                     (if isSizedBuffer T then 2 ^ 16 else 2 ^ 32)
                     = Z.of_nat (List.length vs)).
      { apply Z.mod_small. lia. }
      destruct (isSizedBuffer T) eqn:Esb; rewrite <- app_assoc;
        [ rewrite (ReadFull_app _ _ 2 (be_bytes_length 2 _)), uint16_be_value
        | rewrite (ReadFull_app _ _ 4 (be_bytes_length 4 _)), uint32_be_value ];
        rewrite Hfit; unfold CanSet; cbn [CanAddr negb]; rewrite andb_false_r;
        (destruct Hd as [[-> Hds] | [-> _]]; unfold IsNil; cbn [vData]; cbv iota;
         [ unfold MakeSlice, Len; cbn [vData sliceData TypeElem T];
           rewrite Nat2Z.id, repeat_length, <- Hds, Hloop; reflexivity
         | unfold Len; cbn [vData sliceData]; rewrite Hlen, Hloop; reflexivity ]).
Qed.

End SliceRoundTrip.

Section RawAndCustom.

Variable rt : Runtime.

Lemma bytes_back (vs : list value) :
  Forall isByte vs ->
  map (fun b => VScalar (byte.unsigned b))
      (map (fun e => byte.of_Z (scalarData e)) vs) = vs.
Proof.
  induction 1 as [ | v vs (x & -> & Hx) _ IH]; simpl; [ reflexivity | ].
  rewrite IH, byte.unsigned_of_Z. unfold byte.wrap.
  rewrite Z.mod_small by (change (2 ^ 8) with 256; lia). reflexivity.
Qed.

Lemma via_raw_bytes a cm cu p o vs ds :
  hasCustomMarshallerImpl rt rawBytesType = false ->
  Forall isByte vs ->
  List.length ds = List.length vs ->
  RoundTripVia rt a cm cu p o rawBytesType (VSlice vs) (VSlice ds)
    (map (fun e => byte.of_Z (scalarData e)) vs).
Proof.
  intros Hc Hb Hlen. split; intros ctx _.
  - exists 1%nat. intros w. rewrite marshalValue_S. unfold marshalValue_body.
    cbn [vType]. rewrite Hc. reflexivity.
  - exists 1%nat. intros rest.
    rewrite unmarshalValue_slice by (try reflexivity; exact Hc).
    unfold unmarshalSlice. cbn [vType]. rewrite type_eqb_refl.
    unfold IsNil, Len. cbn [vData sliceData]. cbv iota.
    rewrite ReadFull_app by (rewrite length_map; symmetry; exact Hlen).
    unfold readIntoBytes. rewrite length_map, <- Hlen, skipn_all, app_nil_r.
    rewrite (bytes_back vs Hb). reflexivity.
Qed.

Lemma via_custom cm cu p o t impl v d enc :
  TypeKind t <> reflect.Ptr ->
  customMarshallerImpl rt (TPtr t) = Some impl ->
  (forall w : bytesBuffer,
      Marshal impl v bytesBuffer bytesBuffer_Writer w = (w ++ enc, None)) ->
  (forall rest, Unmarshal impl d (enc ++ rest) = (rest, v, None)) ->
  RoundTripVia rt true cm cu p o t v d enc.
Proof.
  intros Hk Himpl Hm Hu.
  assert (Hkb : Kind_eqb (TypeKind t) reflect.Ptr = false).
  { unfold Kind_eqb. destruct (Kind_eq_dec _ _); [ contradiction | reflexivity ]. }
  assert (Hc : hasCustomMarshallerImpl rt t = true).
  { unfold hasCustomMarshallerImpl, Implements_CustomMarshaller, PtrTo.
    rewrite Hkb. cbn [negb]. rewrite Himpl. reflexivity. }
  split; intros ctx _.
  - exists 1%nat. intros w. rewrite marshalValue_S. unfold marshalValue_body.
    cbn [vType]. rewrite Hc. unfold ValueKind. cbn [vType CanAddr].
    rewrite Hkb. cbn [negb andb]. unfold callMarshal, Addr, PtrTo, Elem.
    cbn [vType vData]. rewrite Himpl, Hm. reflexivity.
  - exists 1%nat. intros rest. rewrite unmarshalValue_S. unfold unmarshalValue_body.
    cbn [vType]. rewrite Hc. unfold ValueKind. cbn [vType CanAddr].
    rewrite Hkb. cbn [negb andb]. unfold callUnmarshal, Addr, PtrTo, Elem.
    cbn [vType vData]. rewrite Himpl, Hu. reflexivity.
Qed.

Lemma via_custom_ptr a cm cu p o e impl v d d' enc :
  customMarshallerImpl rt (TPtr e) = Some impl ->
  pointeeDest e d d' ->
  (forall w : bytesBuffer,
      Marshal impl v bytesBuffer bytesBuffer_Writer w = (w ++ enc, None)) ->
  (forall rest, Unmarshal impl d' (enc ++ rest) = (rest, v, None)) ->
  RoundTripVia rt a cm cu p o (TPtr e) (VPtr v) d enc.
Proof.
  intros Himpl Hd Hm Hu.
  assert (Hc : hasCustomMarshallerImpl rt (TPtr e) = true).
  { unfold hasCustomMarshallerImpl, Implements_CustomMarshaller. cbn.
    rewrite Himpl. reflexivity. }
  split; intros ctx _.
  - exists 1%nat. intros w. rewrite marshalValue_S. unfold marshalValue_body.
    cbn [vType]. rewrite Hc. unfold ValueKind. cbn [vType TypeKind].
    rewrite Kind_eqb_refl. cbn [negb andb]. unfold IsNil. cbn [vData]. cbv iota.
    unfold callMarshal, Elem. cbn [vType vData]. rewrite Himpl, Hm. reflexivity.
  - exists 1%nat. intros rest. rewrite unmarshalValue_S. unfold unmarshalValue_body.
    cbn [vType]. rewrite Hc. unfold ValueKind. cbn [vType TypeKind].
    rewrite Kind_eqb_refl. cbn [negb andb]. unfold CanSet. cbn [CanAddr negb].
    rewrite andb_false_r.
    destruct Hd as [[-> ->] | ->]; unfold IsNil; cbn [vData]; cbv iota;
      unfold callUnmarshal, Elem; cbn [vType vData TypeElem];
      rewrite Himpl, Hu; reflexivity.
Qed.

End RawAndCustom.

(** ** Every value of the relation makes the round trip *)

Lemma RoundTrip_sound rt a cm cu p o t v d :
  RoundTrip rt a cm cu p o t v d ->
  exists b, RoundTripVia rt a cm cu p o t v d b.
Proof.
  induction 1.
  - eexists. eapply via_scalar; eassumption.
  - destruct IHRoundTrip as [b Hb]. exists b. eapply via_ptr; eassumption.
  - eexists. apply via_sized_nil; assumption.
  - destruct IHRoundTrip as [b Hb]. eexists. eapply via_sized_ptr; eassumption.
  - apply via_struct; assumption.
  - eexists. apply via_union_nodata; assumption.
  - destruct IHRoundTrip as [b Hb]. exists b. apply via_union_iface; assumption.
  - destruct IHRoundTrip as [b Hb]. exists b. apply via_union_field; assumption.
  - eapply via_slice; eassumption.
  - eexists. apply via_raw_bytes; assumption.
  - eexists. eapply via_custom; eassumption.
  - eexists. eapply via_custom_ptr; eassumption.
Qed.



(** The relation holds of a struct with a field of each classification. *)

Ltac pick_index i Hf Hv Hd :=
  destruct i as [ | i];
  [ cbn in Hf, Hv, Hd; injection Hf as <-; injection Hv as <-; injection Hd as <- | ].

Ltac pick_elem i Hv Hd :=
  destruct i as [ | i];
  [ cbn in Hv, Hd; injection Hv as <-; injection Hd as <- | ].

Ltac rt_scalar := eapply RT_scalar; [ reflexivity | reflexivity | cbn; lia ].

Lemma everything_round_trips :
  RoundTrip Examples.rtAll false None None None noOptions
    Examples.Everything Examples.everything Examples.everythingDest.
Proof.
  apply RT_struct; try reflexivity.
  intros i f vi di Hf Hv Hd.
  pick_index i Hf Hv Hd; [ rt_scalar | ].
  pick_index i Hf Hv Hd.
  { apply RT_union_iface; try reflexivity.
    - eexists _, _. repeat split; try reflexivity. discriminate.
    - eexists _, _. repeat split; try reflexivity. discriminate.
    - rt_scalar. }
  pick_index i Hf Hv Hd.
  { eapply RT_slice;
      [ reflexivity | discriminate
      | cbn; split; [ left; split; reflexivity | cbn; lia ] | ].
    intros j vj dj Hv' Hd'.
    pick_elem j Hv' Hd'; [ rt_scalar | ].
    pick_elem j Hv' Hd'; [ rt_scalar | ].
    destruct j; discriminate. }
  pick_index i Hf Hv Hd.
  { eapply RT_slice;
      [ reflexivity | discriminate
      | cbn; split; [ left; split; reflexivity | cbn; lia ] | ].
    intros j vj dj Hv' Hd'.
    pick_elem j Hv' Hd'; [ rt_scalar | ].
    destruct j; discriminate. }
  pick_index i Hf Hv Hd.
  { eapply (RT_sized_ptr _ _ _ _ _ _ _ _ _ _ 2%nat [Byte.x05]); try reflexivity.
    - left. split; reflexivity.
    - apply RT_struct; try reflexivity.
      intros j fj vj dj Hf' Hv' Hd'.
      pick_index j Hf' Hv' Hd'; [ rt_scalar | ].
      destruct j; discriminate.
    - cbn. lia. }
  pick_index i Hf Hv Hd.
  { eapply RT_ptr; [ reflexivity | reflexivity | left; split; reflexivity | rt_scalar ]. }
  pick_index i Hf Hv Hd.
  { eapply RT_slice; [ reflexivity | discriminate | cbn; split; reflexivity | ].
    intros j vj dj Hv' Hd'.
    pick_elem j Hv' Hd'; [ rt_scalar | ].
    destruct j; discriminate. }
  pick_index i Hf Hv Hd.
  { eapply (RT_custom_ptr _ _ _ _ _ _ _ _ _ _ _ [Byte.xaa; Byte.x06]).
    - reflexivity.
    - left. split; reflexivity.
    - intros w. reflexivity.
    - intros rest. reflexivity. }
  destruct i; discriminate.
Qed.


(** * Further properties *)

(** ** The decoder *)

(** X1: DecodeResponseCode returns no error for the status Success and
    for no other status. *)
Theorem decode_no_error_iff_success :
  forall command status,
    ResponseCode.DecodeResponseCode command status = None
    <-> status = ResponseCode.Success.
Proof.
  intros command status. unfold ResponseCode.DecodeResponseCode.
  destruct (Z.eqb_spec status ResponseCode.Success) as [-> | Hne].
  - split; reflexivity.
  - split; [ | contradiction ].
    repeat match goal with
           | |- context [if ?c then _ else _] => destruct c
           end; discriminate.
Qed.

Lemma bitfield_range status lo width :
  0 <= width -> 0 <= ResponseCode.bitfield status lo width < 2 ^ width.
Proof.
  intros Hw. unfold ResponseCode.bitfield. apply Z.mod_pos_bound.
  apply Z.pow_pos_nonneg; lia.
Qed.

(** X2: whatever the status, the fields of the decoded error lie in the
    ranges of the response code layout: a format-0 code below 2^7, a
    format-1 code below 2^6, a parameter index below 2^4 and a session
    or handle index below 2^3. *)
Theorem decoded_fields_in_range :
  forall command status e,
    ResponseCode.DecodeResponseCode command status = Some e ->
    errorFieldsInRange e.
Proof.
  intros command status e H.
  destruct (Z.testbit status 7) eqn:H7.
  - rewrite (ResponseCodeFacts.decode_format1 _ _ H7) in H.
    unfold ResponseCode.format1_spec in H.
    destruct (Z.testbit status 6); [ | destruct (Z.testbit status 11) ];
      injection H as <-; simpl; split;
      first [ apply Z.mod_pos_bound; lia | apply bitfield_range; lia ].
  - rewrite (ResponseCodeFacts.decode_format0 _ _ H7) in H.
    unfold ResponseCode.format0_spec in H.
    destruct (status =? ResponseCode.Success); [ discriminate | ].
    destruct (negb (Z.testbit status 8)); [ injection H as <-; exact I | ].
    destruct (Z.testbit status 10); [ injection H as <-; exact I | ].
    destruct (Z.testbit status 11); injection H as <-; simpl;
      apply Z.mod_pos_bound; lia.
Qed.

Lemma decoded_fields_in_range_witness :
  ResponseCode.DecodeResponseCode 0x17E 0xFFFFFFFF
    = Some (TPMParameterError 0x17E 0x3F 15)
  /\ errorFieldsInRange (TPMParameterError 0x17E 0x3F 15).
Proof.
  split; [ reflexivity | ].
  exact (decoded_fields_in_range 0x17E 0xFFFFFFFF _ eq_refl).
Defined.

Lemma testbit_low12 status k :
  0 <= k < 12 -> Z.testbit (status mod 2 ^ 12) k = Z.testbit status k.
Proof. intros Hk. apply Z.mod_pow2_bits_low. lia. Qed.

Lemma mod_low12 status n :
  0 <= n <= 12 -> (status mod 2 ^ 12) mod 2 ^ n = status mod 2 ^ n.
Proof.
  intros Hn. rewrite <- !Z.land_ones by lia.
  apply Z.bits_inj'. intros i Hi. rewrite !Z.land_spec.
  destruct (Z.ltb_spec i n).
  - rewrite !Z.ones_spec_low by lia. rewrite !andb_true_r. reflexivity.
  - rewrite (Z.ones_spec_high n) by lia. rewrite !andb_false_r. reflexivity.
Qed.

Lemma bitfield_low12 status width :
  0 <= width <= 4 ->
  ResponseCode.bitfield (status mod 2 ^ 12) 8 width = ResponseCode.bitfield status 8 width.
Proof.
  intros Hw. unfold ResponseCode.bitfield.
  rewrite <- !Z.shiftr_div_pow2, <- !Z.land_ones by lia.
  apply Z.bits_inj'. intros i Hi.
  rewrite !Z.land_spec, !Z.shiftr_spec by lia.
  destruct (Z.ltb_spec i width).
  - rewrite Z.land_spec, (Z.ones_spec_low 12) by lia.
    rewrite andb_true_r. reflexivity.
  - rewrite (Z.ones_spec_high width) by lia. rewrite !andb_false_r. reflexivity.
Qed.

(** X3: a format-1 status (bit 7 set) decodes by its low 12 bits alone:
    the bits above bit 11 change neither the class of the error, nor
    its code, nor its index. *)
Theorem decode_format1_ignores_high_bits :
  forall command status,
    Z.testbit status 7 = true ->
    ResponseCode.DecodeResponseCode command status
    = ResponseCode.DecodeResponseCode command (status mod 2 ^ 12).
Proof.
  intros command status H7.
  rewrite (ResponseCodeFacts.decode_format1 _ _ H7).
  rewrite (ResponseCodeFacts.decode_format1 command (status mod 2 ^ 12))
    by (rewrite testbit_low12 by lia; exact H7).
  unfold ResponseCode.format1_spec.
  rewrite !testbit_low12 by lia.
  rewrite (mod_low12 status 6) by lia.
  rewrite !bitfield_low12 by lia.
  reflexivity.
Qed.

Lemma decode_format1_ignores_high_bits_witness :
  ResponseCode.DecodeResponseCode 0x17E 0xABCDE1D4
  = ResponseCode.DecodeResponseCode 0x17E 0x1D4.
Proof.
  exact (decode_format1_ignores_high_bits 0x17E 0xABCDE1D4 eq_refl).
Defined.

(** ** errorUnwrapOriginal *)

(** X4: errorUnwrapOriginal never returns a wrapError, it returns an
    error that is not a wrapError unchanged (nil included), and under
    any number of layers of wrapping it finds the innermost error. *)
Theorem errorUnwrapOriginal_reaches_the_original :
  forall err,
    isWrapError (errorUnwrapOriginal err) = false
    /\ (isWrapError err = false -> errorUnwrapOriginal err = err)
    /\ (forall msgs,
           isWrapError err = false ->
           errorUnwrapOriginal (wrapTimes msgs err) = err).
Proof.
  intros err. split; [ | split ].
  - induction err; simpl; auto.
  - destruct err; simpl; intros H; [ reflexivity | reflexivity | discriminate ].
  - intros msgs H. induction msgs as [ | m rest IH]; simpl.
    + destruct err; simpl in *; [ reflexivity | reflexivity | discriminate ].
    + exact IH.
Qed.

Lemma errorUnwrapOriginal_reaches_the_original_witness :
  errorUnwrapOriginal
    (wrapTimes ["cannot run command"; "transmission failed"] (otherError EOF))
  = otherError EOF.
Proof.
  exact (proj2 (proj2 (errorUnwrapOriginal_reaches_the_original (otherError EOF)))
           ["cannot run command"; "transmission failed"] eq_refl).
Defined.

(** ** Field tags *)

Lemma splitComma_nonempty s : splitComma s <> [].
Proof.
  destruct s as [ | c r]; simpl; [ discriminate | ].
  destruct (Ascii.eqb c ","%char); [ discriminate | ].
  destruct (splitComma r); discriminate.
Qed.

Lemma splitComma_app a b :
  splitComma (a ++ String ","%char b)%string = splitComma a ++ splitComma b.
Proof.
  induction a as [ | c r IH]; simpl.
  - reflexivity.
  - destruct (Ascii.eqb c ","%char).
    + rewrite IH. reflexivity.
    + rewrite IH. pose proof (splitComma_nonempty r) as Hne.
      destruct (splitComma r) as [ | h t]; [ contradiction | reflexivity ].
Qed.

Lemma splitComma_noComma s : noComma s = true -> splitComma s = [s].
Proof.
  induction s as [ | c r IH]; simpl; intros H; [ reflexivity | ].
  apply andb_prop in H. destruct H as [Hc Hr].
  destruct (Ascii.eqb c ","%char); [ discriminate | ].
  rewrite (IH Hr). reflexivity.
Qed.

Lemma prefix_selector_not_flag p :
  String.prefix "selector:" p = true ->
  String.eqb p "sized" = false /\ String.eqb p "raw" = false.
Proof.
  intros H. split.
  - destruct (String.eqb_spec p "sized") as [-> | ]; [ discriminate H | reflexivity ].
  - destruct (String.eqb_spec p "raw") as [-> | ]; [ discriminate H | reflexivity ].
Qed.

Lemma applyOption_sized o p :
  sized (applyOption o p) = sized o || String.eqb p "sized".
Proof.
  unfold applyOption. destruct (String.prefix "selector:" p) eqn:E.
  - destruct (prefix_selector_not_flag p E) as [-> _]. simpl.
    rewrite orb_false_r. reflexivity.
  - destruct (String.eqb p "sized"); simpl.
    + rewrite orb_true_r. reflexivity.
    + rewrite orb_false_r. destruct (String.eqb p "raw"); reflexivity.
Qed.

Lemma applyOption_raw o p :
  raw (applyOption o p) = raw o || String.eqb p "raw".
Proof.
  unfold applyOption. destruct (String.prefix "selector:" p) eqn:E.
  - destruct (prefix_selector_not_flag p E) as [_ ->]. simpl.
    rewrite orb_false_r. reflexivity.
  - destruct (String.eqb_spec p "sized") as [-> | Hne]; simpl.
    + rewrite orb_false_r. reflexivity.
    + destruct (String.eqb p "raw"); simpl;
        [ rewrite orb_true_r | rewrite orb_false_r ]; reflexivity.
Qed.

Lemma applyOption_selector o p :
  String.prefix "selector:" p = false -> selector (applyOption o p) = selector o.
Proof.
  intros E. unfold applyOption. rewrite E.
  destruct (String.eqb p "sized"); [ reflexivity | ].
  destruct (String.eqb p "raw"); reflexivity.
Qed.

Lemma fold_applyOption_sized parts : forall o,
  sized (fold_left applyOption parts o)
  = sized o || existsb (fun p => String.eqb p "sized") parts.
Proof.
  induction parts as [ | p rest IH]; intros o; simpl.
  - rewrite orb_false_r. reflexivity.
  - rewrite IH, applyOption_sized, orb_assoc. reflexivity.
Qed.

Lemma fold_applyOption_raw parts : forall o,
  raw (fold_left applyOption parts o)
  = raw o || existsb (fun p => String.eqb p "raw") parts.
Proof.
  induction parts as [ | p rest IH]; intros o; simpl.
  - rewrite orb_false_r. reflexivity.
  - rewrite IH, applyOption_raw, orb_assoc. reflexivity.
Qed.

Lemma fold_applyOption_selector parts : forall o,
  hasSelectorPart parts = false ->
  selector (fold_left applyOption parts o) = selector o.
Proof.
  unfold hasSelectorPart.
  induction parts as [ | p rest IH]; intros o H; simpl in *; [ reflexivity | ].
  apply orb_false_elim in H. destruct H as [Hp Hrest].
  rewrite (IH _ Hrest). apply applyOption_selector. exact Hp.
Qed.

Lemma existsb_eqb_In (x : string) parts :
  existsb (fun p => String.eqb p x) parts = true <-> In x parts.
Proof.
  rewrite existsb_exists. split.
  - intros (p & Hin & Heq). apply String.eqb_eq in Heq. subst. exact Hin.
  - intros Hin. exists x. split; [ exact Hin | apply String.eqb_refl ].
Qed.

(** X5: a field is [sized] exactly when one of the comma-separated
    parts of its tag is the word [sized], and [raw] exactly when one of
    them is the word [raw]; the other parts and their order play no
    role. *)
Theorem parseFieldOptions_flags :
  forall s,
    (sized (parseFieldOptions s) = true <-> In "sized" (splitComma s))
    /\ (raw (parseFieldOptions s) = true <-> In "raw" (splitComma s)).
Proof.
  intros s. unfold parseFieldOptions.
  rewrite fold_applyOption_sized, fold_applyOption_raw. simpl.
  split; apply existsb_eqb_In.
Qed.

Lemma parseFieldOptions_app a b :
  parseFieldOptions (a ++ String ","%char b)%string
  = fold_left applyOption (splitComma b) (parseFieldOptions a).
Proof.
  unfold parseFieldOptions. rewrite splitComma_app, fold_left_app. reflexivity.
Qed.

Lemma substring_all s : String.substring 0 (String.length s) s = s.
Proof. induction s as [ | c r IH]; simpl; [ | rewrite IH ]; reflexivity. Qed.

(** X6: tags compose.  Joining two tags with a comma sets [sized] and
    [raw] when either tag sets them; the selector of the second tag
    wins, and the first tag's selector stays when the second names
    none.  In particular a last part [selector:NAME] makes NAME the
    selector. *)
Theorem parseFieldOptions_compose :
  forall a b,
    sized (parseFieldOptions (a ++ String ","%char b)%string)
      = sized (parseFieldOptions a) || sized (parseFieldOptions b)
    /\ raw (parseFieldOptions (a ++ String ","%char b)%string)
       = raw (parseFieldOptions a) || raw (parseFieldOptions b)
    /\ (hasSelectorPart (splitComma b) = false ->
        selector (parseFieldOptions (a ++ String ","%char b)%string)
        = selector (parseFieldOptions a))
    /\ (forall name,
           b = ("selector:" ++ name)%string ->
           noComma name = true ->
           selector (parseFieldOptions (a ++ String ","%char b)%string) = name).
Proof.
  intros a b. rewrite parseFieldOptions_app.
  split; [ | split; [ | split ] ].
  - unfold parseFieldOptions.
    rewrite !fold_applyOption_sized. simpl. reflexivity.
  - unfold parseFieldOptions.
    rewrite !fold_applyOption_raw. simpl. reflexivity.
  - apply fold_applyOption_selector.
  - intros name -> Hname.
    rewrite splitComma_noComma by (simpl; exact Hname).
    simpl fold_left. unfold applyOption.
    assert (Hp : String.prefix "" name = true) by (destruct name; reflexivity).
    simpl. rewrite Hp. simpl. rewrite Nat.sub_0_r. apply substring_all.
Qed.

Lemma parseFieldOptions_compose_witness :
  selector (parseFieldOptions "sized,selector:Type") = "Type"
  /\ sized (parseFieldOptions "sized,selector:Type") = true
  /\ selector (parseFieldOptions "selector:Type,raw") = "Type".
Proof.
  destruct (parseFieldOptions_compose "sized" "selector:Type") as (Hs & _ & _ & Hsel).
  destruct (parseFieldOptions_compose "selector:Type" "raw") as (_ & _ & Hkeep & _).
  split; [ | split ].
  - exact (Hsel "Type" eq_refl eq_refl).
  - exact Hs.
  - exact (Hkeep eq_refl).
Defined.


(** ** Writing to a bytes.Buffer only appends *)

Lemma uniform_const (b : list byte) err (run : bytesBuffer -> result bytesBuffer) :
  (forall w, run w = Some (w ++ b, err)) -> uniform run.
Proof. intros H. right. exists b, err. exact H. Qed.

Lemma uniform_error err (run : bytesBuffer -> result bytesBuffer) :
  (forall w, run w = Some (w, Some err)) -> uniform run.
Proof.
  intros H. right. exists [], (Some err). intros w. rewrite app_nil_r. apply H.
Qed.

Lemma uniform_wrapError run fmt t :
  uniform run -> uniform (fun w => wrapError (run w) fmt t).
Proof.
  intros [Hn | (b & e & Hb)].
  - left. intros w. rewrite Hn. reflexivity.
  - right. exists b. destruct e as [e | ]; eexists; intros w; rewrite Hb; reflexivity.
Qed.

Lemma uniform_shift (p : list byte) run :
  uniform run -> uniform (fun w => run (w ++ p)).
Proof.
  intros [Hn | (b & e & Hb)].
  - left. intros w. apply Hn.
  - right. exists (p ++ b), e. intros w. rewrite Hb, <- app_assoc. reflexivity.
Qed.

Lemma binaryWrite_uniform t d :
  exists b err, forall w : bytesBuffer, binaryWrite w t d = (w ++ b, err).
Proof.
  unfold binaryWrite. destruct (binarySize (TypeKind t)) as [sz | ].
  - destruct d; try (exists []; eexists; intros w; rewrite app_nil_r; reflexivity).
    eexists; eexists; intros w; reflexivity.
  - exists []; eexists; intros w; rewrite app_nil_r; reflexivity.
Qed.

Ltac uniform_err := eapply uniform_error; intros ?w; reflexivity.

Section UniformBody.

Variable rt : Runtime.
Hypothesis Hcm : uniformMarshallers rt.
Variable f : mcallback.
Hypothesis Hf :
  forall val ctx, uniform (fun w => f bytesBuffer bytesBuffer_Writer w val ctx).

Lemma marshalPtr_uniform ptr ctx : uniform (fun w => marshalPtr f w ptr ctx).
Proof.
  unfold marshalPtr. destruct (IsNil ptr); [ | apply Hf ].
  destruct (sized (options ctx) && _); [ | apply Hf ].
  apply (uniform_const (be_bytes 2 (uint16 0)) None). intros w. reflexivity.
Qed.

Lemma marshalUnion_uniform u ctx : uniform (fun w => marshalUnion rt f w u ctx).
Proof.
  unfold marshalUnion.
  destruct (container ctx) as [c | ]; [ | uniform_err ].
  destruct (negb (isValidUnionContainer (vType c))); [ uniform_err | ].
  destruct (String.eqb _ _); [ uniform_err | ].
  destruct (FieldByName c _) as [selectorVal | ]; [ | uniform_err ].
  destruct (callSelect rt u selectorVal) as [[selectedType | ] [err | ]];
    try uniform_err.
  - cbv zeta. destruct (negb (type_eqb _ selectedType)); [ | apply Hf ].
    destruct (negb (ConvertibleTo rt _ selectedType)); [ uniform_err | apply Hf ].
  - apply (uniform_const [] None). intros w. rewrite app_nil_r. reflexivity.
Qed.

Lemma marshalFields_uniform s ctx idx : uniform (fun w => marshalFields f w s ctx idx).
Proof.
  induction idx as [ | i rest IH].
  - apply (uniform_const [] None). intros w. rewrite app_nil_r. reflexivity.
  - destruct (Hf (Field s i) (Some (beginStructFieldCtx ctx s i))) as [Hn | (b & e & Hb)].
    + left. intros w. cbn [marshalFields]. rewrite Hn. reflexivity.
    + destruct e as [e | ].
      * right. exists b. eexists. intros w. cbn [marshalFields]. rewrite Hb. reflexivity.
      * destruct IH as [Hn | (b2 & e2 & Hb2)].
        -- left. intros w. cbn [marshalFields]. rewrite Hb. apply Hn.
        -- right. exists (b ++ b2), e2. intros w. cbn [marshalFields].
           rewrite Hb, Hb2, <- app_assoc. reflexivity.
Qed.

Lemma marshalElems_uniform s ctx idx : uniform (fun w => marshalElems f w s ctx idx).
Proof.
  induction idx as [ | i rest IH].
  - apply (uniform_const [] None). intros w. rewrite app_nil_r. reflexivity.
  - destruct (Hf (Index s i) (Some (beginSliceElemCtx ctx s))) as [Hn | (b & e & Hb)].
    + left. intros w. cbn [marshalElems]. rewrite Hn. reflexivity.
    + destruct e as [e | ].
      * right. exists b. eexists. intros w. cbn [marshalElems]. rewrite Hb. reflexivity.
      * destruct IH as [Hn | (b2 & e2 & Hb2)].
        -- left. intros w. cbn [marshalElems]. rewrite Hb. apply Hn.
        -- right. exists (b ++ b2), e2. intros w. cbn [marshalElems].
           rewrite Hb, Hb2, <- app_assoc. reflexivity.
Qed.

Lemma marshalStruct_uniform s ctx : uniform (fun w => marshalStruct rt f w s ctx).
Proof.
  unfold marshalStruct.
  destruct (sized (options ctx) && isUnion rt (vType s)); [ uniform_err | ].
  destruct (sized (options ctx) && negb (arrivedFromPointer ctx s)).
  { destruct (container ctx); uniform_err. }
  destruct (sized (options ctx)).
  - destruct (f bytesBuffer bytesBuffer_Writer [] s (Some (beginSizedStructCtx ctx s)))
      as [[tmpBuf [e | ]] | ].
    + uniform_err.
    + apply (uniform_const
               (be_bytes 2 (uint16 (Z.of_nat (List.length tmpBuf))) ++ tmpBuf) None).
      intros w. destruct tmpBuf as [ | x tmpBuf].
      * cbn. rewrite app_nil_r. reflexivity.
      * cbn [WriteTo]. cbv [Write bytesBuffer_Writer]. rewrite <- app_assoc.
        reflexivity.
    + left. reflexivity.
  - destruct (isUnion rt (vType s)); [ | apply marshalFields_uniform ].
    destruct (marshalUnion_uniform s ctx) as [Hn | (b & e & Hb)].
    + left. intros w. rewrite Hn. reflexivity.
    + right. exists b. destruct e; eexists; intros w; rewrite Hb; reflexivity.
Qed.

Lemma marshalSlice_uniform s ctx : uniform (fun w => marshalSlice f w s ctx).
Proof.
  unfold marshalSlice.
  destruct (type_eqb (vType s) rawBytesType).
  - apply (uniform_const (Bytes s) None). intros w. reflexivity.
  - cbv zeta. destruct (raw (options ctx)).
    + exact (marshalElems_uniform s ctx _).
    + destruct (isSizedBuffer (vType s)).
      * exact (uniform_shift _ _ (marshalElems_uniform s ctx _)).
      * exact (uniform_shift _ _ (marshalElems_uniform s ctx _)).
Qed.

Lemma callMarshal_uniform origVal val : uniform (fun w => callMarshal rt w origVal val).
Proof.
  unfold callMarshal.
  destruct (customMarshallerImpl rt (vType val)) as [impl | ] eqn:E; [ | uniform_err ].
  destruct (Hcm _ _ (vData (Elem val)) E) as (b & e & Hb).
  right. exists b. destruct e; eexists; intros w; rewrite Hb; reflexivity.
Qed.

Lemma marshalValue_body_uniform val ctx :
  uniform (fun w => marshalValue_body rt f w val ctx).
Proof.
  unfold marshalValue_body.
  destruct (hasCustomMarshallerImpl rt (vType val)).
  - destruct (negb (Kind_eqb (ValueKind val) reflect.Ptr) && negb (CanAddr val));
      [ uniform_err | ].
    destruct (negb (Kind_eqb (ValueKind val) reflect.Ptr));
      [ apply callMarshal_uniform | ].
    destruct (IsNil val); [ uniform_err | apply callMarshal_uniform ].
  - cbv zeta.
    destruct (binaryWrite_uniform (vType val) (vData val)) as (b & e & Hb).
    destruct (ValueKind val);
      try uniform_err;
      try (apply uniform_wrapError;
           first [ apply marshalPtr_uniform | apply marshalStruct_uniform
                 | apply marshalSlice_uniform ]);
      right; exists b; destruct e; eexists; intros w; rewrite Hb; reflexivity.
Qed.

End UniformBody.

Lemma marshalValue_uniform rt n :
  uniformMarshallers rt ->
  forall val ctx,
    uniform (fun w => marshalValue rt n bytesBuffer bytesBuffer_Writer w val ctx).
Proof.
  intros Hcm. induction n as [ | n IH]; intros val ctx.
  - left. reflexivity.
  - exact (marshalValue_body_uniform rt Hcm (marshalValue rt n) IH val ctx).
Qed.

(** X7: marshalling into a [bytes.Buffer] only appends, and what it
    appends and returns does not depend on what the buffer already
    holds. *)
Theorem marshal_only_appends :
  forall rt n val ctx (w w' : bytesBuffer) err,
    uniformMarshallers rt ->
    marshalValue rt n bytesBuffer bytesBuffer_Writer w val ctx = Some (w', err) ->
    exists b,
      w' = w ++ b
      /\ forall w2 : bytesBuffer,
           marshalValue rt n bytesBuffer bytesBuffer_Writer w2 val ctx
           = Some (w2 ++ b, err).
Proof.
  intros rt n val ctx w w' err Hcm H.
  destruct (marshalValue_uniform rt n Hcm val ctx) as [Hn | (b & e & Hb)].
  - rewrite Hn in H. discriminate.
  - rewrite Hb in H. injection H as <- <-. exists b. split; [ reflexivity | exact Hb ].
Qed.

Lemma rtAll_uniformMarshallers : uniformMarshallers Examples.rtAll.
Proof.
  intros t impl d H. cbn in H.
  destruct (type_eqb t (TPtr Examples.Tagged)); [ | discriminate ].
  injection H as <-. eexists. exists None. intros w. reflexivity.
Qed.

Lemma marshal_only_appends_witness :
  exists b,
    forall w2 : bytesBuffer,
      marshalValue Examples.rtAll 6 bytesBuffer bytesBuffer_Writer w2
        (mkValue (TPtr Examples.Tagged) (VPtr (VStruct [VScalar 6])) false) None
      = Some (w2 ++ b, None).
Proof.
  destruct (marshal_only_appends Examples.rtAll 6
              (mkValue (TPtr Examples.Tagged) (VPtr (VStruct [VScalar 6])) false) None
              [Byte.x01] [Byte.x01; Byte.xaa; Byte.x06] None
              rtAll_uniformMarshallers eq_refl) as (b & _ & H).
  exists b. exact H.
Defined.

(** ** Several values in one call *)

Lemma MarshalToWriter_app rt n W (Wr : Writer W) vals1 : forall (buf : W) vals2,
  MarshalToWriter rt n buf (vals1 ++ vals2)
  = match MarshalToWriter rt n buf vals1 with
    | Some (buf', None) => MarshalToWriter rt n buf' vals2
    | r => r
    end.
Proof.
  induction vals1 as [ | v rest IH]; intros buf vals2; [ reflexivity | ].
  destruct v as [v | ]; [ | reflexivity ].
  cbn [MarshalToWriter app].
  destruct (marshalValue rt n W Wr buf (ValueOf v) None) as [[buf' [e | ]] | ];
    [ reflexivity | apply IH | reflexivity ].
Qed.

Lemma MarshalToWriter_uniform rt n vals :
  uniformMarshallers rt ->
  uniform (fun w => MarshalToWriter rt n (W := bytesBuffer) w vals).
Proof.
  intros Hcm. induction vals as [ | v rest IH].
  - apply (uniform_const [] None). intros w. rewrite app_nil_r. reflexivity.
  - destruct v as [v | ]; [ | uniform_err ].
    destruct (marshalValue_uniform rt n Hcm (ValueOf v) None) as [Hn | (b & e & Hb)].
    + left. intros w. cbn [MarshalToWriter]. rewrite Hn. reflexivity.
    + destruct e as [e | ].
      * right. exists b. eexists. intros w. cbn [MarshalToWriter]. rewrite Hb.
        reflexivity.
      * destruct IH as [Hn | (b2 & e2 & Hb2)].
        -- left. intros w. cbn [MarshalToWriter]. rewrite Hb. apply Hn.
        -- right. exists (b ++ b2), e2. intros w. cbn [MarshalToWriter].
           rewrite Hb, Hb2, <- app_assoc. reflexivity.
Qed.

(** X8: MarshalToBytes of two argument lists joined is the bytes of the
    first followed by the bytes of the second; it fails with the error
    of the first list when that fails, and with the error of the second
    when the first succeeds and the second fails. *)
Theorem MarshalToBytes_app :
  forall rt n vals1 vals2,
    uniformMarshallers rt ->
    (forall b1 b2,
        MarshalToBytes rt n vals1 = Some (b1, None) ->
        MarshalToBytes rt n vals2 = Some (b2, None) ->
        MarshalToBytes rt n (vals1 ++ vals2) = Some (b1 ++ b2, None))
    /\ (forall err,
        MarshalToBytes rt n vals1 = Some ([], Some err) ->
        MarshalToBytes rt n (vals1 ++ vals2) = Some ([], Some err))
    /\ (forall b1 err,
        MarshalToBytes rt n vals1 = Some (b1, None) ->
        MarshalToBytes rt n vals2 = Some ([], Some err) ->
        MarshalToBytes rt n (vals1 ++ vals2) = Some ([], Some err)).
Proof.
  intros rt n vals1 vals2 Hcm. unfold MarshalToBytes.
  rewrite MarshalToWriter_app.
  destruct (MarshalToWriter rt n (W := bytesBuffer) [] vals1) as [[buf' [e1 | ]] | ];
    cbv beta iota.
  - split; [ | split ]; [ intros b1 b2 H; discriminate H | intros err H; exact H
                        | intros b1 err H; discriminate H ].
  - destruct (MarshalToWriter_uniform rt n vals2 Hcm) as [Hn | (b & e & Hb)].
    + rewrite !Hn. cbv beta iota. split; [ | split ];
        [ intros b1 b2 _ H; discriminate H | intros err H; discriminate H
        | intros b1 err _ H; discriminate H ].
    + rewrite !Hb. cbn [app]. cbv beta iota. split; [ | split ].
      * intros b1 b2 H1 H2. injection H1 as <-.
        destruct e; [ discriminate H2 | ]. injection H2 as <-. reflexivity.
      * intros err H. discriminate H.
      * intros b1 err _ H2. destruct e; [ exact H2 | discriminate H2 ].
  - split; [ | split ]; [ intros b1 b2 H; discriminate H | intros err H; discriminate H
                        | intros b1 err H; discriminate H ].
Qed.

Lemma MarshalToBytes_app_witness :
  MarshalToBytes Examples.rtAll 3
    ([Some (Examples.tUint16, VScalar 0x0102)]
     ++ [Some (TPtr Examples.Tagged, VPtr (VStruct [VScalar 6]))])
  = Some ([Byte.x01; Byte.x02] ++ [Byte.xaa; Byte.x06], None).
Proof.
  exact (proj1 (MarshalToBytes_app Examples.rtAll 3
                  [Some (Examples.tUint16, VScalar 0x0102)]
                  [Some (TPtr Examples.Tagged, VPtr (VStruct [VScalar 6]))]
                  rtAll_uniformMarshallers)
               [Byte.x01; Byte.x02] [Byte.xaa; Byte.x06] eq_refl eq_refl).
Defined.


(** ** Reading takes bytes from the front of the reader *)

Lemma ReadFull_front r n : exists c, r = c ++ fst (fst (ReadFull r n)).
Proof.
  unfold ReadFull. destruct (n =? 0)%nat; [ exists []; reflexivity | ].
  destruct (List.length r =? 0)%nat; [ exists []; reflexivity | ].
  destruct (List.length r <? n)%nat.
  - exists r. cbn [fst]. rewrite app_nil_r. reflexivity.
  - exists (firstn n r). cbn [fst]. symmetry. apply firstn_skipn.
Qed.

Lemma readsFront_trans buf c buf1 r :
  buf = c ++ buf1 -> readsFront buf1 r -> readsFront buf r.
Proof.
  intros -> H. destruct r as [[[buf' d] e] | ]; [ | exact I ].
  destruct H as (c' & ->). exists (c ++ c'). apply app_assoc.
Qed.

Lemma readsFront_here buf d err : readsFront buf (Some (buf, d, err)).
Proof. exists []. reflexivity. Qed.

Lemma readsFront_uwrapError buf r fmt t :
  readsFront buf r -> readsFront buf (uwrapError r fmt t).
Proof. destruct r as [[[buf' d] [e | ]] | ]; intros H; exact H. Qed.

Section FrontBody.

Variable rt : Runtime.
Hypothesis Hcu : frontUnmarshallers rt.
Variable f : ucallback.
Hypothesis Hf : forall buf val ctx, readsFront buf (f buf val ctx).

Lemma unmarshalPtrElem_front srcBuf outside ptr ctx :
  readsFront (srcBuf ++ outside) (unmarshalPtrElem f srcBuf outside ptr ctx).
Proof.
  unfold unmarshalPtrElem.
  destruct (IsNil ptr && negb (CanSet ptr)); [ apply readsFront_here | ].
  cbv zeta.
  match goal with
  | |- context [f srcBuf ?v ?c] => pose proof (Hf srcBuf v c) as H; destruct (f srcBuf v c) as [[[b' d] e] | ]
  end; [ | exact I ].
  destruct H as (c & ->). exists c. symmetry. apply app_assoc.
Qed.

Lemma unmarshalPtr_front buf ptr ctx : readsFront buf (unmarshalPtr f buf ptr ctx).
Proof.
  unfold unmarshalPtr.
  destruct (sized (options ctx) && _).
  - unfold makeSizedStructReader.
    destruct (ReadFull_front buf 2) as (c0 & Hc0).
    destruct (ReadFull buf 2) as [[buf' bs] [e | ]]; cbn [fst] in Hc0.
    + exists c0. exact Hc0.
    + destruct (be_value bs =? 0); [ exists c0; exact Hc0 | ].
      apply (readsFront_trans _ c0 buf' _ Hc0).
      pose proof (unmarshalPtrElem_front (firstn (Z.to_nat (be_value bs)) buf')
                    (skipn (Z.to_nat (be_value bs)) buf') ptr ctx) as H.
      rewrite firstn_skipn in H. exact H.
  - pose proof (unmarshalPtrElem_front buf [] ptr ctx) as H.
    rewrite app_nil_r in H. exact H.
Qed.

Lemma unmarshalUnion_front buf u ctx : readsFront buf (unmarshalUnion rt f buf u ctx).
Proof.
  unfold unmarshalUnion.
  destruct (container ctx) as [c | ]; [ | apply readsFront_here ].
  destruct (negb (isValidUnionContainer (vType c))); [ apply readsFront_here | ].
  destruct (String.eqb _ _); [ apply readsFront_here | ].
  destruct (FieldByName c _) as [selectorVal | ]; [ | apply readsFront_here ].
  destruct (callSelect rt u selectorVal) as [[selectedType | ] [err | ]];
    try apply readsFront_here.
  cbv zeta.
  destruct (_ && _ && _); [ apply readsFront_here | ].
  match goal with
  | |- context [f buf ?v ?c] => pose proof (Hf buf v c) as H; destruct (f buf v c) as [[[b' d] [e | ]] | ]
  end; exact H.
Qed.

Lemma unmarshalFields_front idx : forall buf s ctx,
  readsFront buf (unmarshalFields f buf s ctx idx).
Proof.
  induction idx as [ | i rest IH]; intros buf s ctx.
  - apply readsFront_here.
  - cbn [unmarshalFields].
    pose proof (Hf buf (Field s i) (Some (beginStructFieldCtx ctx s i))) as H.
    destruct (f buf (Field s i) (Some (beginStructFieldCtx ctx s i)))
      as [[[buf' d] [e | ]] | ]; [ exact H | | exact I ].
    destruct H as (c & ->). eapply readsFront_trans; [ reflexivity | apply IH ].
Qed.

Lemma unmarshalElems_front idx : forall buf s ctx,
  readsFront buf (unmarshalElems f buf s ctx idx).
Proof.
  induction idx as [ | i rest IH]; intros buf s ctx.
  - apply readsFront_here.
  - cbn [unmarshalElems].
    pose proof (Hf buf (Index s i) (Some (beginSliceElemCtx ctx s))) as H.
    destruct (f buf (Index s i) (Some (beginSliceElemCtx ctx s)))
      as [[[buf' d] [e | ]] | ]; [ exact H | | exact I ].
    destruct H as (c & ->). eapply readsFront_trans; [ reflexivity | apply IH ].
Qed.

Lemma unmarshalStruct_front buf s ctx : readsFront buf (unmarshalStruct rt f buf s ctx).
Proof.
  unfold unmarshalStruct.
  destruct (sized (options ctx) && negb (arrivedFromPointer ctx s)).
  { destruct (container ctx); apply readsFront_here. }
  destruct (isUnion rt (vType s)); [ | apply unmarshalFields_front ].
  pose proof (unmarshalUnion_front buf s ctx) as H.
  destruct (unmarshalUnion rt f buf s ctx) as [[[buf' d] [e | ]] | ]; exact H.
Qed.

Lemma unmarshalSlice_front buf s ctx : readsFront buf (unmarshalSlice f buf s ctx).
Proof.
  unfold unmarshalSlice.
  destruct (type_eqb (vType s) rawBytesType).
  - destruct (IsNil s); [ apply readsFront_here | ].
    destruct (ReadFull_front buf (Len s)) as (c0 & Hc0).
    destruct (ReadFull buf (Len s)) as [[buf' bs] [e | ]]; exists c0; exact Hc0.
  - cbv zeta. destruct (raw (options ctx)).
    + destruct (IsNil s); [ apply readsFront_here | ].
      cbn [andb]. apply unmarshalElems_front.
    + destruct (isSizedBuffer (vType s)).
      * destruct (ReadFull_front buf 2) as (c0 & Hc0).
        destruct (ReadFull buf 2) as [[buf' bs] [e | ]]; cbn [fst] in Hc0;
          [ exists c0; exact Hc0 | ].
        destruct (IsNil s && negb (CanSet s)); [ exists c0; exact Hc0 | ].
        apply (readsFront_trans _ c0 buf' _ Hc0). apply unmarshalElems_front.
      * destruct (ReadFull_front buf 4) as (c0 & Hc0).
        destruct (ReadFull buf 4) as [[buf' bs] [e | ]]; cbn [fst] in Hc0;
          [ exists c0; exact Hc0 | ].
        destruct (IsNil s && negb (CanSet s)); [ exists c0; exact Hc0 | ].
        apply (readsFront_trans _ c0 buf' _ Hc0). apply unmarshalElems_front.
Qed.

Lemma callUnmarshal_front buf origVal val :
  readsFront buf (callUnmarshal rt buf origVal val).
Proof.
  unfold callUnmarshal.
  destruct (customMarshallerImpl rt (vType val)) as [impl | ] eqn:E;
    [ | apply readsFront_here ].
  destruct (Hcu _ _ (vData (Elem val)) buf E) as (c & Hc).
  destruct (Unmarshal impl (vData (Elem val)) buf) as [[buf' d] [e | ]];
    exists c; exact Hc.
Qed.

Lemma binaryRead_front buf t old :
  exists c, buf = c ++ fst (fst (binaryRead buf t old)).
Proof.
  unfold binaryRead. destruct (binarySize (TypeKind t)) as [sz | ];
    [ | exists []; reflexivity ].
  destruct (ReadFull_front buf sz) as (c0 & Hc0).
  destruct (ReadFull buf sz) as [[buf' bs] [e | ]]; exists c0; exact Hc0.
Qed.

Lemma unmarshalValue_body_front buf val ctx :
  readsFront buf (unmarshalValue_body rt f buf val ctx).
Proof.
  unfold unmarshalValue_body.
  destruct (hasCustomMarshallerImpl rt (vType val)).
  - destruct (negb (Kind_eqb (ValueKind val) reflect.Ptr) && negb (CanAddr val));
      [ apply readsFront_here | ].
    destruct (negb (Kind_eqb (ValueKind val) reflect.Ptr));
      [ apply callUnmarshal_front | ].
    destruct (IsNil val && negb (CanSet val)); [ apply readsFront_here | ].
    cbv zeta.
    match goal with
    | |- context [callUnmarshal rt buf val ?v] =>
        pose proof (callUnmarshal_front buf val v) as H;
        destruct (callUnmarshal rt buf val v) as [[[buf' d] e] | ]
    end; exact H.
  - cbv zeta.
    assert (Hscalar :
      readsFront buf
        (if negb (CanAddr val)
         then Some (buf, vData val,
                    Some (Errorf "cannot unmarshal non-addressable type %s"
                            [AType (vType val)]))
         else match binaryRead buf (vType val) (vData val) with
              | (buf', d, Some err) =>
                  Some (buf', d,
                        Some (Errorf
                                "cannot unmarshal type %s: read from buffer failed: %v"
                                [AType (vType val); AErr err]))
              | (buf', d, None) => Some (buf', d, None)
              end)).
    { destruct (negb (CanAddr val)); [ apply readsFront_here | ].
      destruct (binaryRead_front buf (vType val) (vData val)) as (c & Hc).
      destruct (binaryRead buf (vType val) (vData val)) as [[buf' d] [e | ]];
        exists c; exact Hc. }
    destruct (ValueKind val);
      try apply readsFront_here;
      try (apply readsFront_uwrapError;
           first [ apply unmarshalPtr_front | apply unmarshalStruct_front
                 | apply unmarshalSlice_front ]);
      exact Hscalar.
Qed.

End FrontBody.

Lemma unmarshalValue_front rt n :
  frontUnmarshallers rt ->
  forall buf val ctx, readsFront buf (unmarshalValue rt n buf val ctx).
Proof.
  intros Hcu. induction n as [ | n IH]; intros buf val ctx.
  - exact I.
  - exact (unmarshalValue_body_front rt Hcu (unmarshalValue rt n) IH buf val ctx).
Qed.

Lemma UnmarshalFromReader_front rt n vals :
  frontUnmarshallers rt ->
  forall buf,
    match UnmarshalFromReader rt n buf vals with
    | None => True
    | Some (buf', _, _) => exists c, buf = c ++ buf'
    end.
Proof.
  intros Hcu. induction vals as [ | v rest IH]; intros buf.
  - exists []. reflexivity.
  - destruct v as [v | ]; [ | exists []; reflexivity ].
    cbn [UnmarshalFromReader]. cbv zeta.
    destruct (negb (Kind_eqb (ValueKind (ValueOf v)) reflect.Ptr));
      [ exists []; reflexivity | ].
    destruct (IsNil (ValueOf v)); [ exists []; reflexivity | ].
    pose proof (unmarshalValue_front rt n Hcu buf (Elem (ValueOf v)) None) as H.
    destruct (unmarshalValue rt n buf (Elem (ValueOf v)) None)
      as [[[buf' d] [e | ]] | ]; [ exact H | | exact I ].
    destruct H as (c & ->). specialize (IH buf').
    destruct (UnmarshalFromReader rt n buf' rest) as [[[buf'' rest'] e] | ];
      [ | exact I ].
    destruct IH as (c' & ->). exists (c ++ c'). apply app_assoc.
Qed.

(** X9: the count UnmarshalFromBytes returns lies between 0 and the
    length of the input; it is 0 when the call fails, and when the call
    succeeds it is the number of bytes taken from the front of the
    input, the rest being what the reader still holds. *)
Theorem UnmarshalFromBytes_count :
  forall rt n b vals vals' k err,
    frontUnmarshallers rt ->
    UnmarshalFromBytes rt n b vals = Some (vals', k, err) ->
    0 <= k <= Z.of_nat (List.length b)
    /\ (err <> None -> k = 0)
    /\ (err = None ->
        UnmarshalFromReader rt n b vals = Some (skipn (Z.to_nat k) b, vals', None)).
Proof.
  intros rt n b vals vals' k err Hcu H. unfold UnmarshalFromBytes in H.
  pose proof (UnmarshalFromReader_front rt n vals Hcu b) as Hfront.
  destruct (UnmarshalFromReader rt n b vals) as [[[buf' vs] [e | ]] | ];
    [ | | discriminate H ].
  - injection H as <- <- <-. split; [ lia | ]. split; [ reflexivity | discriminate ].
  - injection H as <- <- <-. destruct Hfront as (c & ->).
    rewrite length_app.
    replace (Z.of_nat (List.length c + List.length buf') - Z.of_nat (List.length buf'))
      with (Z.of_nat (List.length c)) by lia.
    split; [ lia | ]. split; [ intros Hne; contradiction Hne; reflexivity | ].
    intros _. rewrite Nat2Z.id, skipn_app, skipn_all, Nat.sub_diag. reflexivity.
Qed.

Lemma rtAll_frontUnmarshallers : frontUnmarshallers Examples.rtAll.
Proof.
  intros t impl d buf H. cbn in H.
  destruct (type_eqb t (TPtr Examples.Tagged)); [ | discriminate ].
  injection H as <-. cbn [Unmarshal]. unfold Examples.Tagged_Unmarshal.
  destruct (ReadFull_front buf 2) as (c & Hc).
  destruct (ReadFull buf 2) as [[buf' bs] e]; cbn [fst] in Hc.
  exists c.
  repeat match goal with
         | |- context [match ?x with _ => _ end] => destruct x
         end; exact Hc.
Qed.

Lemma UnmarshalFromBytes_count_witness :
  UnmarshalFromReader Examples.rtAll 3
    [Byte.xaa; Byte.x06; Byte.x01; Byte.x02; Byte.xff]
    [Some (TPtr (TPtr Examples.Tagged), VPtr VNilPtr);
     Some (TPtr Examples.tUint16, VPtr (VScalar 0))]
  = Some ([Byte.xff],
          [Some (TPtr (TPtr Examples.Tagged), VPtr (VPtr (VStruct [VScalar 6])));
           Some (TPtr Examples.tUint16, VPtr (VScalar 0x0102))], None).
Proof.
  exact (proj2 (proj2 (UnmarshalFromBytes_count Examples.rtAll 3
                  [Byte.xaa; Byte.x06; Byte.x01; Byte.x02; Byte.xff]
                  [Some (TPtr (TPtr Examples.Tagged), VPtr VNilPtr);
                   Some (TPtr Examples.tUint16, VPtr (VScalar 0))]
                  [Some (TPtr (TPtr Examples.Tagged), VPtr (VPtr (VStruct [VScalar 6])));
                   Some (TPtr Examples.tUint16, VPtr (VScalar 0x0102))]
                  4 None rtAll_frontUnmarshallers eq_refl)) eq_refl).
Defined.

Lemma UnmarshalFromReader_joined rt n vals1 : forall buf vals2,
  UnmarshalFromReader rt n buf (vals1 ++ vals2)
  = match UnmarshalFromReader rt n buf vals1 with
    | None => None
    | Some (buf', vals1', Some err) => Some (buf', vals1' ++ vals2, Some err)
    | Some (buf', vals1', None) =>
        match UnmarshalFromReader rt n buf' vals2 with
        | None => None
        | Some (buf'', vals2', err) => Some (buf'', vals1' ++ vals2', err)
        end
    end.
Proof.
  induction vals1 as [ | v rest IH]; intros buf vals2.
  - cbn [app UnmarshalFromReader].
    destruct (UnmarshalFromReader rt n buf vals2) as [[[buf'' vals2'] e] | ];
      reflexivity.
  - destruct v as [v | ]; [ | reflexivity ].
    cbn [app UnmarshalFromReader]. cbv zeta.
    destruct (negb (Kind_eqb (ValueKind (ValueOf v)) reflect.Ptr)); [ reflexivity | ].
    destruct (IsNil (ValueOf v)); [ reflexivity | ].
    destruct (unmarshalValue rt n buf (Elem (ValueOf v)) None)
      as [[[buf' d] [e | ]] | ]; [ reflexivity | | reflexivity ].
    rewrite IH.
    destruct (UnmarshalFromReader rt n buf' rest) as [[[buf1 rest'] [e | ]] | ];
      [ reflexivity | | reflexivity ].
    destruct (UnmarshalFromReader rt n buf1 vals2) as [[[buf2 vals2'] e] | ];
      reflexivity.
Qed.

(** X10: UnmarshalFromReader on two argument lists joined reads the
    first list and then, from what the reader still holds, the second;
    when the first list fails the second is left untouched and nothing
    more is read. *)
Theorem UnmarshalFromReader_app :
  forall rt n buf vals1 vals2 buf1 vals1',
    (UnmarshalFromReader rt n buf vals1 = Some (buf1, vals1', None) ->
     forall buf2 vals2' err,
       UnmarshalFromReader rt n buf1 vals2 = Some (buf2, vals2', err) ->
       UnmarshalFromReader rt n buf (vals1 ++ vals2)
       = Some (buf2, vals1' ++ vals2', err))
    /\ (forall err,
         UnmarshalFromReader rt n buf vals1 = Some (buf1, vals1', Some err) ->
         UnmarshalFromReader rt n buf (vals1 ++ vals2)
         = Some (buf1, vals1' ++ vals2, Some err)).
Proof.
  intros rt n buf vals1 vals2 buf1 vals1'. rewrite UnmarshalFromReader_joined.
  split.
  - intros -> buf2 vals2' err ->. reflexivity.
  - intros err ->. reflexivity.
Qed.

Lemma UnmarshalFromReader_app_witness :
  UnmarshalFromReader Examples.rtAll 3
    [Byte.xaa; Byte.x06; Byte.x01; Byte.x02; Byte.xff]
    ([Some (TPtr (TPtr Examples.Tagged), VPtr VNilPtr)]
     ++ [Some (TPtr Examples.tUint16, VPtr (VScalar 0))])
  = Some ([Byte.xff],
          [Some (TPtr (TPtr Examples.Tagged), VPtr (VPtr (VStruct [VScalar 6])))]
          ++ [Some (TPtr Examples.tUint16, VPtr (VScalar 0x0102))], None).
Proof.
  exact (proj1 (UnmarshalFromReader_app Examples.rtAll 3
                  [Byte.xaa; Byte.x06; Byte.x01; Byte.x02; Byte.xff]
                  [Some (TPtr (TPtr Examples.Tagged), VPtr VNilPtr)]
                  [Some (TPtr Examples.tUint16, VPtr (VScalar 0))]
                  [Byte.x01; Byte.x02; Byte.xff]
                  [Some (TPtr (TPtr Examples.Tagged), VPtr (VPtr (VStruct [VScalar 6])))])
               eq_refl [Byte.xff]
               [Some (TPtr Examples.tUint16, VPtr (VScalar 0x0102))] None eq_refl).
Defined.


(** ** Structs *)

Lemma marshalFields_fails rt n s ctx (enc : nat -> list byte) i part err post pre :
  (forall j, In j pre -> forall w : bytesBuffer,
      marshalValue rt n bytesBuffer bytesBuffer_Writer w (Field s j)
                   (Some (beginStructFieldCtx ctx s j)) = Some (w ++ enc j, None)) ->
  (forall w : bytesBuffer,
      marshalValue rt n bytesBuffer bytesBuffer_Writer w (Field s i)
                   (Some (beginStructFieldCtx ctx s i)) = Some (w ++ part, Some err)) ->
  forall w : bytesBuffer,
    marshalFields (marshalValue rt n) w s ctx (pre ++ i :: post)
    = Some (w ++ flat_map enc pre ++ part,
            Some (Errorf "cannot marshal field %s: %v"
                    [AString (fieldName (TypeField (vType s) i)); AErr err])).
Proof.
  intros Hpre Hi. induction pre as [ | j pre IH]; intros w.
  - cbn [app marshalFields flat_map]. rewrite Hi. reflexivity.
  - cbn [app marshalFields flat_map]. rewrite (Hpre j (or_introl eq_refl)).
    rewrite IH by (intros k Hk; apply Hpre; right; exact Hk).
    rewrite <- !app_assoc. reflexivity.
Qed.

Lemma seq_split_at i n : (i < n)%nat -> seq 0 n = seq 0 i ++ i :: seq (S i) (n - S i).
Proof.
  intros Hlt. replace n with (i + S (n - S i))%nat at 1 by lia.
  rewrite seq_app. reflexivity.
Qed.

(** X11: a struct that is neither sized nor a union and has no custom
    marshaller marshals to the encodings of its fields, in the order of
    declaration, with nothing before, between or after them. *)
Theorem struct_marshals_fields_in_order :
  forall rt s ctx (enc : nat -> list byte),
    TypeKind (vType s) = reflect.Struct ->
    hasCustomMarshallerImpl rt (vType s) = false ->
    isUnion rt (vType s) = false ->
    sized (options (entered ctx)) = false ->
    (forall i, (i < NumField s)%nat ->
        marshalsTo rt (Field s i) (Some (beginStructFieldCtx (entered ctx) s i)) (enc i)) ->
    marshalsTo rt s ctx (flat_map enc (seq 0 (NumField s))).
Proof.
  intros rt s ctx enc Hk Hc Hu Hs Hfields.
  destruct (marshalsTo_common_fuel rt (fun i => Field s i)
              (fun i => Some (beginStructFieldCtx (entered ctx) s i)) enc
              (seq 0 (NumField s))) as [n Hn].
  { intros i Hi. apply in_seq in Hi. apply Hfields. lia. }
  exists (S n). intros w.
  rewrite (marshalValue_struct rt n _ _ w s ctx Hk Hc Hu Hs).
  rewrite (marshalFields_append rt n s (entered ctx) enc).
  - reflexivity.
  - intros i Hi w'. apply (Hn i Hi n (le_n n)).
Qed.

Lemma struct_marshals_fields_in_order_witness :
  marshalsTo Examples.rt0
    (mkValue MoreExamples.Point (VStruct [VScalar 0x0102; VScalar 3]) false) None
    (flat_map (fun i => match i with
                        | O => [Byte.x01; Byte.x02]
                        | _ => [Byte.x03]
                        end) (seq 0 2)).
Proof.
  apply (struct_marshals_fields_in_order Examples.rt0
           (mkValue MoreExamples.Point (VStruct [VScalar 0x0102; VScalar 3]) false) None
           (fun i => match i with
                     | O => [Byte.x01; Byte.x02]
                     | _ => [Byte.x03]
                     end)); try reflexivity.
  intros i Hi. exists 1%nat. intros w.
  destruct i as [ | [ | i]]; [ reflexivity | reflexivity | ].
  exfalso. change (NumField _) with 2%nat in Hi. lia.
Defined.

(** X12: marshalling a struct stops at the first field that fails.  The
    bytes of the fields before it, and whatever the failing field wrote,
    stay in the buffer; the fields after it are not marshalled; the
    error names the failing field. *)
Theorem struct_marshal_stops_at_first_failure :
  forall rt n s ctx (enc : nat -> list byte) i part err,
    TypeKind (vType s) = reflect.Struct ->
    hasCustomMarshallerImpl rt (vType s) = false ->
    isUnion rt (vType s) = false ->
    sized (options (entered ctx)) = false ->
    (i < NumField s)%nat ->
    (forall j, (j < i)%nat -> forall w : bytesBuffer,
        marshalValue rt n bytesBuffer bytesBuffer_Writer w (Field s j)
                     (Some (beginStructFieldCtx (entered ctx) s j))
        = Some (w ++ enc j, None)) ->
    (forall w : bytesBuffer,
        marshalValue rt n bytesBuffer bytesBuffer_Writer w (Field s i)
                     (Some (beginStructFieldCtx (entered ctx) s i))
        = Some (w ++ part, Some err)) ->
    forall w : bytesBuffer,
      marshalValue rt (S n) bytesBuffer bytesBuffer_Writer w s ctx
      = Some (w ++ flat_map enc (seq 0 i) ++ part,
              Some (structError (vType s)
                      (Errorf "cannot marshal field %s: %v"
                         [AString (fieldName (TypeField (vType s) i)); AErr err]))).
Proof.
  intros rt n s ctx enc i part err Hk Hc Hu Hs Hi Hpre Hfail w.
  rewrite (marshalValue_struct rt n _ _ w s ctx Hk Hc Hu Hs).
  rewrite (seq_split_at i (NumField s) Hi).
  rewrite (marshalFields_fails rt n s (entered ctx) enc i part err).
  - reflexivity.
  - intros j Hj. apply in_seq in Hj. apply Hpre. lia.
  - exact Hfail.
Qed.

Lemma struct_marshal_stops_at_first_failure_witness :
  marshalValue Examples.rt0 2 bytesBuffer bytesBuffer_Writer [Byte.xff]
    (mkValue MoreExamples.Pair (VStruct [VScalar 0x0102; VScalar 7; VScalar 3]) false)
    None
  = Some ([Byte.xff] ++ flat_map (fun _ => [Byte.x01; Byte.x02]) (seq 0 1) ++ [],
          Some (structError MoreExamples.Pair
                  (Errorf "cannot marshal field %s: %v"
                     [AString "B";
                      AErr (Errorf "cannot marshal type %s: write to buffer failed: %v"
                              [AType MoreExamples.tInt;
                               AErr (Errorf "binary.Write: invalid type %s"
                                       [AType MoreExamples.tInt])])]))).
Proof.
  apply (struct_marshal_stops_at_first_failure Examples.rt0 1
           (mkValue MoreExamples.Pair (VStruct [VScalar 0x0102; VScalar 7; VScalar 3]) false)
           None (fun _ => [Byte.x01; Byte.x02]) 1 []
           (Errorf "cannot marshal type %s: write to buffer failed: %v"
              [AType MoreExamples.tInt;
               AErr (Errorf "binary.Write: invalid type %s" [AType MoreExamples.tInt])]));
    try reflexivity.
  - change (NumField _) with 3%nat. lia.
  - intros j Hj w. destruct j as [ | j]; [ reflexivity | lia ].
  - intros w. cbn. rewrite app_nil_r. reflexivity.
Defined.

(** ** Pointers *)

(** X13: a nil pointer that is not a sized pointer to a struct marshals
    exactly as the zero value of the type it points to. *)
Theorem nil_pointer_marshals_as_zero_value :
  forall rt e a ctx b,
    hasCustomMarshallerImpl rt (TPtr e) = false ->
    sized (options (entered ctx)) && Kind_eqb (TypeKind e) reflect.Struct = false ->
    (marshalsTo rt (mkValue (TPtr e) VNilPtr a) ctx b
     <-> marshalsTo rt (ZeroValue e)
           (Some (beginPtrElemCtx (entered ctx) (mkValue (TPtr e) VNilPtr a))) b).
Proof.
  intros rt e a ctx b Hc Hs.
  assert (Hstep : forall n (w : bytesBuffer),
    marshalValue rt (S n) bytesBuffer bytesBuffer_Writer w
                 (mkValue (TPtr e) VNilPtr a) ctx
    = wrapError
        (marshalValue rt n bytesBuffer bytesBuffer_Writer w (ZeroValue e)
           (Some (beginPtrElemCtx (entered ctx) (mkValue (TPtr e) VNilPtr a))))
        "cannot marshal pointer type %s: %v" (TPtr e)).
  { intros n w. rewrite marshalValue_S. unfold marshalValue_body.
    cbn [vType]. rewrite Hc. unfold ValueKind. cbn [vType TypeKind].
    unfold marshalPtr. unfold IsNil. cbn [vData vType TypeElem].
    rewrite Hs. reflexivity. }
  split.
  - intros [n Hn]. destruct n as [ | n]; [ discriminate (Hn []) | ].
    exists n. intros w. specialize (Hn w). rewrite Hstep in Hn.
    destruct (marshalValue rt n bytesBuffer bytesBuffer_Writer w (ZeroValue e) _)
      as [[w' [err | ]] | ]; [ discriminate Hn | exact Hn | discriminate Hn ].
  - intros [n Hn]. exists (S n). intros w. rewrite Hstep, Hn. reflexivity.
Qed.

Lemma nil_pointer_marshals_as_zero_value_witness :
  marshalsTo Examples.rt0 (mkValue (TPtr Examples.tUint32) VNilPtr false) None
    (encodeScalar reflect.Uint32 4 0).
Proof.
  apply (proj2 (nil_pointer_marshals_as_zero_value Examples.rt0 Examples.tUint32 false
                  None (encodeScalar reflect.Uint32 4 0) eq_refl eq_refl)).
  exists 1%nat. intros w. reflexivity.
Defined.

(** X14: a struct met under the [sized] option without having been
    reached through a pointer is refused by both engines, before
    anything is written or read; the destination is left as it was. *)
Theorem sized_struct_needs_a_pointer :
  forall rt n s ctx c,
    TypeKind (vType s) = reflect.Struct ->
    hasCustomMarshallerImpl rt (vType s) = false ->
    isUnion rt (vType s) = false ->
    sized (options ctx) = true ->
    container ctx = Some c ->
    parentType ctx <> Some (TPtr (vType s)) ->
    (forall W (Wr : Writer W) (buf : W),
        marshalValue rt (S n) W Wr buf s (Some ctx)
        = Some (buf, Some (structError (vType s)
            (Errorf "sized struct inside container type %s is not referenced via a pointer"
               [AType (vType c)]))))
    /\ (forall buf,
        unmarshalValue rt (S n) buf s (Some ctx)
        = Some (buf, vData s,
                Some (Errorf "cannot unmarshal struct type %s: %v"
                  [AType (vType s);
                   AErr (Errorf
                     "sized struct inside container type %s is not referenced via a pointer"
                     [AType (vType c)])]))).
Proof.
  intros rt n s ctx c Hk Hc Hu Hs Hcont Hparent.
  assert (Harr : arrivedFromPointer (incDepth ctx) s = false).
  { unfold arrivedFromPointer. cbn [incDepth parentType].
    destruct (parentType ctx) as [p | ]; [ | reflexivity ].
    apply type_eqb_false. intros ->. apply Hparent. reflexivity. }
  split.
  - intros W Wr buf. rewrite marshalValue_S. unfold marshalValue_body.
    rewrite Hc. unfold ValueKind. rewrite Hk. cbv zeta iota.
    unfold marshalStruct, entered. rewrite Harr. cbn [incDepth options container].
    rewrite Hs, Hu, Hcont. reflexivity.
  - intros buf. rewrite unmarshalValue_S. unfold unmarshalValue_body.
    rewrite Hc. unfold ValueKind. rewrite Hk. cbv zeta iota.
    unfold unmarshalStruct, entered. rewrite Harr. cbn [incDepth options container].
    rewrite Hs, Hcont. reflexivity.
Qed.

Lemma sized_struct_needs_a_pointer_witness :
  let holder := mkValue MoreExamples.ByValue (VStruct [VStruct [VScalar 5]]) false in
  marshalValue Examples.rt0 1 bytesBuffer bytesBuffer_Writer [] (Field holder 0)
    (Some (beginStructFieldCtx newContext holder 0))
  = Some ([], Some (structError Examples.Inner
       (Errorf "sized struct inside container type %s is not referenced via a pointer"
          [AType MoreExamples.ByValue]))).
Proof.
  exact (proj1 (sized_struct_needs_a_pointer Examples.rt0 0
    (Field (mkValue MoreExamples.ByValue (VStruct [VStruct [VScalar 5]]) false) 0)
    (beginStructFieldCtx newContext
       (mkValue MoreExamples.ByValue (VStruct [VStruct [VScalar 5]]) false) 0)
    (mkValue MoreExamples.ByValue (VStruct [VStruct [VScalar 5]]) false)
    eq_refl eq_refl eq_refl eq_refl eq_refl
    ltac:(discriminate)) bytesBuffer bytesBuffer_Writer []).
Defined.


(** ** Sized structs on the way in *)

(** X15: a size field of zero makes the unmarshal engine return at
    once: the two bytes are consumed and the destination pointer keeps
    what it held, nil or not. *)
Theorem zero_size_leaves_destination :
  forall rt n e d a ctx rest,
    TypeKind e = reflect.Struct ->
    hasCustomMarshallerImpl rt (TPtr e) = false ->
    sized (options ctx) = true ->
    unmarshalValue rt (S n) (Byte.x00 :: Byte.x00 :: rest)
                   (mkValue (TPtr e) d a) (Some ctx)
    = Some (rest, d, None).
Proof.
  intros rt n e d a ctx rest Hk Hc Hs.
  rewrite unmarshalValue_S. unfold unmarshalValue_body. cbn [vType]. rewrite Hc.
  unfold ValueKind. cbn [vType TypeKind]. cbv zeta iota.
  unfold unmarshalPtr, entered. cbn [incDepth options vType TypeElem vData].
  rewrite Hs, Hk, Kind_eqb_refl. cbn [andb].
  unfold makeSizedStructReader.
  change (Byte.x00 :: Byte.x00 :: rest) with ([Byte.x00; Byte.x00] ++ rest).
  rewrite ReadFull_app by reflexivity.
  replace (be_value [Byte.x00; Byte.x00]) with 0 by reflexivity.
  reflexivity.
Qed.

Lemma zero_size_leaves_destination_witness :
  unmarshalValue Examples.rt0 1 [Byte.x00; Byte.x00; Byte.xff]
    (mkValue (TPtr Examples.Inner) (VPtr (VStruct [VScalar 9])) true)
    (Some (mkContext 1 None (Some Examples.SizedHolder) (parseFieldOptions "sized")))
  = Some ([Byte.xff], VPtr (VStruct [VScalar 9]), None).
Proof.
  exact (zero_size_leaves_destination Examples.rt0 0 Examples.Inner
           (VPtr (VStruct [VScalar 9])) true
           (mkContext 1 None (Some Examples.SizedHolder) (parseFieldOptions "sized"))
           [Byte.xff] eq_refl eq_refl eq_refl).
Defined.

(** X16: the size field of a sized struct only limits what the struct
    may read.  When the fields of the struct take fewer bytes than the
    size declares, the remaining bytes are not skipped: they stay in the
    reader for whatever is unmarshalled next. *)
Theorem declared_size_is_only_a_limit :
  forall rt n e old a ctx (sz : nat) payload rest d',
    TypeKind e = reflect.Struct ->
    hasCustomMarshallerImpl rt (TPtr e) = false ->
    sized (options ctx) = true ->
    0 < Z.of_nat sz < 2 ^ 16 ->
    (List.length payload <= sz)%nat ->
    (forall rest',
        unmarshalValue rt n (payload ++ rest') (mkValue e old true)
          (Some (beginPtrElemCtx (incDepth ctx) (mkValue (TPtr e) (VPtr old) a)))
        = Some (rest', d', None)) ->
    unmarshalValue rt (S n) (be_bytes 2 (Z.of_nat sz) ++ payload ++ rest)
                   (mkValue (TPtr e) (VPtr old) a) (Some ctx)
    = Some (rest, VPtr d', None).
Proof.
  intros rt n e old a ctx sz payload rest d' Hk Hc Hs Hsz Hlen Hpayload.
  rewrite unmarshalValue_S. unfold unmarshalValue_body. cbn [vType]. rewrite Hc.
  unfold ValueKind. cbn [vType TypeKind]. cbv zeta iota.
  unfold unmarshalPtr, entered. cbn [incDepth options vType TypeElem vData].
  rewrite Hs, Hk, Kind_eqb_refl. cbn [andb].
  unfold makeSizedStructReader.
  rewrite ReadFull_app by apply be_bytes_length.
  rewrite be_value_be_bytes.
  rewrite Z.mod_small by (change (2 ^ (Z.of_nat 2 * 8)) with (2 ^ 16); lia).
  replace (Z.of_nat sz =? 0) with false by (symmetry; apply Z.eqb_neq; lia).
  rewrite Nat2Z.id.
  unfold unmarshalPtrElem, IsNil. cbn [vData andb]. cbv zeta.
  rewrite firstn_app, skipn_app.
  rewrite (firstn_all2 payload) by exact Hlen.
  rewrite (skipn_all2 payload) by exact Hlen.
  unfold Elem. cbn [vData vType TypeElem app].
  change (mkContext (depth ctx + 1) (container ctx) (parentType ctx) (options ctx))
    with (incDepth ctx).
  rewrite Hpayload, firstn_skipn. reflexivity.
Qed.

Lemma declared_size_is_only_a_limit_witness :
  unmarshalValue Examples.rt0 3
    (be_bytes 2 (Z.of_nat 3) ++ [Byte.x05] ++ [Byte.xaa; Byte.xbb; Byte.xcc])
    (mkValue (TPtr Examples.Inner) (VPtr (VStruct [VScalar 0])) true)
    (Some (mkContext 1 None (Some Examples.SizedHolder) (parseFieldOptions "sized")))
  = Some ([Byte.xaa; Byte.xbb; Byte.xcc], VPtr (VStruct [VScalar 5]), None).
Proof.
  apply (declared_size_is_only_a_limit Examples.rt0 2 Examples.Inner
           (VStruct [VScalar 0]) true
           (mkContext 1 None (Some Examples.SizedHolder) (parseFieldOptions "sized"))
           3 [Byte.x05] [Byte.xaa; Byte.xbb; Byte.xcc] (VStruct [VScalar 5]));
    try reflexivity.
  - lia.
  - simpl. lia.
Defined.

(** ** Input that ends too early *)

Lemma ReadFull_short buf n :
  (List.length buf < n)%nat ->
  ReadFull buf n
  = ([], buf, Some (match buf with [] => EOF | _ => ErrUnexpectedEOF end)).
Proof.
  intros Hlt. unfold ReadFull.
  replace (n =? 0)%nat with false by (symmetry; apply Nat.eqb_neq; lia).
  destruct buf as [ | x buf]; [ reflexivity | ].
  cbn [List.length Nat.eqb].
  replace (S (List.length buf) <? n)%nat with true
    by (symmetry; apply Nat.ltb_lt; exact Hlt).
  reflexivity.
Qed.

(** X17: a scalar of size [sz] read from fewer than [sz] bytes fails
    with EOF on an empty reader and with unexpected EOF otherwise; the
    destination keeps its value, the reader is drained, and
    UnmarshalFromBytes reports 0 bytes consumed. *)
Theorem short_scalar_read_fails :
  forall rt n t old buf sz,
    hasCustomMarshallerImpl rt t = false ->
    binarySize (TypeKind t) = Some sz ->
    (List.length buf < sz)%nat ->
    let err := Errorf "cannot unmarshal type %s: read from buffer failed: %v"
                 [AType t; AErr (match buf with [] => EOF | _ => ErrUnexpectedEOF end)] in
    (forall ctx,
        unmarshalValue rt (S n) buf (mkValue t old true) ctx = Some ([], old, Some err))
    /\ UnmarshalFromBytes rt (S n) buf [Some (TPtr t, VPtr old)]
       = Some ([Some (TPtr t, VPtr old)], 0, Some err).
Proof.
  intros rt n t old buf sz Hc Hsz Hlt err.
  assert (Hval : forall ctx,
    unmarshalValue rt (S n) buf (mkValue t old true) ctx = Some ([], old, Some err)).
  { intros ctx. rewrite unmarshalValue_S. unfold unmarshalValue_body.
    cbn [vType CanAddr vData]. rewrite Hc. unfold ValueKind. cbn [vType].
    unfold binaryRead. rewrite Hsz, (ReadFull_short buf sz Hlt).
    destruct (TypeKind t); try discriminate Hsz; reflexivity. }
  split; [ exact Hval | ].
  unfold UnmarshalFromBytes. cbn [UnmarshalFromReader]. cbv zeta.
  unfold ValueOf, ValueKind, IsNil, Elem. cbn [fst snd vType vData TypeKind TypeElem].
  rewrite Kind_eqb_refl. cbn [negb]. rewrite Hval. reflexivity.
Qed.

Lemma short_scalar_read_fails_witness :
  UnmarshalFromBytes Examples.rt0 1 [Byte.x01; Byte.x02; Byte.x03]
    [Some (TPtr Examples.tUint32, VPtr (VScalar 7))]
  = Some ([Some (TPtr Examples.tUint32, VPtr (VScalar 7))], 0,
          Some (Errorf "cannot unmarshal type %s: read from buffer failed: %v"
                  [AType Examples.tUint32; AErr ErrUnexpectedEOF])).
Proof.
  exact (proj2 (short_scalar_read_fails Examples.rt0 0 Examples.tUint32 (VScalar 7)
                  [Byte.x01; Byte.x02; Byte.x03] 4 eq_refl eq_refl
                  ltac:(simpl; lia))).
Defined.

(** X18: a short read into a RawBytes destination is not undone: the
    bytes that were available overwrite the front of the destination,
    the rest of it keeps the old contents, and the call fails with
    unexpected EOF. *)
Theorem raw_bytes_short_read_overwrites_front :
  forall rt n old a ctx x buf,
    hasCustomMarshallerImpl rt rawBytesType = false ->
    (List.length (x :: buf) < List.length old)%nat ->
    unmarshalValue rt (S n) (x :: buf) (mkValue rawBytesType (VSlice old) a) ctx
    = Some ([],
            VSlice (map (fun b => VScalar (byte.unsigned b)) (x :: buf)
                    ++ skipn (List.length (x :: buf)) old),
            Some (Errorf "cannot unmarshal slice type %s: %v"
                    [AType rawBytesType;
                     AErr (Errorf "cannot read byte slice directly from input buffer: %v"
                             [AErr ErrUnexpectedEOF])])).
Proof.
  intros rt n old a ctx x buf Hc Hlt.
  rewrite unmarshalValue_S. unfold unmarshalValue_body. cbn [vType]. rewrite Hc.
  unfold ValueKind. cbn [vType]. change (TypeKind rawBytesType) with reflect.Slice.
  cbv zeta iota. unfold unmarshalSlice. cbn [vType].
  rewrite type_eqb_refl. unfold IsNil, Len. cbn [vData sliceData].
  rewrite (ReadFull_short (x :: buf) (List.length old) Hlt).
  reflexivity.
Qed.

Lemma raw_bytes_short_read_overwrites_front_witness :
  unmarshalValue Examples.rt0 1 [Byte.x01; Byte.x02]
    (mkValue rawBytesType (VSlice [VScalar 7; VScalar 8; VScalar 9]) true) None
  = Some ([], VSlice [VScalar 1; VScalar 2; VScalar 9],
          Some (Errorf "cannot unmarshal slice type %s: %v"
                  [AType rawBytesType;
                   AErr (Errorf "cannot read byte slice directly from input buffer: %v"
                           [AErr ErrUnexpectedEOF])])).
Proof.
  exact (raw_bytes_short_read_overwrites_front Examples.rt0 0
           [VScalar 7; VScalar 8; VScalar 9] true None Byte.x01 [Byte.x02]
           eq_refl ltac:(simpl; lia)).
Defined.

(** ** Slices that are already allocated *)

Lemma updateNth_length i d : forall l,
  List.length (updateNth i d l) = List.length l.
Proof.
  induction i as [ | i IH]; intros [ | x l]; cbn [updateNth List.length];
    try reflexivity.
  rewrite IH. reflexivity.
Qed.

Lemma unmarshalElems_length f idx : forall buf slice ctx buf' d err,
  unmarshalElems f buf slice ctx idx = Some (buf', d, err) ->
  List.length (sliceData d) = Len slice.
Proof.
  induction idx as [ | i rest IH]; intros buf slice ctx buf' d err H.
  - cbn [unmarshalElems] in H. injection H as _ <- _. reflexivity.
  - cbn [unmarshalElems] in H.
    destruct (f buf (Index slice i) (Some (beginSliceElemCtx ctx slice)))
      as [[[b1 d1] [e1 | ]] | ]; [ | | discriminate H ].
    + injection H as _ <- _. cbn [vData sliceData]. apply updateNth_length.
    + apply IH in H. rewrite H. unfold Len. cbn [vData sliceData].
      apply updateNth_length.
Qed.

Lemma ReadFull_length buf n : (List.length (snd (fst (ReadFull buf n))) <= n)%nat.
Proof.
  unfold ReadFull. destruct (n =? 0)%nat; [ cbn; lia | ].
  destruct (List.length buf =? 0)%nat; [ cbn; lia | ].
  destruct (List.length buf <? n)%nat eqn:E; cbn [fst snd].
  - apply Nat.ltb_lt in E. lia.
  - rewrite length_firstn. lia.
Qed.

Lemma readIntoBytes_length bs old :
  (List.length bs <= List.length old)%nat ->
  List.length (sliceData (readIntoBytes bs old)) = List.length old.
Proof.
  intros H. unfold readIntoBytes. cbn [sliceData].
  rewrite length_app, length_map, length_skipn. lia.
Qed.

(** X19: a destination slice that is not nil is never reallocated.
    Whatever the call returns, the destination has the length it had;
    and the size field in the input is read and then ignored, so two
    inputs that differ only in their size field give the same outcome. *)
Theorem allocated_slice_is_never_resized :
  forall rt n slice ctx,
    TypeKind (vType slice) = reflect.Slice ->
    hasCustomMarshallerImpl rt (vType slice) = false ->
    IsNil slice = false ->
    (forall buf buf' d err,
        unmarshalValue rt n buf slice ctx = Some (buf', d, err) ->
        List.length (sliceData d) = Len slice)
    /\ (type_eqb (vType slice) rawBytesType = false ->
        raw (options (entered ctx)) = false ->
        forall l1 l2 body,
          let k := if isSizedBuffer (vType slice) then 2%nat else 4%nat in
          unmarshalValue rt n (be_bytes k l1 ++ body) slice ctx
          = unmarshalValue rt n (be_bytes k l2 ++ body) slice ctx).
Proof.
  intros rt n slice ctx Hk Hc Hnil.
  destruct n as [ | n]; [ split; [ intros buf buf' d err H; discriminate H
                                 | intros _ _ l1 l2 body k; reflexivity ] | ].
  assert (Hstep : forall buf,
    unmarshalValue rt (S n) buf slice ctx
    = uwrapError (unmarshalSlice (unmarshalValue rt n) buf slice (entered ctx))
                 "cannot unmarshal slice type %s: %v" (vType slice)).
  { intros buf. rewrite unmarshalValue_S. unfold unmarshalValue_body.
    rewrite Hc. unfold ValueKind. rewrite Hk. reflexivity. }
  split.
  - intros buf buf' d err H. rewrite Hstep in H.
    assert (Hin : forall e',
      unmarshalSlice (unmarshalValue rt n) buf slice (entered ctx) = Some (buf', d, e') ->
      List.length (sliceData d) = Len slice).
    { clear H. intros e' H. unfold unmarshalSlice in H. rewrite Hnil in H.
      destruct (type_eqb (vType slice) rawBytesType).
      - pose proof (ReadFull_length buf (Len slice)) as Hlen.
        destruct (ReadFull buf (Len slice)) as [[b1 bs] [e1 | ]]; cbn [fst snd] in Hlen;
          injection H as _ <- _; apply readIntoBytes_length; exact Hlen.
      - cbv zeta in H. cbn [andb] in H.
        destruct (raw (options (entered ctx))).
        + apply unmarshalElems_length in H. exact H.
        + destruct (isSizedBuffer (vType slice)).
          * destruct (ReadFull buf 2) as [[b1 bs] [e1 | ]].
            -- injection H as _ <- _. reflexivity.
            -- apply unmarshalElems_length in H. exact H.
          * destruct (ReadFull buf 4) as [[b1 bs] [e1 | ]].
            -- injection H as _ <- _. reflexivity.
            -- apply unmarshalElems_length in H. exact H. }
    destruct (unmarshalSlice (unmarshalValue rt n) buf slice (entered ctx))
      as [[[b1 d1] [e1 | ]] | ]; [ | | discriminate H ].
    + injection H as <- <- _. apply (Hin (Some e1)). reflexivity.
    + injection H as <- <- _. apply (Hin None). reflexivity.
  - intros Hraw Hopt l1 l2 body k. rewrite !Hstep. f_equal.
    unfold unmarshalSlice. rewrite Hraw, Hopt, Hnil. subst k.
    destruct (isSizedBuffer (vType slice));
      rewrite !ReadFull_app by apply be_bytes_length; reflexivity.
Qed.

Lemma allocated_slice_is_never_resized_witness :
  unmarshalValue Examples.rt0 2
    (be_bytes 4 9 ++ [Byte.x00; Byte.x07; Byte.xff])
    (mkValue (TSlice "" Examples.tUint16) (VSlice [VScalar 0]) true) None
  = unmarshalValue Examples.rt0 2
      (be_bytes 4 1 ++ [Byte.x00; Byte.x07; Byte.xff])
      (mkValue (TSlice "" Examples.tUint16) (VSlice [VScalar 0]) true) None.
Proof.
  exact (proj2 (allocated_slice_is_never_resized Examples.rt0 2
                  (mkValue (TSlice "" Examples.tUint16) (VSlice [VScalar 0]) true) None
                  eq_refl eq_refl eq_refl) eq_refl eq_refl 9 1
               [Byte.x00; Byte.x07; Byte.xff]).
Defined.

(** ** Unions: the variant is found the same way in both directions *)

(** X20: both engines find the variant of a union in the same way and
    before touching the data.  When that fails, marshalling writes
    nothing and unmarshalling reads nothing and leaves the destination
    as it was, both with the same cause; when the selector chooses no
    data, both succeed without writing or reading. *)
Theorem union_selection_is_shared :
  forall rt n u ctx,
    isUnion rt (vType u) = true ->
    hasCustomMarshallerImpl rt (vType u) = false ->
    sized (options ctx) = false ->
    (forall e,
        selectUnionType rt u ctx = inl e ->
        (forall W (Wr : Writer W) (w : W),
            marshalValue rt (S n) W Wr w u (Some ctx)
            = Some (w, Some (unionError (vType u) e)))
        /\ (forall buf,
            unmarshalValue rt (S n) buf u (Some ctx)
            = Some (buf, vData u,
                    Some (Errorf "cannot unmarshal struct type %s: %v"
                            [AType (vType u);
                             AErr (Errorf "error unmarshalling union struct: %v"
                                     [AErr e])]))))
    /\ (selectUnionType rt u ctx = inr None ->
        (forall W (Wr : Writer W) (w : W),
            marshalValue rt (S n) W Wr w u (Some ctx) = Some (w, None))
        /\ (forall buf,
            unmarshalValue rt (S n) buf u (Some ctx) = Some (buf, vData u, None))).
Proof.
  intros rt n u ctx HU HC HS.
  assert (Hm : forall W (Wr : Writer W) (w : W),
    marshalValue rt (S n) W Wr w u (Some ctx)
    = match marshalUnion rt (marshalValue rt n) w u (incDepth ctx) with
      | Some (buf', Some err) => Some (buf', Some (unionError (vType u) err))
      | r => r
      end).
  { intros W Wr w. apply marshalValue_union; assumption. }
  assert (Hu : forall buf,
    unmarshalValue rt (S n) buf u (Some ctx)
    = match unmarshalUnion rt (unmarshalValue rt n) buf u (incDepth ctx) with
      | Some (buf', d, Some err) =>
          Some (buf', d,
                Some (Errorf "cannot unmarshal struct type %s: %v"
                        [AType (vType u);
                         AErr (Errorf "error unmarshalling union struct: %v"
                                 [AErr err])]))
      | r => r
      end).
  { intros buf. apply unmarshalValue_union; assumption. }
  unfold selectUnionType.
  split.
  - intros e He.
    split; [ intros W Wr w; rewrite Hm; unfold marshalUnion
           | intros buf; rewrite Hu; unfold unmarshalUnion ];
      cbn [incDepth container options];
      destruct (container ctx) as [c | ];
      [ | injection He as <-; reflexivity | | injection He as <-; reflexivity ];
      (destruct (negb (isValidUnionContainer (vType c)));
         [ injection He as <-; reflexivity | ]);
      (destruct (String.eqb (selector (options ctx)) "");
         [ injection He as <-; reflexivity | ]);
      (destruct (FieldByName c (selector (options ctx))) as [selectorVal | ];
         [ | injection He as <-; reflexivity ]);
      destruct (callSelect rt u selectorVal) as [[st | ] [err | ]];
      try discriminate He; injection He as <-; reflexivity.
  - intros He.
    split; [ intros W Wr w; rewrite Hm; unfold marshalUnion
           | intros buf; rewrite Hu; unfold unmarshalUnion ];
      cbn [incDepth container options];
      destruct (container ctx) as [c | ]; try discriminate He;
      (destruct (negb (isValidUnionContainer (vType c))); [ discriminate He | ]);
      (destruct (String.eqb (selector (options ctx)) ""); [ discriminate He | ]);
      (destruct (FieldByName c (selector (options ctx))) as [selectorVal | ];
         [ | discriminate He ]);
      destruct (callSelect rt u selectorVal) as [[st | ] [err | ]];
      try discriminate He; reflexivity.
Qed.

Lemma union_selection_is_shared_witness :
  let u := mkValue Examples.TestUnion (VStruct [VNilIface]) true in
  let ctx (sel : Z) :=
    mkContext 1 (Some (mkValue Examples.TestUnionContainer
                         (VStruct [VScalar sel; vData u]) true))
              (Some Examples.TestUnionContainer) (parseFieldOptions "selector:Select") in
  unmarshalValue Examples.rtU 1 [Byte.xff] u (Some (ctx 9))
  = Some ([Byte.xff], vData u,
          Some (Errorf "cannot unmarshal struct type %s: %v"
                  [AType Examples.TestUnion;
                   AErr (Errorf "error unmarshalling union struct: %v"
                           [AErr (Errorf "cannot select union data type: %v"
                                    [AErr (invalidSelectorError (VScalar 9))])])]))
  /\ unmarshalValue Examples.rtU 1 [Byte.xff] u (Some (ctx 0))
     = Some ([Byte.xff], vData u, None).
Proof.
  split.
  - exact (proj2 (proj1 (union_selection_is_shared Examples.rtU 0
             (mkValue Examples.TestUnion (VStruct [VNilIface]) true)
             (mkContext 1 (Some (mkValue Examples.TestUnionContainer
                                   (VStruct [VScalar 9; VStruct [VNilIface]]) true))
                (Some Examples.TestUnionContainer) (parseFieldOptions "selector:Select"))
             eq_refl eq_refl eq_refl)
             (Errorf "cannot select union data type: %v"
                [AErr (invalidSelectorError (VScalar 9))]) eq_refl) [Byte.xff]).
  - exact (proj2 (proj2 (union_selection_is_shared Examples.rtU 0
             (mkValue Examples.TestUnion (VStruct [VNilIface]) true)
             (mkContext 1 (Some (mkValue Examples.TestUnionContainer
                                   (VStruct [VScalar 0; VStruct [VNilIface]]) true))
                (Some Examples.TestUnionContainer) (parseFieldOptions "selector:Select"))
             eq_refl eq_refl eq_refl) eq_refl) [Byte.xff]).
Defined.


(** ** Custom marshallers and kinds without an encoding *)

(** X21: a type whose pointer type implements CustomMarshaller cannot
    be passed to MarshalToBytes by value, since the value is then not
    addressable; passed by pointer, the call returns what the type's own
    Marshal method writes, or its error wrapped. *)
Theorem custom_marshaller_needs_a_pointer :
  forall rt n t d impl,
    TypeKind t <> reflect.Ptr ->
    customMarshallerImpl rt (TPtr t) = Some impl ->
    MarshalToBytes rt (S n) [Some (t, d)]
    = Some ([], Some (Errorf
        "cannot marshal non-addressable non-pointer type %s with custom marshaller"
        [AType t]))
    /\ MarshalToBytes rt (S n) [Some (TPtr t, VPtr d)]
       = match Marshal impl d bytesBuffer bytesBuffer_Writer [] with
         | (b, None) => Some (b, None)
         | (_, Some err) =>
             Some ([], Some (Errorf "cannot marshal type %s with custom marshaller: %v"
                               [AType (TPtr t); AErr err]))
         end.
Proof.
  intros rt n t d impl Hk Himpl.
  assert (Hnp : Kind_eqb (TypeKind t) reflect.Ptr = false).
  { destruct (Kind_eqb (TypeKind t) reflect.Ptr) eqn:E; [ | reflexivity ].
    apply Kind_eqb_eq in E. contradiction. }
  unfold MarshalToBytes. cbn [MarshalToWriter]. rewrite !marshalValue_S.
  unfold marshalValue_body, hasCustomMarshallerImpl, Implements_CustomMarshaller,
    ValueOf, ValueKind, PtrTo.
  cbn [fst snd vType vData CanAddr TypeKind].
  rewrite Hnp, Kind_eqb_refl. cbn [negb andb]. rewrite Himpl.
  split; [ reflexivity | ].
  unfold IsNil, callMarshal, Elem. cbn [vData vType]. rewrite Himpl.
  destruct (Marshal impl d bytesBuffer bytesBuffer_Writer []) as [b [e | ]];
    reflexivity.
Qed.

Lemma custom_marshaller_needs_a_pointer_witness :
  MarshalToBytes Examples.rtAll 1 [Some (Examples.Tagged, VStruct [VScalar 6])]
  = Some ([], Some (Errorf
      "cannot marshal non-addressable non-pointer type %s with custom marshaller"
      [AType Examples.Tagged]))
  /\ MarshalToBytes Examples.rtAll 1 [Some (TPtr Examples.Tagged, VPtr (VStruct [VScalar 6]))]
     = Some ([Byte.xaa; Byte.x06], None).
Proof.
  exact (custom_marshaller_needs_a_pointer Examples.rtAll 0 Examples.Tagged
           (VStruct [VScalar 6])
           {| Marshal := Examples.Tagged_Marshal; Unmarshal := Examples.Tagged_Unmarshal |}
           ltac:(discriminate) eq_refl).
Defined.

(** X22: a value of kind array, chan, func, interface, map or unsafe
    pointer, or of one of the kinds int, uint, uintptr and string, to
    which encoding/binary gives no size, is refused by both engines at
    any depth: nothing is written, nothing is read, and the destination
    keeps its value. *)
Theorem kinds_without_encoding_are_refused :
  forall rt n val ctx,
    hasCustomMarshallerImpl rt (vType val) = false ->
    neverEncoded (ValueKind val) = true ->
    (forall W (Wr : Writer W) (buf : W),
        exists err, marshalValue rt (S n) W Wr buf val ctx = Some (buf, Some err))
    /\ (forall buf,
        exists err, unmarshalValue rt (S n) buf val ctx = Some (buf, vData val, Some err)).
Proof.
  intros rt n val ctx Hc Hk. unfold ValueKind in Hk. split.
  - intros W Wr buf. rewrite marshalValue_S. unfold marshalValue_body.
    rewrite Hc. unfold binaryWrite, ValueKind.
    destruct (TypeKind (vType val)); try discriminate Hk; eexists; reflexivity.
  - intros buf. rewrite unmarshalValue_S. unfold unmarshalValue_body.
    rewrite Hc. unfold binaryRead, ValueKind.
    destruct (TypeKind (vType val)); try discriminate Hk;
      try (eexists; reflexivity);
      destruct (CanAddr val); eexists; reflexivity.
Qed.

Lemma kinds_without_encoding_are_refused_witness :
  (exists err,
      marshalValue Examples.rt0 1 bytesBuffer bytesBuffer_Writer []
        (mkValue MoreExamples.tInt (VScalar 7) true) None = Some ([], Some err))
  /\ (exists err,
      unmarshalValue Examples.rt0 1 [Byte.x00; Byte.x07]
        (mkValue MoreExamples.tInt (VScalar 0) true) None
      = Some ([Byte.x00; Byte.x07], VScalar 0, Some err)).
Proof.
  split.
  - exact (proj1 (kinds_without_encoding_are_refused Examples.rt0 0
                    (mkValue MoreExamples.tInt (VScalar 7) true) None eq_refl eq_refl)
                 bytesBuffer bytesBuffer_Writer []).
  - exact (proj2 (kinds_without_encoding_are_refused Examples.rt0 0
                    (mkValue MoreExamples.tInt (VScalar 0) true) None eq_refl eq_refl)
                 [Byte.x00; Byte.x07]).
Defined.
